(** * gosync: the metadata store, the migration ledger and path resolution

    A shallow embedding of [pkg/db/models], [pkg/db/store/sqlite.go],
    [pkg/db/migrations/migrations.go] and of the registry listing
    ([Register], [ResolveVirtualPath], [isValidBackendID]) of
    [docs/02-Virtual-Filesystem-with-Multi-Backend-S3-Support.md].

    The store is a thin layer over GORM on SQLite.  Every method is one GORM
    call, so the embedding gives each GORM call the meaning it has under the
    schema that the struct tags of [pkg/db/models] declare:
    - a table is the list of its rows in rowid order, the order in which
      a query that names no other order walks it;
    - [primaryKey] and [uniqueIndex] columns reject a second row with the
      same value, the primary key being tested first; plain [index]
      columns do not;
    - a model with a [DeletedAt] column is soft-deleted: [Delete] stamps the
      column, and every query built from the model skips stamped rows;
    - [First] orders by primary key and takes one row; [Find] issues no
      ORDER BY and returns the rows as the table or the index that answers
      the query yields them.

    Scope: association fields ([Files], [Backend], [Tags], [File]) are not
    columns and are left out, so the embedding covers calls that leave them
    empty.  Foreign keys are declared by the models but SQLite only enforces
    them under [PRAGMA foreign_keys], which the store never sets.  Strings
    are well-formed UTF-8 without NUL bytes. *)

From Stdlib Require Import List String Ascii ZArith NArith Bool Lia.
From Stdlib Require Import Permutation Sorted.
Import ListNotations.

Set Implicit Arguments.

(* ================================================================= *)
(** ** Go values *)

(** [time.Time] as a count of time units; the zero [Time] is [0]. *)
Definition Time := Z.

Definition IsZero (t : Time) : bool := (t =? 0)%Z.

(** [gorm.DeletedAt] is a nullable time. *)
Definition DeletedAt := option Time.

(** Auto-filled time columns ([CreatedAt], [UpdatedAt]) take the current
    time on insert when the caller left them zero. *)
Definition autoTime (now t : Time) : Time := if IsZero t then now else t.

(** Largest row id SQLite can store, and the largest [uint] the SQL driver
    accepts as a parameter. *)
Definition MaxInt64 : N := 9223372036854775807.

Inductive error : Type :=
| ErrRecordNotFound
| ErrUniqueConstraint (column : string)
| ErrDatabaseFull
| ErrOutOfRange
| ErrBackendNotFound (id : string)
| ErrInvalidVirtualPath
| ErrInvalidBackendID
| ErrEncryptCredentials (cause : error)
| ErrNoSuchTable (table : string)
| ErrQueryHistory (cause : error)
| ErrMigrationFailed (version : Z) (description : string) (cause : error).

Inductive result (A : Type) : Type :=
| Ok (a : A)
| Err (e : error).

Arguments Ok {A} a.
Arguments Err {A} e.

(* ================================================================= *)
(** ** SQLite text operators *)

Module sqlite3.

Definition code (c : ascii) : N := N_of_ascii c.

(** Continuation and lead bytes of a multi-byte UTF-8 character. *)
Definition is_cont (c : ascii) : bool := ((128 <=? code c) && (code c <? 192))%N.
Definition is_lead (c : ascii) : bool := (192 <=? code c)%N.

Fixpoint skip_cont (s : string) : string :=
  match s with
  | EmptyString => EmptyString
  | String c s' => if is_cont c then skip_cont s' else s
  end.

(** [sqlite3Utf8Read]: drop one character from the front of [s]. *)
Definition utf8_next (s : string) : option string :=
  match s with
  | EmptyString => None
  | String c s' => Some (if is_lead c then skip_cont s' else s')
  end.

(** Every suffix of [s] that starts on a character boundary, longest
    first; [skipping] is set while inside a multi-byte character. *)
Fixpoint char_suffixes (skipping : bool) (s : string) : list string :=
  match s with
  | EmptyString => [EmptyString]
  | String c s' =>
      if skipping && is_cont c then char_suffixes true s'
      else s :: char_suffixes (is_lead c) s'
  end.

(** [sqlite3Tolower] folds the ASCII capitals only. *)
Definition tolower (c : ascii) : ascii :=
  if ((65 <=? code c) && (code c <=? 90))%N then ascii_of_N (code c + 32) else c.

Definition same_nocase (c c2 : ascii) : bool :=
  Ascii.eqb c c2
  || (Ascii.eqb (tolower c) (tolower c2) && (code c <? 128)%N && (code c2 <? 128)%N).

(** [patternCompare] with the LIKE settings: [%] matches any run of
    characters, [_] exactly one character, anything else itself up to
    ASCII case; no escape character. *)
Fixpoint patternCompare (zPattern zString : string) {struct zPattern} : bool :=
  match zPattern with
  | EmptyString =>
      match zString with EmptyString => true | String _ _ => false end
  | String c p' =>
      if Ascii.eqb c "%" then
        existsb (patternCompare p') (char_suffixes false zString)
      else if Ascii.eqb c "_" then
        match utf8_next zString with
        | Some s' => patternCompare p' s'
        | None => false
        end
      else
        match zString with
        | String c2 s' => same_nocase c c2 && patternCompare p' s'
        | EmptyString => false
        end
  end.

(** [X LIKE Y]: the pattern is the right operand. *)
Definition like (x pattern : string) : bool := patternCompare pattern x.

End sqlite3.

(* ================================================================= *)
(** ** pkg/db/models *)

Module Backend.
Record t : Type := Build {
  ID : string;
  Name : string;
  Endpoint : string;
  Region : string;
  Bucket : string;
  UseSSL : bool;
  AccessKey : string;
  SecretKey : string;
  CreatedAt : Time;
  UpdatedAt : Time;
  DeletedAt : DeletedAt
}.
End Backend.

Module File.
Record t : Type := Build {
  ID : N;
  BackendID : string;
  Path : string;
  Size : Z;
  MD5Hash : string;
  SHA256Hash : string;
  ETag : string;
  ModifiedAt : Time;
  CreatedAt : Time;
  UpdatedAt : Time;
  DeletedAt : DeletedAt
}.
End File.

Module Tag.
Record t : Type := Build {
  ID : N;
  FileID : N;
  Key : string;
  Value : string;
  CreatedAt : Time;
  UpdatedAt : Time;
  DeletedAt : DeletedAt
}.
End Tag.

Module Filter.
Record t : Type := Build {
  ID : N;
  VirtualPath : string;
  Name : string;
  QueryExpression : string;
  Description : string;
  CreatedAt : Time;
  UpdatedAt : Time;
  DeletedAt : DeletedAt
}.
End Filter.

(* ================================================================= *)
(** ** GORM calls over a table *)

Module gorm.

(** A model with a [DeletedAt] column. *)
Class SoftDelete (R : Type) : Type := {
  deleted_at : R -> DeletedAt;
  set_deleted_at : Time -> R -> R
}.

(** A model whose primary key is an auto-increment [uint]. *)
Class AutoIncrement (R : Type) : Type := {
  id_of : R -> N;
  with_id : N -> R -> R
}.

Section Table.
Context {R : Type} `{SoftDelete R}.

(** The scope GORM adds to every query of the model:
    [deleted_at IS NULL]. *)
Definition active (r : R) : bool :=
  match deleted_at r with None => true | Some _ => false end.

(** [db.Where(cond).Find(&rows)] *)
Definition Find (cond : R -> bool) (rows : list R) : list R :=
  filter (fun r => active r && cond r) rows.

(** The least row under [lt], the earliest one among equals. *)
Fixpoint least (lt : R -> R -> bool) (rows : list R) : option R :=
  match rows with
  | [] => None
  | r :: rest =>
      match least lt rest with
      | Some m => Some (if lt m r then m else r)
      | None => Some r
      end
  end.

(** [db.Where(cond).First(&row)]: ORDER BY primary key LIMIT 1, and
    [ErrRecordNotFound] when nothing matches. *)
Definition First (pk_lt : R -> R -> bool) (cond : R -> bool) (rows : list R)
  : result R :=
  match least pk_lt (Find cond rows) with
  | Some r => Ok r
  | None => Err ErrRecordNotFound
  end.

(** [db.Where(cond).Delete(&Model{})] on a soft-delete model:
    UPDATE ... SET deleted_at = now WHERE cond AND deleted_at IS NULL.
    Matching no row is not an error. *)
Definition Delete (now : Time) (cond : R -> bool) (rows : list R) : list R :=
  map (fun r => if active r && cond r then set_deleted_at now r else r) rows.

(** [query.Limit(n)] and [query.Offset(n)] as the SQLite dialect renders
    them: OFFSET first, then LIMIT. *)
Definition Offset (n : Z) (rows : list R) : list R := skipn (Z.to_nat n) rows.
Definition Limit (n : Z) (rows : list R) : list R := firstn (Z.to_nat n) rows.

End Table.

Section Insert.
Context {R : Type} `{AutoIncrement R}.

Definition max_id (rows : list R) : N :=
  fold_right N.max 0%N (map id_of rows).

Definition has_id (i : N) (rows : list R) : bool :=
  existsb (fun r => (id_of r =? i)%N) rows.

(** The place of a row with a given id in the table: before the first
    row with a larger id. *)
Fixpoint insert_by_id (r : R) (rows : list R) : list R :=
  match rows with
  | [] => [r]
  | x :: rest =>
      if (id_of r <? id_of x)%N then r :: rows else x :: insert_by_id r rest
  end.

(** [db.Create(&row)] on an auto-increment table whose rows are never
    removed.  A zero [ID] is left to SQLite, which takes the next id
    after the largest one and writes it back into the struct, so the row
    comes last; a non-zero [ID] is inserted as given, at its place in
    rowid order, and collides with a row that already has it. *)
Definition Create (r : R) (rows : list R) : result (R * list R) :=
  if (id_of r =? 0)%N then
    if (max_id rows <? MaxInt64)%N then
      let r' := with_id (max_id rows + 1)%N r in
      Ok (r', rows ++ [r'])
    else Err ErrDatabaseFull
  else if (MaxInt64 <? id_of r)%N then Err ErrOutOfRange
  else if has_id (id_of r) rows then Err (ErrUniqueConstraint "id")
  else Ok (r, insert_by_id r rows).

End Insert.

End gorm.

(* ================================================================= *)
(** ** The model instances *)

#[export] Instance Backend_SoftDelete : gorm.SoftDelete Backend.t := {|
  gorm.deleted_at := Backend.DeletedAt;
  gorm.set_deleted_at := fun now b =>
    Backend.Build (Backend.ID b) (Backend.Name b) (Backend.Endpoint b)
      (Backend.Region b) (Backend.Bucket b) (Backend.UseSSL b)
      (Backend.AccessKey b) (Backend.SecretKey b)
      (Backend.CreatedAt b) (Backend.UpdatedAt b) (Some now)
|}.

#[export] Instance File_SoftDelete : gorm.SoftDelete File.t := {|
  gorm.deleted_at := File.DeletedAt;
  gorm.set_deleted_at := fun now f =>
    File.Build (File.ID f) (File.BackendID f) (File.Path f) (File.Size f)
      (File.MD5Hash f) (File.SHA256Hash f) (File.ETag f) (File.ModifiedAt f)
      (File.CreatedAt f) (File.UpdatedAt f) (Some now)
|}.

#[export] Instance Tag_SoftDelete : gorm.SoftDelete Tag.t := {|
  gorm.deleted_at := Tag.DeletedAt;
  gorm.set_deleted_at := fun now t =>
    Tag.Build (Tag.ID t) (Tag.FileID t) (Tag.Key t) (Tag.Value t)
      (Tag.CreatedAt t) (Tag.UpdatedAt t) (Some now)
|}.

#[export] Instance Filter_SoftDelete : gorm.SoftDelete Filter.t := {|
  gorm.deleted_at := Filter.DeletedAt;
  gorm.set_deleted_at := fun now f =>
    Filter.Build (Filter.ID f) (Filter.VirtualPath f) (Filter.Name f)
      (Filter.QueryExpression f) (Filter.Description f)
      (Filter.CreatedAt f) (Filter.UpdatedAt f) (Some now)
|}.

#[export] Instance File_AutoIncrement : gorm.AutoIncrement File.t := {|
  gorm.id_of := File.ID;
  gorm.with_id := fun i f =>
    File.Build i (File.BackendID f) (File.Path f) (File.Size f)
      (File.MD5Hash f) (File.SHA256Hash f) (File.ETag f) (File.ModifiedAt f)
      (File.CreatedAt f) (File.UpdatedAt f) (File.DeletedAt f)
|}.

#[export] Instance Tag_AutoIncrement : gorm.AutoIncrement Tag.t := {|
  gorm.id_of := Tag.ID;
  gorm.with_id := fun i t =>
    Tag.Build i (Tag.FileID t) (Tag.Key t) (Tag.Value t)
      (Tag.CreatedAt t) (Tag.UpdatedAt t) (Tag.DeletedAt t)
|}.

#[export] Instance Filter_AutoIncrement : gorm.AutoIncrement Filter.t := {|
  gorm.id_of := Filter.ID;
  gorm.with_id := fun i f =>
    Filter.Build i (Filter.VirtualPath f) (Filter.Name f)
      (Filter.QueryExpression f) (Filter.Description f)
      (Filter.CreatedAt f) (Filter.UpdatedAt f) (Filter.DeletedAt f)
|}.

(** What GORM writes for a row on insert: the auto-filled time columns,
    and for [Backend.UseSSL] the column default, which GORM applies
    whenever the field holds its zero value [false]. *)
Definition Backend_on_create (now : Time) (b : Backend.t) : Backend.t :=
  Backend.Build (Backend.ID b) (Backend.Name b) (Backend.Endpoint b)
    (Backend.Region b) (Backend.Bucket b)
    (if Backend.UseSSL b then Backend.UseSSL b else true)
    (Backend.AccessKey b) (Backend.SecretKey b)
    (autoTime now (Backend.CreatedAt b)) (autoTime now (Backend.UpdatedAt b))
    (Backend.DeletedAt b).

Definition File_on_create (now : Time) (f : File.t) : File.t :=
  File.Build (File.ID f) (File.BackendID f) (File.Path f) (File.Size f)
    (File.MD5Hash f) (File.SHA256Hash f) (File.ETag f) (File.ModifiedAt f)
    (autoTime now (File.CreatedAt f)) (autoTime now (File.UpdatedAt f))
    (File.DeletedAt f).

Definition Tag_on_create (now : Time) (t : Tag.t) : Tag.t :=
  Tag.Build (Tag.ID t) (Tag.FileID t) (Tag.Key t) (Tag.Value t)
    (autoTime now (Tag.CreatedAt t)) (autoTime now (Tag.UpdatedAt t))
    (Tag.DeletedAt t).

Definition Filter_on_create (now : Time) (f : Filter.t) : Filter.t :=
  Filter.Build (Filter.ID f) (Filter.VirtualPath f) (Filter.Name f)
    (Filter.QueryExpression f) (Filter.Description f)
    (autoTime now (Filter.CreatedAt f)) (autoTime now (Filter.UpdatedAt f))
    (Filter.DeletedAt f).

(* ================================================================= *)
(** ** pkg/db/store/sqlite.go *)

Module store.

(** The tables behind [SQLiteStore.db]. *)
Record DB : Type := MkDB {
  backends : list Backend.t;
  files : list File.t;
  tags : list Tag.t;
  filters : list Filter.t
}.

Definition empty : DB := MkDB [] [] [] [].

Definition backend_lt (a b : Backend.t) : bool :=
  String.ltb (Backend.ID a) (Backend.ID b).
Definition file_lt (a b : File.t) : bool := (File.ID a <? File.ID b)%N.
Definition filter_lt (a b : Filter.t) : bool := (Filter.ID a <? Filter.ID b)%N.

(** *** Backend operations *)

(** [s.db.Create(backend)]: [ID] is a text primary key, taken as given. *)
Definition CreateBackend (now : Time) (backend : Backend.t) (s : DB)
  : result (Backend.t * DB) :=
  if existsb (fun b => String.eqb (Backend.ID b) (Backend.ID backend)) (backends s)
  then Err (ErrUniqueConstraint "backends.id")
  else
    let row := Backend_on_create now backend in
    Ok (row, MkDB (backends s ++ [row]) (files s) (tags s) (filters s)).

(** [s.db.Where("id = ?", id).First(&backend)] *)
Definition GetBackend (id : string) (s : DB) : result Backend.t :=
  gorm.First backend_lt (fun b => String.eqb (Backend.ID b) id) (backends s).

(** [s.db.Find(&backends)] *)
Definition ListBackends (s : DB) : result (list Backend.t) :=
  Ok (gorm.Find (fun _ => true) (backends s)).

(** [s.db.Delete(&models.Backend{}, "id = ?", id)] *)
Definition DeleteBackend (now : Time) (id : string) (s : DB) : result DB :=
  Ok (MkDB (gorm.Delete now (fun b => String.eqb (Backend.ID b) id) (backends s))
        (files s) (tags s) (filters s)).

(** *** File operations *)

(** [s.db.Create(file)] *)
Definition CreateFile (now : Time) (file : File.t) (s : DB)
  : result (File.t * DB) :=
  match gorm.Create (File_on_create now file) (files s) with
  | Ok (row, rows) => Ok (row, MkDB (backends s) rows (tags s) (filters s))
  | Err e => Err e
  end.

(** [s.db.Where("backend_id = ? AND path = ?", backendID, path).First(&file)] *)
Definition GetFile (backendID path : string) (s : DB) : result File.t :=
  gorm.First file_lt
    (fun f => String.eqb (File.BackendID f) backendID && String.eqb (File.Path f) path)
    (files s).

(** The WHERE clause [ListFiles] builds: the backend always, the LIKE
    pattern [pathPrefix + "%"] only for a non-empty prefix. *)
Definition ListFiles_where (backendID pathPrefix : string) (f : File.t) : bool :=
  String.eqb (File.BackendID f) backendID
  && (if String.eqb pathPrefix "" then true
      else sqlite3.like (File.Path f) (pathPrefix ++ "%")).

(** The order of the composite index [idx_backend_path] within one
    backend: by [path], bytewise, and by rowid among equal paths. *)
Definition idx_backend_path_le (a b : File.t) : bool :=
  match String.compare (File.Path a) (File.Path b) with
  | Lt => true
  | Eq => (File.ID a <=? File.ID b)%N
  | Gt => false
  end.

Fixpoint idx_insert (f : File.t) (rows : list File.t) : list File.t :=
  match rows with
  | [] => [f]
  | x :: rest =>
      if idx_backend_path_le f x then f :: rows else x :: idx_insert f rest
  end.

(** The rows in the order in which a walk of [idx_backend_path] meets
    them. *)
Definition idx_backend_path (rows : list File.t) : list File.t :=
  fold_right idx_insert [] rows.

(** The query issues no ORDER BY.  SQLite answers it through
    [idx_backend_path], whose leading column the WHERE clause fixes, so
    the rows come back in the order of that index. *)
Definition ListFiles (backendID pathPrefix : string) (limit offset : Z) (s : DB)
  : result (list File.t) :=
  let query :=
    idx_backend_path (gorm.Find (ListFiles_where backendID pathPrefix) (files s)) in
  let query := if (0 <? offset)%Z then gorm.Offset offset query else query in
  let query := if (0 <? limit)%Z then gorm.Limit limit query else query in
  Ok query.

(** [s.db.Delete(&models.File{}, id)] *)
Definition DeleteFile (now : Time) (id : N) (s : DB) : result DB :=
  Ok (MkDB (backends s)
        (gorm.Delete now (fun f => (File.ID f =? id)%N) (files s))
        (tags s) (filters s)).

(** [s.db.Where("backend_id = ?", backendID).Delete(&models.File{})] *)
Definition DeleteFilesByBackend (now : Time) (backendID : string) (s : DB)
  : result DB :=
  Ok (MkDB (backends s)
        (gorm.Delete now (fun f => String.eqb (File.BackendID f) backendID) (files s))
        (tags s) (filters s)).

(** *** Tag operations *)

(** [s.db.Create(tag)] *)
Definition CreateTag (now : Time) (tag : Tag.t) (s : DB) : result (Tag.t * DB) :=
  match gorm.Create (Tag_on_create now tag) (tags s) with
  | Ok (row, rows) => Ok (row, MkDB (backends s) (files s) rows (filters s))
  | Err e => Err e
  end.

(** [s.db.Where("file_id = ?", fileID).Find(&tags)] *)
Definition GetFileTags (fileID : N) (s : DB) : result (list Tag.t) :=
  Ok (gorm.Find (fun t => (Tag.FileID t =? fileID)%N) (tags s)).

(** The rows of [tags] that the WHERE clause of the hand-written JOIN
    keeps.  The join names the table in SQL text, so GORM adds no
    [deleted_at] scope for it. *)
Definition joined_tags (key value : string) (s : DB) : list Tag.t :=
  filter (fun t => String.eqb (Tag.Key t) key && String.eqb (Tag.Value t) value)
    (tags s).

(** [s.db.Joins("JOIN tags ON tags.file_id = files.id")
        .Where("tags.key = ? AND tags.value = ?", key, value).Find(&files)]:
    one result row per pair of a tag row and a file, the tag rows walked
    in table order and each one's file looked up by id. *)
Definition GetFilesByTag (key value : string) (limit offset : Z) (s : DB)
  : result (list File.t) :=
  let query :=
    flat_map (fun t => gorm.Find (fun f => (File.ID f =? Tag.FileID t)%N) (files s))
      (joined_tags key value s) in
  let query := if (0 <? offset)%Z then gorm.Offset offset query else query in
  let query := if (0 <? limit)%Z then gorm.Limit limit query else query in
  Ok query.

(** [s.db.Delete(&models.Tag{}, id)] *)
Definition DeleteTag (now : Time) (id : N) (s : DB) : result DB :=
  Ok (MkDB (backends s) (files s)
        (gorm.Delete now (fun t => (Tag.ID t =? id)%N) (tags s))
        (filters s)).

(** [s.db.Where("file_id = ?", fileID).Delete(&models.Tag{})] *)
Definition DeleteFileTags (now : Time) (fileID : N) (s : DB) : result DB :=
  Ok (MkDB (backends s) (files s)
        (gorm.Delete now (fun t => (Tag.FileID t =? fileID)%N) (tags s))
        (filters s)).

(** *** Filter operations *)

(** [s.db.Create(filter)]: [VirtualPath] carries a [uniqueIndex], which
    spans soft-deleted rows too.  SQLite settles the row id first and
    tests the unique index after it. *)
Definition CreateFilter (now : Time) (filter : Filter.t) (s : DB)
  : result (Filter.t * DB) :=
  match gorm.Create (Filter_on_create now filter) (filters s) with
  | Ok (row, rows) =>
      if existsb (fun f => String.eqb (Filter.VirtualPath f) (Filter.VirtualPath filter))
           (filters s)
      then Err (ErrUniqueConstraint "filters.virtual_path")
      else Ok (row, MkDB (backends s) (files s) (tags s) rows)
  | Err e => Err e
  end.

(** [s.db.Where("virtual_path = ?", virtualPath).First(&filter)] *)
Definition GetFilter (virtualPath : string) (s : DB) : result Filter.t :=
  gorm.First filter_lt (fun f => String.eqb (Filter.VirtualPath f) virtualPath)
    (filters s).

(** [s.db.Find(&filters)] *)
Definition ListFilters (s : DB) : result (list Filter.t) :=
  Ok (gorm.Find (fun _ => true) (filters s)).

(** [s.db.Delete(&models.Filter{}, id)] *)
Definition DeleteFilter (now : Time) (id : N) (s : DB) : result DB :=
  Ok (MkDB (backends s) (files s) (tags s)
        (gorm.Delete now (fun f => (Filter.ID f =? id)%N) (filters s))).

End store.

(* ================================================================= *)
(** ** Histories of store calls *)

Module history.

(** The mutating calls of the store that the embedding covers. *)
Inductive call : Type :=
| CreateBackend (now : Time) (backend : Backend.t)
| DeleteBackend (now : Time) (id : string)
| CreateFile (now : Time) (file : File.t)
| DeleteFile (now : Time) (id : N)
| DeleteFilesByBackend (now : Time) (backendID : string)
| CreateTag (now : Time) (tag : Tag.t)
| DeleteTag (now : Time) (id : N)
| DeleteFileTags (now : Time) (fileID : N)
| CreateFilter (now : Time) (filter : Filter.t)
| DeleteFilter (now : Time) (id : N).

(** The store after a call; a call that fails leaves it as it was. *)
Definition keep {A} (s : store.DB) (r : result (A * store.DB)) : store.DB :=
  match r with Ok (_, s') => s' | Err _ => s end.

Definition keep_db (s : store.DB) (r : result store.DB) : store.DB :=
  match r with Ok s' => s' | Err _ => s end.

Definition exec (s : store.DB) (c : call) : store.DB :=
  match c with
  | CreateBackend now b => keep s (store.CreateBackend now b s)
  | DeleteBackend now id => keep_db s (store.DeleteBackend now id s)
  | CreateFile now f => keep s (store.CreateFile now f s)
  | DeleteFile now id => keep_db s (store.DeleteFile now id s)
  | DeleteFilesByBackend now b => keep_db s (store.DeleteFilesByBackend now b s)
  | CreateTag now t => keep s (store.CreateTag now t s)
  | DeleteTag now id => keep_db s (store.DeleteTag now id s)
  | DeleteFileTags now f => keep_db s (store.DeleteFileTags now f s)
  | CreateFilter now f => keep s (store.CreateFilter now f s)
  | DeleteFilter now id => keep_db s (store.DeleteFilter now id s)
  end.

Definition run (calls : list call) : store.DB := fold_left exec calls store.empty.

(** What the primary keys and the unique index of the schema enforce. *)
Definition keys_unique (s : store.DB) : Prop :=
  NoDup (map Backend.ID (store.backends s))
  /\ NoDup (map File.ID (store.files s))
  /\ NoDup (map Tag.ID (store.tags s))
  /\ NoDup (map Filter.ID (store.filters s))
  /\ NoDup (map Filter.VirtualPath (store.filters s)).

End history.

(* ================================================================= *)
(** ** Identifier check (listing of pkg/backend/registry.go in docs/02) *)

Module backend_id.

(** The character test in the loop of [isValidBackendID].  The loop runs
    over runes; a byte outside ASCII never decodes to a rune of these
    ranges, so the test is taken byte by byte. *)
Definition valid_rune (c : ascii) : bool :=
  let n := N_of_ascii c in
  (((97 <=? n) && (n <=? 122)) || ((65 <=? n) && (n <=? 90))
   || ((48 <=? n) && (n <=? 57)) || (n =? 45) || (n =? 95))%N.

Fixpoint all_runes (p : ascii -> bool) (s : string) : bool :=
  match s with
  | EmptyString => true
  | String c s' => if p c then all_runes p s' else false
  end.

(** [isValidBackendID] *)
Definition isValidBackendID (id : string) : bool :=
  match id with
  | EmptyString => false
  | String c _ =>
      if Ascii.eqb c "." || Ascii.eqb c "/" then false
      else all_runes valid_rune id
  end.

End backend_id.

(* ================================================================= *)
(** ** Registration and path resolution (listing of pkg/backend/registry.go in docs/02) *)

Module registry.

(** Split [s] at its first [sep]: the text before it, and the text after
    it when there is one. *)
Fixpoint cut (sep : ascii) (s : string) : string * option string :=
  match s with
  | EmptyString => (EmptyString, None)
  | String c s' =>
      if Ascii.eqb c sep then (EmptyString, Some s')
      else let (head, rest) := cut sep s' in (String c head, rest)
  end.

(** [strings.SplitN(s, "/", 2)] *)
Definition SplitN2 (s : string) : list string :=
  match cut "/" s with
  | (head, None) => [head]
  | (head, Some rest) => [head; rest]
  end.

(** [RegistryImpl.ResolveVirtualPath]; [r.Get] is the store lookup
    [SQLiteStore.GetBackend]. *)
Definition ResolveVirtualPath (virtualPath : string) (s : store.DB)
  : result (Backend.t * string) :=
  match SplitN2 virtualPath with
  | [] => Err ErrInvalidVirtualPath
  | backendID :: rest =>
      let backendPath := match rest with p :: _ => p | [] => EmptyString end in
      match store.GetBackend backendID s with
      | Err _ => Err (ErrBackendNotFound backendID)
      | Ok backend => Ok (backend, backendPath)
      end
  end.

Section Register.

(** [EncryptService.Encrypt] and [MetadataStore.UpsertBackend], which
    the listing calls and does not show. *)
Variable Encrypt : string -> result string.
Variable UpsertBackend : Backend.t -> store.DB -> result store.DB.

(** [RegistryImpl.encryptCredentials] *)
Definition encryptCredentials (b : Backend.t) : result Backend.t :=
  match Encrypt (Backend.AccessKey b) with
  | Err e => Err e
  | Ok accessKey =>
      match Encrypt (Backend.SecretKey b) with
      | Err e => Err e
      | Ok secretKey =>
          Ok (Backend.Build (Backend.ID b) (Backend.Name b) (Backend.Endpoint b)
                (Backend.Region b) (Backend.Bucket b) (Backend.UseSSL b)
                accessKey secretKey
                (Backend.CreatedAt b) (Backend.UpdatedAt b) (Backend.DeletedAt b))
      end
  end.

(** [RegistryImpl.Register]: the identifier is checked first, and a
    backend that fails the check never reaches the store. *)
Definition Register (backend : Backend.t) (s : store.DB) : result store.DB :=
  if negb (backend_id.isValidBackendID (Backend.ID backend))
  then Err ErrInvalidBackendID
  else
    match encryptCredentials backend with
    | Err e => Err (ErrEncryptCredentials e)
    | Ok backend' => UpsertBackend backend' s
    end.

End Register.

(** A store whose backends all came in through [Register]: every
    backend row carries an identifier that [isValidBackendID] accepts. *)
Definition registered (s : store.DB) : bool :=
  forallb (fun b => backend_id.isValidBackendID (Backend.ID b)) (store.backends s).

End registry.

(* ================================================================= *)
(** ** pkg/db/migrations/migrations.go *)

Module migrations.

(** A row of the ledger table. *)
Record migrationHistory : Type := MkHistory {
  ID : N;
  Version : Z;
  Description : string;
  AppliedAt : Z
}.

#[global] Instance migrationHistory_AutoIncrement
  : gorm.AutoIncrement migrationHistory := {|
  gorm.id_of := ID;
  gorm.with_id := fun i h => MkHistory i (Version h) (Description h) (AppliedAt h)
|}.

Section Migrator.

(** The tables a migration step works on; the ledger is kept apart from
    them, as the steps of [allMigrations] never touch it. *)
Variable Schema : Type.

Record Migration : Type := MkMigration {
  mVersion : Z;
  mDescription : string;
  Up : Schema -> result Schema;
  Down : Schema -> result Schema
}.

(** The database as the migrator sees it: the tables the steps work on,
    the ledger table [migration_histories] once it has been created, and
    the last id SQLite handed out for it.  The ledger's key is
    AUTOINCREMENT and [Rollback] removes rows from it, so SQLite keeps
    that id in [sqlite_sequence] and never hands it out again. *)
Record MDB : Type := MkMDB {
  schema : Schema;
  ledger : option (list migrationHistory);
  sequence : N
}.

(** The rows of the ledger; none while the table is missing. *)
Definition history (db : MDB) : list migrationHistory :=
  match ledger db with
  | Some rows => rows
  | None => []
  end.

(** [m.db.AutoMigrate(&migrationHistory{})]: creates the ledger table
    when it is missing and leaves an existing one alone. *)
Definition AutoMigrate (db : MDB) : MDB :=
  match ledger db with
  | Some _ => db
  | None => MkMDB (schema db) (Some []) 0
  end.

(** [appliedVersions[v]] for the map built from the ledger rows. *)
Definition appliedVersions (applied : list migrationHistory) (v : Z) : bool :=
  existsb (fun a => (Version a =? v)%Z) applied.

(** [tx.Create(&history)] with a zero [ID]: SQLite takes the id after
    the largest one it ever handed out, then tests the [uniqueIndex] of
    [Version]; [AppliedAt] is auto-filled.  The new rows and the new
    [sqlite_sequence] entry are returned. *)
Definition create_history (now : Z) (version : Z) (description : string)
  (rows : list migrationHistory) (seq : N)
  : result (list migrationHistory * N) :=
  let last := N.max seq (gorm.max_id rows) in
  if (last <? MaxInt64)%N then
    if appliedVersions rows version
    then Err (ErrUniqueConstraint "migration_histories.version")
    else Ok (rows ++ [MkHistory (last + 1) version description now], (last + 1)%N)
  else Err ErrDatabaseFull.

(** [m.db.Transaction(func(tx) ...)]: an error from the body rolls the
    transaction back, so a failed run hands back no new state. *)
Definition runMigration (now : Z) (migration : Migration) (db : MDB)
  : result MDB :=
  match Up migration (schema db) with
  | Err e => Err e
  | Ok sch =>
      match ledger db with
      | None => Err (ErrNoSuchTable "migration_histories")
      | Some rows =>
          match create_history now (mVersion migration) (mDescription migration)
                  rows (sequence db) with
          | Err e => Err e
          | Ok (rows', seq') => Ok (MkMDB sch (Some rows') seq')
          end
      end
  end.

(** The loop of [Migrate] over [m.migrations]; [applied] is the map read
    before the loop and is not refreshed inside it.  The database left
    behind is returned next to the error. *)
Fixpoint run_pending (now : Z) (applied : Z -> bool) (ms : list Migration)
  (db : MDB) : MDB * option error :=
  match ms with
  | [] => (db, None)
  | migration :: rest =>
      if applied (mVersion migration) then run_pending now applied rest db
      else
        match runMigration now migration db with
        | Err e =>
            (db, Some (ErrMigrationFailed (mVersion migration)
                         (mDescription migration) e))
        | Ok db' => run_pending now applied rest db'
        end
  end.

(** [Migrate]: [AutoMigrate] makes sure the ledger table is there, and
    its rows are read into [appliedVersions] before the loop starts. *)
Definition Migrate (now : Z) (ms : list Migration) (db : MDB)
  : MDB * option error :=
  let db := AutoMigrate db in
  run_pending now (appliedVersions (history db)) ms db.

(** A version is recorded when a row of the ledger carries it. *)
Definition recorded (db : MDB) (v : Z) : Prop := In v (map Version (history db)).

(** The migrations of the list whose version is not recorded, in list
    order: what is left to run on [db]. *)
Definition pending (ms : list Migration) (db : MDB) : list Migration :=
  filter (fun m =>
            if in_dec Z.eq_dec (mVersion m) (map Version (history db))
            then false else true) ms.

(** The steps of [ms] one after the other, each in its own transaction;
    the first failure ends the run. *)
Fixpoint steps (now : Z) (ms : list Migration) (db : MDB) : result MDB :=
  match ms with
  | [] => Ok db
  | m :: rest =>
      match runMigration now m db with
      | Ok db' => steps now rest db'
      | Err e => Err e
      end
  end.

End Migrator.

(** [allMigrations()]: one step, version 1, whose [Up] and [Down] are the
    schema's own create and drop. *)
Definition allMigrations (Schema : Type) (autoMigrate dropTable : Schema -> result Schema)
  : list (Migration Schema) :=
  [ MkMigration 1 "Initial schema creation" autoMigrate dropTable ].

End migrations.

(* ================================================================= *)
(** ** The specification's reading of the store *)

Module spec.

(** Ascending order of paths, by insertion sort on the byte order that Go
    and SQLite's BINARY collation share. *)
Fixpoint insert_by_path (f : File.t) (l : list File.t) : list File.t :=
  match l with
  | [] => [f]
  | g :: l' =>
      if String.leb (File.Path f) (File.Path g) then f :: l
      else g :: insert_by_path f l'
  end.

Definition sort_by_path (l : list File.t) : list File.t :=
  fold_right insert_by_path [] l.

(** The listing as the specification words it: the active files of the
    backend whose path starts with the prefix, by path ascending, cut to
    the slice [[offset, offset + limit)]. *)
Definition ListFiles (backendID pathPrefix : string) (limit offset : Z)
  (s : store.DB) : list File.t :=
  firstn (Z.to_nat limit)
    (skipn (Z.to_nat offset)
       (sort_by_path
          (filter (fun f => gorm.active f
                            && String.eqb (File.BackendID f) backendID
                            && String.prefix pathPrefix (File.Path f))
             (store.files s)))).

(** Paths in ascending byte order. *)
Definition by_path (f g : File.t) : Prop :=
  String.leb (File.Path f) (File.Path g) = true.

Fixpoint existsb_string (p : ascii -> bool) (s : string) : bool :=
  match s with
  | EmptyString => false
  | String c s' => p c || existsb_string p s'
  end.

(** The characters LIKE does not take literally. *)
Definition wildcard (c : ascii) : bool := Ascii.eqb c "%" || Ascii.eqb c "_".

(** A character of the class [[A-Za-z0-9_-]]. *)
Definition legal_char (c : ascii) : bool :=
  let n := N_of_ascii c in
  (((48 <=? n) && (n <=? 57)) || ((65 <=? n) && (n <=? 90))
   || ((97 <=? n) && (n <=? 122)) || (n =? 45) || (n =? 95))%N.

(** An identifier the specification has registration reject. *)
Definition illegal_identifier (id : string) : bool :=
  existsb_string (fun c => Ascii.eqb c "/") id
  || String.prefix "." id
  || existsb_string (fun c => negb (legal_char c)) id.

(** The active tag rows that hold the triple [(fileID, key, value)]. *)
Definition tag_rows (fileID : N) (key value : string) (s : store.DB) : list Tag.t :=
  gorm.Find (fun t => (Tag.FileID t =? fileID)%N
                      && String.eqb (Tag.Key t) key
                      && String.eqb (Tag.Value t) value) (store.tags s).



End spec.

(* ================================================================= *)
(** ** Sample data *)

Module sample.

Local Open Scope Z_scope.

Definition backend (id : string) : Backend.t :=
  Backend.Build id "name" "endpoint" "region" "bucket" true "ak" "sk" 0 0 None.

Definition file (backendID path : string) : File.t :=
  File.Build 0%N backendID path 0 "" "" "" 0 0 0 None.

Definition tag (fileID : N) (key value : string) : Tag.t :=
  Tag.Build 0%N fileID key value 0 0 None.

Definition view (virtualPath query : string) : Filter.t :=
  Filter.Build 0%N virtualPath "name" query "" 0 0 None.

(** One backend ["b"] holding one file ["p"]. *)
Definition stored_backend : Backend.t := Backend_on_create 1 (backend "b").

Definition stored_file : File.t :=
  gorm.with_id 1%N (File_on_create 2 (file "b" "p")).

Definition one_backend : store.DB :=
  store.MkDB [stored_backend] [] [] [].

Definition one_file : store.DB :=
  store.MkDB [stored_backend] [stored_file] [] [].

(** Backend ["b"] holding the files ["z"], ["a"] and ["m"], created in
    that order. *)
Definition stored (id : N) (path : string) : File.t :=
  gorm.with_id id (File_on_create 2 (file "b" path)).

Definition three_files : store.DB :=
  store.MkDB [stored_backend] [stored 1 "z"; stored 2 "a"; stored 3 "m"] [] [].

(** File 1 tagged [colour = red] once, and tagged so twice. *)
Definition stored_tag (id : N) (now : Time) : Tag.t :=
  gorm.with_id id (Tag_on_create now (tag 1 "colour" "red")).

Definition tagged_once : store.DB :=
  store.MkDB [stored_backend] [stored_file] [stored_tag 1 3] [].

Definition tagged_twice : store.DB :=
  store.MkDB [stored_backend] [stored_file] [stored_tag 1 3; stored_tag 2 4] [].

(** A migration step over a schema that lists the versions applied to
    it, a list of two such steps, and a database on which the first of
    them has run. *)
Definition step (v : Z) (d : string) : migrations.Migration (list Z) :=
  migrations.MkMigration v d (fun sch => Ok (sch ++ [v])) (fun sch => Ok (removelast sch)).

Definition two_steps : list (migrations.Migration (list Z)) :=
  [step 1 "one"; step 2 "two"].

Definition first_step_applied : migrations.MDB (list Z) :=
  migrations.MkMDB [1] (Some [migrations.MkHistory 1 1 "one" 5]) 1.

(** A store whose only backend was created under the identifier ["a/b"]. *)
Definition slash_backend : store.DB :=
  store.MkDB [Backend_on_create 1 (backend "a/b")] [] [] [].

End sample.

(* ================================================================= *)
(** ** pkg/db/models: SyncConfig, and its store operations *)

Module SyncConfig.
Record t : Type := Build {
  ID : N;
  Name : string;
  SourcePath : string;
  DestPath : string;
  Direction : string;
  Enabled : bool;
  Interval : Z;
  Workers : Z;
  ChunkSize : Z;
  IgnorePattern : string;
  CreatedAt : Time;
  UpdatedAt : Time;
  DeletedAt : DeletedAt
}.
End SyncConfig.

#[export] Instance SyncConfig_SoftDelete : gorm.SoftDelete SyncConfig.t := {|
  gorm.deleted_at := SyncConfig.DeletedAt;
  gorm.set_deleted_at := fun now c =>
    SyncConfig.Build (SyncConfig.ID c) (SyncConfig.Name c) (SyncConfig.SourcePath c)
      (SyncConfig.DestPath c) (SyncConfig.Direction c) (SyncConfig.Enabled c)
      (SyncConfig.Interval c) (SyncConfig.Workers c) (SyncConfig.ChunkSize c)
      (SyncConfig.IgnorePattern c) (SyncConfig.CreatedAt c) (SyncConfig.UpdatedAt c)
      (Some now)
|}.

#[export] Instance SyncConfig_AutoIncrement : gorm.AutoIncrement SyncConfig.t := {|
  gorm.id_of := SyncConfig.ID;
  gorm.with_id := fun i c =>
    SyncConfig.Build i (SyncConfig.Name c) (SyncConfig.SourcePath c)
      (SyncConfig.DestPath c) (SyncConfig.Direction c) (SyncConfig.Enabled c)
      (SyncConfig.Interval c) (SyncConfig.Workers c) (SyncConfig.ChunkSize c)
      (SyncConfig.IgnorePattern c) (SyncConfig.CreatedAt c) (SyncConfig.UpdatedAt c)
      (SyncConfig.DeletedAt c)
|}.

(** What GORM writes for a [SyncConfig] on insert: a field tagged with
    a [default] takes that default whenever it holds its zero value. *)
Definition SyncConfig_on_create (now : Time) (c : SyncConfig.t) : SyncConfig.t :=
  SyncConfig.Build (SyncConfig.ID c) (SyncConfig.Name c) (SyncConfig.SourcePath c)
    (SyncConfig.DestPath c) (SyncConfig.Direction c)
    (if SyncConfig.Enabled c then SyncConfig.Enabled c else true)
    (SyncConfig.Interval c)
    (if (SyncConfig.Workers c =? 0)%Z then 4%Z else SyncConfig.Workers c)
    (if (SyncConfig.ChunkSize c =? 0)%Z then 5242880%Z else SyncConfig.ChunkSize c)
    (SyncConfig.IgnorePattern c)
    (autoTime now (SyncConfig.CreatedAt c)) (autoTime now (SyncConfig.UpdatedAt c))
    (SyncConfig.DeletedAt c).

(** The sync operations of [SQLiteStore] work on the table
    [sync_configs] alone, which is kept here beside [store.DB]. *)
Module syncstore.

Definition config_lt (a b : SyncConfig.t) : bool :=
  (SyncConfig.ID a <? SyncConfig.ID b)%N.

(** [s.db.Create(config)]: [Name] carries a [uniqueIndex], which SQLite
    tests once the row id is settled. *)
Definition CreateSyncConfig (now : Time) (config : SyncConfig.t)
  (rows : list SyncConfig.t) : result (SyncConfig.t * list SyncConfig.t) :=
  match gorm.Create (SyncConfig_on_create now config) rows with
  | Ok (row, rows') =>
      if existsb (fun c => String.eqb (SyncConfig.Name c) (SyncConfig.Name config)) rows
      then Err (ErrUniqueConstraint "sync_configs.name")
      else Ok (row, rows')
  | Err e => Err e
  end.

(** [s.db.Where("name = ?", name).First(&config)] *)
Definition GetSyncConfig (name : string) (rows : list SyncConfig.t)
  : result SyncConfig.t :=
  gorm.First config_lt (fun c => String.eqb (SyncConfig.Name c) name) rows.

(** [s.db.Find(&configs)] *)
Definition ListSyncConfigs (rows : list SyncConfig.t) : result (list SyncConfig.t) :=
  Ok (gorm.Find (fun _ => true) rows).

(** [s.db.Delete(&models.SyncConfig{}, id)] *)
Definition DeleteSyncConfig (now : Time) (id : N) (rows : list SyncConfig.t)
  : result (list SyncConfig.t) :=
  Ok (gorm.Delete now (fun c => (SyncConfig.ID c =? id)%N) rows).

End syncstore.

(* ================================================================= *)
(** ** pkg/db/migrations: Status and Rollback *)

Module migrator.

Record MigrationStatus : Type := MkStatus {
  Version : Z;
  Description : string;
  Applied : bool
}.

(** What [Rollback] comes back with. *)
Inductive outcome (DB : Type) : Type :=
| RolledBack (db : DB)
| NoMigrations
| MigrationNotFound (version : Z)
| RollbackFailed (cause : error)
| HistoryNotUpdated (db : DB).

Arguments RolledBack {DB} db.
Arguments NoMigrations {DB}.
Arguments MigrationNotFound {DB} version.
Arguments RollbackFailed {DB} cause.
Arguments HistoryNotUpdated {DB} db.

Section Migrator.

Variable Schema : Type.

(** [Migrator.Status]: one entry per migration of the list, in order.
    The ledger is read without [AutoMigrate], so the query fails while
    the table is missing. *)
Definition Status (ms : list (migrations.Migration Schema))
  (db : migrations.MDB Schema) : result (list MigrationStatus) :=
  match migrations.ledger db with
  | None => Err (ErrQueryHistory (ErrNoSuchTable "migration_histories"))
  | Some applied =>
      Ok (map (fun m => MkStatus (migrations.mVersion m) (migrations.mDescription m)
                          (migrations.appliedVersions applied (migrations.mVersion m)))
            ms)
  end.

(** The order of [Order("version DESC").First(&last)]: larger versions
    first, and the primary key among equal versions. *)
Definition later (a b : migrations.migrationHistory) : bool :=
  (migrations.Version b <? migrations.Version a)%Z
  || ((migrations.Version a =? migrations.Version b)%Z
      && (migrations.ID a <? migrations.ID b)%N).

(** The loop of [Rollback] over [m.migrations]: the first migration of
    the version. *)
Fixpoint find_migration (version : Z) (ms : list (migrations.Migration Schema))
  : option (migrations.Migration Schema) :=
  match ms with
  | [] => None
  | m :: rest =>
      if (migrations.mVersion m =? version)%Z then Some m
      else find_migration version rest
  end.

(** [Migrator.Rollback].  The lookup of the last row fails on an empty
    ledger and on a missing one alike.  [Down] and the ledger delete are
    two separate statements, not one transaction: when [Down] fails the
    ledger is as it was and the schema is whatever [Down] left.
    [m.db.Delete(&last)] deletes by primary key and refuses a row whose
    key is zero, for want of a WHERE clause.  The delete leaves
    [sqlite_sequence] alone. *)
Definition Rollback (ms : list (migrations.Migration Schema))
  (db : migrations.MDB Schema) : outcome (migrations.MDB Schema) :=
  match gorm.least later (migrations.history db) with
  | None => NoMigrations
  | Some last =>
      match find_migration (migrations.Version last) ms with
      | None => MigrationNotFound (migrations.Version last)
      | Some migration =>
          match migrations.Down migration (migrations.schema db) with
          | Err e => RollbackFailed e
          | Ok sch =>
              if (migrations.ID last =? 0)%N
              then HistoryNotUpdated
                     (migrations.MkMDB sch (migrations.ledger db)
                        (migrations.sequence db))
              else RolledBack
                     (migrations.MkMDB sch
                        (Some (filter (fun h => negb (migrations.ID h =? migrations.ID last)%N)
                                 (migrations.history db)))
                        (migrations.sequence db))
          end
      end
  end.

(** What the primary key and the unique index of the ledger enforce. *)
Definition ledger_ok (db : migrations.MDB Schema) : Prop :=
  NoDup (map migrations.ID (migrations.history db))
  /\ NoDup (map migrations.Version (migrations.history db)).

End Migrator.

End migrator.

(* ================================================================= *)
(** ** Reading aids for the properties *)

Module text.

(** [s] with its ASCII capitals folded to lower case. *)
Fixpoint fold_case (s : string) : string :=
  match s with
  | EmptyString => EmptyString
  | String c s' => String (sqlite3.tolower c) (fold_case s')
  end.

End text.

(* ================================================================= *)
(** * Properties *)

Unset Implicit Arguments.
Local Open Scope Z_scope.

(** ** LIKE against a prefix pattern *)

Lemma char_suffixes_end (skipping : bool) (s : string) :
  In EmptyString (sqlite3.char_suffixes skipping s).
Proof.
  revert skipping; induction s as [|c s IH]; intros skipping; simpl.
  - now left.
  - destruct (skipping && sqlite3.is_cont c); [apply IH | right; apply IH].
Qed.

Lemma char_suffixes_whole (s : string) :
  In s (sqlite3.char_suffixes false s).
Proof. destruct s; simpl; now left. Qed.

Lemma same_nocase_refl (c : ascii) : sqlite3.same_nocase c c = true.
Proof. unfold sqlite3.same_nocase; now rewrite Ascii.eqb_refl. Qed.

(** A pattern [q%] matches every string that starts with [q], also when
    [q] itself holds wildcards. *)
Lemma like_prefix (q rest : string) :
  sqlite3.like (q ++ rest) (q ++ "%") = true.
Proof.
  unfold sqlite3.like.
  induction q as [|c q IH]; simpl.
  - apply existsb_exists. exists EmptyString. split; [apply char_suffixes_end | reflexivity].
  - destruct (Ascii.eqb c "%") eqn:Epct.
    + apply Ascii.eqb_eq in Epct; subst c.
      apply orb_true_iff; right.
      apply existsb_exists. exists (q ++ rest)%string. split; [|exact IH].
      change (sqlite3.is_lead "%") with false. apply char_suffixes_whole.
    + destruct (Ascii.eqb c "_") eqn:Eone.
      * apply Ascii.eqb_eq in Eone; subst c. simpl. exact IH.
      * now rewrite same_nocase_refl, IH.
Qed.

Lemma prefix_append (q p : string) :
  String.prefix q p = true -> exists rest, p = (q ++ rest)%string.
Proof.
  revert p; induction q as [|c q IH]; intros p Hp.
  - now exists p.
  - destruct p as [|d p]; simpl in Hp; [discriminate|].
    destruct (ascii_dec c d) as [->|]; [|discriminate].
    destruct (IH _ Hp) as [rest ->]. now exists rest.
Qed.

(** The WHERE clause of [ListFiles] keeps every file of the backend whose
    path starts with the prefix. *)
Lemma ListFiles_where_prefix (B Q : string) (f : File.t) :
  File.BackendID f = B -> String.prefix Q (File.Path f) = true ->
  store.ListFiles_where B Q f = true.
Proof.
  intros HB HQ. unfold store.ListFiles_where.
  rewrite HB, String.eqb_refl. simpl.
  destruct (String.eqb Q "") eqn:E; [reflexivity|].
  destruct (prefix_append _ _ HQ) as [rest ->]. apply like_prefix.
Qed.

(** The pattern is looser than the prefix test: it folds ASCII case and
    reads [_] and [%] inside the prefix as wildcards. *)
Example like_is_not_prefix :
  sqlite3.like "pictures/a.jpg" ("Pic" ++ "%") = true
  /\ String.prefix "Pic" "pictures/a.jpg" = false
  /\ sqlite3.like "abc" ("a_" ++ "%") = true
  /\ String.prefix "a_" "abc" = false.
Proof. repeat split; reflexivity. Qed.

Lemma same_nocase_tolower (c c2 : ascii) :
  sqlite3.same_nocase c c2 = true -> sqlite3.tolower c = sqlite3.tolower c2.
Proof.
  unfold sqlite3.same_nocase. intros E. apply orb_true_iff in E.
  destruct E as [E|E].
  - apply Ascii.eqb_eq in E. now subst.
  - apply andb_true_iff in E. destruct E as [E _].
    apply andb_true_iff in E. destruct E as [E _]. now apply Ascii.eqb_eq in E.
Qed.

(** A pattern [q%] whose [q] holds no wildcard matches only strings that
    start with [q] up to the case of ASCII letters. *)
Lemma like_plain_prefix (q x : string) :
  spec.existsb_string spec.wildcard q = false ->
  sqlite3.like x (q ++ "%") = true ->
  exists q' rest, x = (q' ++ rest)%string /\ text.fold_case q' = text.fold_case q.
Proof.
  unfold sqlite3.like. revert x.
  induction q as [|c q IH]; intros x Hq Hx.
  - exists EmptyString, x. split; reflexivity.
  - simpl in Hq. apply orb_false_iff in Hq. destruct Hq as [Hc Hq].
    unfold spec.wildcard in Hc. apply orb_false_iff in Hc. destruct Hc as [Hpct Hone].
    cbn [String.append sqlite3.patternCompare] in Hx. rewrite Hpct, Hone in Hx.
    destruct x as [|d x]; [discriminate|].
    apply andb_true_iff in Hx. destruct Hx as [Hcd Hx].
    destruct (IH x Hq Hx) as (q' & rest & -> & Hfold).
    exists (String d q'), rest. split; [reflexivity|].
    simpl. rewrite Hfold. f_equal. symmetry. now apply same_nocase_tolower.
Qed.

(** ** Rows of a soft-delete table *)

Lemma active_true {R} `{gorm.SoftDelete R} (r : R) :
  gorm.active r = true <-> gorm.deleted_at r = None.
Proof. unfold gorm.active; destruct (gorm.deleted_at r); split; congruence. Qed.

Lemma Find_In {R} `{gorm.SoftDelete R} (cond : R -> bool) (rows : list R) (r : R) :
  In r (gorm.Find cond rows) <->
  In r rows /\ gorm.deleted_at r = None /\ cond r = true.
Proof.
  unfold gorm.Find. rewrite filter_In, andb_true_iff, active_true. tauto.
Qed.

Lemma least_In {R} (lt : R -> R -> bool) (rows : list R) (r : R) :
  gorm.least lt rows = Some r -> In r rows.
Proof.
  revert r; induction rows as [|x rows IH]; simpl; intros r Hr; [discriminate|].
  destruct (gorm.least lt rows) as [m|].
  - injection Hr as <-. destruct (lt m x); [right; now apply IH | now left].
  - injection Hr as <-. now left.
Qed.

Lemma least_None {R} (lt : R -> R -> bool) (rows : list R) :
  gorm.least lt rows = None <-> rows = [].
Proof.
  destruct rows as [|x rows]; simpl; [tauto|].
  destruct (gorm.least lt rows); split; discriminate.
Qed.

(** [First] answers with a matching active row when there is one and with
    [ErrRecordNotFound] otherwise. *)
Lemma First_Ok {R} `{gorm.SoftDelete R} lt (cond : R -> bool) rows (r : R) :
  gorm.First lt cond rows = Ok r ->
  In r rows /\ gorm.deleted_at r = None /\ cond r = true.
Proof.
  unfold gorm.First. destruct (gorm.least lt (gorm.Find cond rows)) eqn:E; [|discriminate].
  intros [= <-]. apply Find_In. eapply least_In; eauto.
Qed.

Lemma First_Err {R} `{gorm.SoftDelete R} lt (cond : R -> bool) rows e :
  gorm.First lt cond rows = Err e ->
  e = ErrRecordNotFound /\
  forall r, In r rows -> gorm.deleted_at r = None -> cond r = false.
Proof.
  unfold gorm.First. destruct (gorm.least lt (gorm.Find cond rows)) eqn:E; [discriminate|].
  intros [= <-]. split; [reflexivity|]. intros r Hin Hact.
  apply least_None in E. destruct (cond r) eqn:Ec; [|reflexivity].
  assert (Hr : In r (gorm.Find cond rows)) by (apply Find_In; auto).
  rewrite E in Hr. destruct Hr.
Qed.

Lemma First_total {R} `{gorm.SoftDelete R} lt (cond : R -> bool) rows (r : R) :
  In r rows -> gorm.deleted_at r = None -> cond r = true ->
  exists r', gorm.First lt cond rows = Ok r'.
Proof.
  intros Hin Hact Hc. destruct (gorm.First lt cond rows) as [r'|e] eqn:E; [eauto|].
  apply First_Err in E. destruct E as [_ E]. rewrite (E r Hin Hact) in Hc. discriminate.
Qed.

(** ** The order of [idx_backend_path] *)

Lemma String_compare_refl (a : string) : String.compare a a = Eq.
Proof.
  induction a as [|c a IH]; simpl; [reflexivity|].
  unfold Ascii.compare. now rewrite N.compare_refl.
Qed.

Lemma String_leb_trans (a b c : string) :
  String.leb a b = true -> String.leb b c = true -> String.leb a c = true.
Proof.
  unfold String.leb. revert b c.
  induction a as [|x a IH]; intros [|y b] [|z c]; simpl; try congruence.
  unfold Ascii.compare.
  destruct (N.compare_spec (N_of_ascii x) (N_of_ascii y)) as [Exy|Lxy|Gxy];
    destruct (N.compare_spec (N_of_ascii y) (N_of_ascii z)) as [Eyz|Lyz|Gyz];
    destruct (N.compare_spec (N_of_ascii x) (N_of_ascii z)) as [Exz|Lxz|Gxz];
    try congruence; try lia.
  apply IH.
Qed.

Lemma by_path_transitive : Relations_1.Transitive spec.by_path.
Proof. intros a b c. unfold spec.by_path. apply String_leb_trans. Qed.

Lemma idx_backend_path_le_by_path (a b : File.t) :
  store.idx_backend_path_le a b = true -> spec.by_path a b.
Proof.
  unfold store.idx_backend_path_le, spec.by_path, String.leb.
  destruct (String.compare (File.Path a) (File.Path b)); congruence.
Qed.

Lemma idx_backend_path_le_total (a b : File.t) :
  store.idx_backend_path_le a b = false -> store.idx_backend_path_le b a = true.
Proof.
  unfold store.idx_backend_path_le.
  rewrite (String.compare_antisym (File.Path b) (File.Path a)).
  destruct (String.compare (File.Path a) (File.Path b)); simpl;
    try congruence.
  intros E. apply N.leb_gt in E. apply N.leb_le. lia.
Qed.

Lemma idx_insert_perm (f : File.t) (rows : list File.t) :
  Permutation (store.idx_insert f rows) (f :: rows).
Proof.
  induction rows as [|x rows IH]; simpl; [reflexivity|].
  destruct (store.idx_backend_path_le f x); [reflexivity|].
  rewrite IH. apply perm_swap.
Qed.

Lemma idx_backend_path_perm (rows : list File.t) :
  Permutation (store.idx_backend_path rows) rows.
Proof.
  induction rows as [|x rows IH]; simpl; [reflexivity|].
  rewrite idx_insert_perm. now constructor.
Qed.

Lemma idx_backend_path_In (rows : list File.t) (f : File.t) :
  In f (store.idx_backend_path rows) <-> In f rows.
Proof.
  split; apply Permutation_in;
    [apply idx_backend_path_perm | symmetry; apply idx_backend_path_perm].
Qed.

Lemma idx_insert_sorted (f : File.t) (rows : list File.t) :
  Sorted (fun a b => store.idx_backend_path_le a b = true) rows ->
  Sorted (fun a b => store.idx_backend_path_le a b = true) (store.idx_insert f rows).
Proof.
  induction rows as [|x rows IH]; simpl; intros Hs.
  - repeat constructor.
  - destruct (store.idx_backend_path_le f x) eqn:E.
    + constructor; [assumption | now constructor].
    + inversion Hs as [|? ? Hs' Hhd]; subst. constructor; [now apply IH|].
      destruct rows as [|y rows]; simpl.
      * constructor. now apply idx_backend_path_le_total.
      * destruct (store.idx_backend_path_le f y).
        -- constructor. now apply idx_backend_path_le_total.
        -- constructor. now inversion Hhd.
Qed.

(** The listing comes in ascending order of path. *)
Lemma idx_backend_path_sorted (rows : list File.t) :
  StronglySorted spec.by_path (store.idx_backend_path rows).
Proof.
  apply Sorted_StronglySorted; [exact by_path_transitive|].
  assert (Hs : Sorted (fun a b => store.idx_backend_path_le a b = true)
                 (store.idx_backend_path rows)).
  { induction rows as [|x rows IH]; simpl; [constructor | now apply idx_insert_sorted]. }
  induction Hs as [|a l Hs IH Hhd]; constructor; [assumption|].
  destruct Hhd; constructor. now apply idx_backend_path_le_by_path.
Qed.

(** A list that is already in index order is left as it is. *)
Lemma idx_backend_path_nil : store.idx_backend_path [] = [].
Proof. reflexivity. Qed.

(** ** ListFiles *)

(** The rows [ListFiles] selects before any paging. *)
Lemma ListFiles_where_In (s : store.DB) (B Q : string) (f : File.t) :
  In f (gorm.Find (store.ListFiles_where B Q) (store.files s)) <->
  In f (store.files s) /\ File.DeletedAt f = None /\ File.BackendID f = B
  /\ (Q = EmptyString \/ sqlite3.like (File.Path f) (Q ++ "%") = true).
Proof.
  rewrite Find_In. unfold store.ListFiles_where.
  rewrite andb_true_iff, String.eqb_eq. simpl.
  destruct (String.eqb Q "") eqn:E.
  - apply String.eqb_eq in E. tauto.
  - apply String.eqb_neq in E. intuition congruence.
Qed.

(** What the unpaged listing holds: the selected rows, each as often as
    the table has it, by ascending path; every file under the prefix is
    among them, and for a prefix without wildcards nothing else is, up
    to the case of ASCII letters. *)
Lemma ListFiles_listing (s : store.DB) (B Q : string) :
  let all :=
    store.idx_backend_path (gorm.Find (store.ListFiles_where B Q) (store.files s)) in
  Permutation all
    (filter (fun f =>
               match File.DeletedAt f with None => true | Some _ => false end
               && (String.eqb (File.BackendID f) B
                   && (if String.eqb Q "" then true
                       else sqlite3.like (File.Path f) (Q ++ "%"))))
       (store.files s))
  /\ StronglySorted spec.by_path all
  /\ (forall f, In f (store.files s) -> File.DeletedAt f = None ->
                File.BackendID f = B -> String.prefix Q (File.Path f) = true ->
                In f all)
  /\ (forall f, In f all ->
                In f (store.files s) /\ File.DeletedAt f = None
                /\ File.BackendID f = B
                /\ (Q = EmptyString \/ sqlite3.like (File.Path f) (Q ++ "%") = true))
  /\ (spec.existsb_string spec.wildcard Q = false ->
      forall f, In f all ->
                exists q rest, File.Path f = (q ++ rest)%string
                               /\ text.fold_case q = text.fold_case Q).
Proof.
  intros all. split; [|split; [|split; [|split]]].
  - apply idx_backend_path_perm.
  - apply idx_backend_path_sorted.
  - intros f Hin Hact HB HQ. apply idx_backend_path_In, Find_In. repeat split; auto.
    now apply ListFiles_where_prefix.
  - intros f Hf. now apply idx_backend_path_In, ListFiles_where_In in Hf.
  - intros HQ f Hf. apply idx_backend_path_In, ListFiles_where_In in Hf.
    destruct Hf as (_ & _ & _ & [->|Hlike]).
    + exists EmptyString, (File.Path f). split; reflexivity.
    + now apply like_plain_prefix.
Qed.

Lemma ListFiles_paging (s : store.DB) (B Q : string) (limit offset : Z) :
  store.ListFiles B Q limit offset s
  = Ok (let all := store.idx_backend_path
                     (gorm.Find (store.ListFiles_where B Q) (store.files s)) in
        let rows := if (0 <? offset)%Z then skipn (Z.to_nat offset) all else all in
        if (0 <? limit)%Z then firstn (Z.to_nat limit) rows else rows).
Proof. reflexivity. Qed.

(** C10: a limit that is not positive applies no limit and an offset that
    is not positive applies no offset: the result is then the whole
    listing of the active files of [B] whose path matches [Q%], every
    file under the prefix among them, by ascending path.  Either
    parameter is dropped on its own as well, and [ListFiles(B, "", 0, 0)]
    is every active file of [B]. *)
Theorem ListFiles_nonpositive_paging
  (s : store.DB) (B Q : string) (limit offset : Z) :
  (limit <= 0)%Z -> (offset <= 0)%Z ->
  exists all : list File.t,
    store.ListFiles B Q limit offset s = Ok all
    /\ Permutation all
         (filter (fun f =>
                    match File.DeletedAt f with None => true | Some _ => false end
                    && (String.eqb (File.BackendID f) B
                        && (if String.eqb Q "" then true
                            else sqlite3.like (File.Path f) (Q ++ "%"))))
            (store.files s))
    /\ StronglySorted spec.by_path all
    /\ (forall f, In f (store.files s) -> File.DeletedAt f = None ->
                  File.BackendID f = B -> String.prefix Q (File.Path f) = true ->
                  In f all)
    /\ (forall f, In f all ->
                  In f (store.files s) /\ File.DeletedAt f = None
                  /\ File.BackendID f = B
                  /\ (Q = EmptyString \/ sqlite3.like (File.Path f) (Q ++ "%") = true))
    /\ (spec.existsb_string spec.wildcard Q = false ->
        forall f, In f all ->
                  exists q rest, File.Path f = (q ++ rest)%string
                                 /\ text.fold_case q = text.fold_case Q)
    /\ (forall o, store.ListFiles B Q limit o s = Ok (skipn (Z.to_nat o) all))
    /\ (forall l, (0 < l)%Z ->
                  store.ListFiles B Q l offset s = Ok (firstn (Z.to_nat l) all))
    /\ exists every : list File.t,
         store.ListFiles B "" 0 0 s = Ok every
         /\ Permutation every
              (filter (fun f =>
                         match File.DeletedAt f with None => true | Some _ => false end
                         && String.eqb (File.BackendID f) B)
                 (store.files s))
         /\ StronglySorted spec.by_path every
         /\ (forall f, In f every <->
                       In f (store.files s) /\ File.DeletedAt f = None
                       /\ File.BackendID f = B).
Proof.
  intros Hl Ho.
  assert (El : (0 <? limit)%Z = false) by (apply Z.ltb_ge; lia).
  assert (Eo : (0 <? offset)%Z = false) by (apply Z.ltb_ge; lia).
  destruct (ListFiles_listing s B Q) as (Hperm & Hsort & Hcomplete & Hsound & Hplain).
  eexists. split; [rewrite ListFiles_paging; cbv zeta; rewrite El, Eo; reflexivity|].
  split; [exact Hperm|]. split; [exact Hsort|]. split; [exact Hcomplete|].
  split; [exact Hsound|]. split; [exact Hplain|]. split; [|split].
  - intros o. rewrite ListFiles_paging. cbv zeta. rewrite El.
    destruct (0 <? o)%Z eqn:E; [reflexivity|].
    apply Z.ltb_ge in E. replace (Z.to_nat o) with 0%nat by lia. reflexivity.
  - intros l Hpos. rewrite ListFiles_paging. cbv zeta. rewrite Eo.
    apply Z.ltb_lt in Hpos. now rewrite Hpos.
  - destruct (ListFiles_listing s B "") as (Hperm0 & Hsort0 & _ & Hsound0 & _).
    eexists. split; [reflexivity|]. split; [|split; [exact Hsort0|]].
    + etransitivity; [exact Hperm0|]. apply Permutation_refl'.
      apply filter_ext. intros f. simpl. now rewrite andb_true_r.
    + intros f. split.
      * intros Hf. apply Hsound0 in Hf. tauto.
      * intros (Hin & Hact & HB).
        apply idx_backend_path_In, ListFiles_where_In. auto.
Qed.

Lemma ListFiles_nonpositive_paging_witness :
  store.ListFiles "b" "" (-1) 0 sample.three_files
  = Ok [sample.stored 2 "a"; sample.stored 3 "m"; sample.stored 1 "z"]
  /\ store.ListFiles "b" "" 2 0 sample.three_files
     = Ok [sample.stored 2 "a"; sample.stored 3 "m"].
Proof.
  destruct (ListFiles_nonpositive_paging sample.three_files "b" "" (-1) 0)
    as (all & H & _ & _ & _ & _ & _ & _ & Hlimit & _); [lia | lia |].
  specialize (Hlimit 2 ltac:(lia)).
  assert (E := H). vm_compute in E. injection E as <-.
  split; [exact H | exact Hlimit].
Defined.

(** C3, as the code has it: with a positive limit and an offset that is
    not negative, [ListFiles] is the slice [[O, O + L)] of the unpaged
    listing [ListFiles(B, Q, 0, 0)].  That listing holds the active files
    of [B] whose path matches the LIKE pattern [Q%], each once per row,
    ordered by path ascending; every file whose path starts with [Q] is
    among them, and when [Q] holds no wildcard every listed path starts
    with [Q] up to the case of ASCII letters. *)
Theorem ListFiles_window (s : store.DB) (B Q : string) (L O : Z) :
  (0 < L)%Z -> (0 <= O)%Z ->
  exists all : list File.t,
    store.ListFiles B Q 0 0 s = Ok all
    /\ store.ListFiles B Q L O s = Ok (firstn (Z.to_nat L) (skipn (Z.to_nat O) all))
    /\ Permutation all
         (filter (fun f =>
                    match File.DeletedAt f with None => true | Some _ => false end
                    && (String.eqb (File.BackendID f) B
                        && (if String.eqb Q "" then true
                            else sqlite3.like (File.Path f) (Q ++ "%"))))
            (store.files s))
    /\ StronglySorted spec.by_path all
    /\ (forall f, In f (store.files s) -> File.DeletedAt f = None ->
                  File.BackendID f = B -> String.prefix Q (File.Path f) = true ->
                  In f all)
    /\ (forall f, In f all ->
                  In f (store.files s) /\ File.DeletedAt f = None
                  /\ File.BackendID f = B
                  /\ (Q = EmptyString \/ sqlite3.like (File.Path f) (Q ++ "%") = true))
    /\ (spec.existsb_string spec.wildcard Q = false ->
        forall f, In f all ->
                  exists q rest, File.Path f = (q ++ rest)%string
                                 /\ text.fold_case q = text.fold_case Q).
Proof.
  intros HL HO.
  destruct (ListFiles_listing s B Q) as (Hperm & Hsort & Hcomplete & Hsound & Hplain).
  eexists. split; [reflexivity|].
  split; [|split; [exact Hperm|split; [exact Hsort|split; [exact Hcomplete|
           split; [exact Hsound|exact Hplain]]]]].
  rewrite ListFiles_paging. cbv zeta. apply Z.ltb_lt in HL. rewrite HL.
  destruct (0 <? O)%Z eqn:E; [reflexivity|].
  apply Z.ltb_ge in E. replace O with 0%Z by lia. reflexivity.
Qed.

Lemma ListFiles_window_witness :
  store.ListFiles "b" "" 1 1 sample.three_files = Ok [sample.stored 3 "m"].
Proof.
  destruct (ListFiles_window sample.three_files "b" "" 1 1) as (all & H0 & H & _);
    [lia | lia |].
  vm_compute in H0. injection H0 as <-. exact H.
Defined.

(** C3 as stated fails at limit 0: the slice [[0, 0)] is empty, but the
    code reads a zero limit as no limit.  It also fails at a positive
    limit: the prefix ["P"] lists the file ["p"], whose path does not
    start with it, because LIKE folds the case of ASCII letters. *)
Lemma ListFiles_zero_limit_counterexample :
  ~ (forall (s : store.DB) (B Q : string) (L O : Z),
        (0 <= L)%Z -> (0 <= O)%Z ->
        store.ListFiles B Q L O s = Ok (spec.ListFiles B Q L O s))
  /\ ~ (forall (s : store.DB) (B Q : string) (L O : Z),
          (0 < L)%Z -> (0 <= O)%Z ->
          store.ListFiles B Q L O s = Ok (spec.ListFiles B Q L O s)).
Proof.
  split.
  - intros H. specialize (H sample.one_file "b"%string ""%string 0%Z 0%Z).
    cbv in H. assert (H' := H ltac:(discriminate) ltac:(discriminate)).
    discriminate H'.
  - intros H. specialize (H sample.one_file "b"%string "P"%string 1%Z 0%Z).
    cbv in H. assert (H' := H eq_refl ltac:(discriminate)).
    discriminate H'.
Qed.

(** ** Inserting rows *)

Lemma existsb_false_forall {A} (p : A -> bool) (l : list A) :
  existsb p l = false <-> forall x, In x l -> p x = false.
Proof.
  induction l as [|a l IH]; simpl.
  - split; [intros _ x [] | reflexivity].
  - rewrite orb_false_iff, IH. split.
    + intros [Ha Hl] x [<-|Hin]; auto.
    + intros Hall. split; [apply Hall; now left | intros x Hin; apply Hall; now right].
Qed.

Lemma max_id_app {R} `{gorm.AutoIncrement R} (rows rows' : list R) :
  gorm.max_id (rows ++ rows') = N.max (gorm.max_id rows) (gorm.max_id rows').
Proof.
  unfold gorm.max_id. induction rows as [|r rows IH]; simpl.
  - now rewrite N.max_0_l.
  - rewrite IH. now rewrite N.max_assoc.
Qed.

Lemma max_id_ge {R} `{gorm.AutoIncrement R} (rows : list R) (r : R) :
  In r rows -> (gorm.id_of r <= gorm.max_id rows)%N.
Proof.
  unfold gorm.max_id. induction rows as [|x rows IH]; simpl; [tauto|].
  intros [->|Hin]; [lia|]. specialize (IH Hin). lia.
Qed.

(** An insert with the id left at zero takes the id after the largest. *)
Lemma Create_auto {R} `{gorm.AutoIncrement R} (r : R) (rows : list R) :
  gorm.id_of r = 0%N -> (gorm.max_id rows < MaxInt64)%N ->
  gorm.Create r rows
  = Ok (gorm.with_id (gorm.max_id rows + 1)%N r,
        rows ++ [gorm.with_id (gorm.max_id rows + 1)%N r]).
Proof.
  intros Hid Hroom. unfold gorm.Create.
  rewrite Hid. simpl. apply N.ltb_lt in Hroom. now rewrite Hroom.
Qed.

Lemma insert_by_id_split {R} `{gorm.AutoIncrement R} (r : R) (rows : list R) :
  exists l1 l2, rows = l1 ++ l2 /\ gorm.insert_by_id r rows = l1 ++ r :: l2.
Proof.
  induction rows as [|x rows IH]; simpl.
  - exists [], []. auto.
  - destruct (gorm.id_of r <? gorm.id_of x)%N.
    + exists [], (x :: rows). auto.
    + destruct IH as (l1 & l2 & E1 & E2). exists (x :: l1), l2.
      simpl. split; congruence.
Qed.

(** What a successful [Create] does: the row goes to one place of the
    table, the last one when SQLite picks the id; it is the row handed
    in, up to that id; and its id is a usable one that no other row
    has. *)
Lemma Create_shape {R} `{gorm.AutoIncrement R}
  (law : forall i (r : R), gorm.id_of (gorm.with_id i r) = i)
  (r r' : R) (rows rows' : list R) :
  gorm.Create r rows = Ok (r', rows') ->
  (exists l1 l2, rows = l1 ++ l2 /\ rows' = l1 ++ r' :: l2
                 /\ (gorm.id_of r = 0%N -> l2 = []))
  /\ (r' = r \/ r' = gorm.with_id (gorm.max_id rows + 1)%N r)
  /\ gorm.id_of r' <> 0%N
  /\ (gorm.id_of r' <= MaxInt64)%N
  /\ (forall x, In x rows -> gorm.id_of x <> gorm.id_of r')
  /\ (gorm.id_of r = 0%N -> forall x, In x rows -> (gorm.id_of x < gorm.id_of r')%N).
Proof.
  unfold gorm.Create. destruct (gorm.id_of r =? 0)%N eqn:E0.
  - destruct (gorm.max_id rows <? MaxInt64)%N eqn:Em; [|discriminate].
    intros [= <- <-]. apply N.ltb_lt in Em. rewrite law.
    split; [exists rows, []; rewrite app_nil_r; auto|].
    repeat split; auto; try lia.
    + intros x Hx. pose proof (max_id_ge rows x Hx). lia.
    + intros _ x Hx. pose proof (max_id_ge rows x Hx). lia.
  - destruct (MaxInt64 <? gorm.id_of r)%N eqn:Em; [discriminate|].
    destruct (gorm.has_id (gorm.id_of r) rows) eqn:Eh; [discriminate|].
    intros [= <- <-]. apply N.eqb_neq in E0. apply N.ltb_ge in Em.
    split.
    { destruct (insert_by_id_split r rows) as (l1 & l2 & E1 & E2).
      exists l1, l2. repeat split; auto. intros Hz. contradiction. }
    repeat split; auto.
    + intros x Hx. unfold gorm.has_id in Eh. rewrite existsb_false_forall in Eh.
      apply N.eqb_neq. now apply Eh.
    + intros Hz. contradiction.
Qed.

Lemma CreateTag_auto (now : Time) (tag : Tag.t) (s : store.DB) :
  Tag.ID tag = 0%N -> (gorm.max_id (store.tags s) < MaxInt64)%N ->
  let row := gorm.with_id (gorm.max_id (store.tags s) + 1)%N (Tag_on_create now tag) in
  store.CreateTag now tag s
  = Ok (row, store.MkDB (store.backends s) (store.files s)
               (store.tags s ++ [row]) (store.filters s)).
Proof.
  intros Hid Hroom. unfold store.CreateTag.
  rewrite Create_auto; auto.
Qed.

(** ** Tags *)

(** C1, as the code has it: [CreateTag] is a plain insert.  Called twice
    with the same triple and the id left unset, both calls succeed and the
    store holds two more active rows for the triple, under two ids. *)
Theorem CreateTag_twice_two_rows
  (s : store.DB) (now1 now2 : Time) (tag : Tag.t) :
  Tag.ID tag = 0%N -> Tag.DeletedAt tag = None ->
  (gorm.max_id (store.tags s) + 1 < MaxInt64)%N ->
  exists t1 s1 t2 s2,
    store.CreateTag now1 tag s = Ok (t1, s1)
    /\ store.CreateTag now2 tag s1 = Ok (t2, s2)
    /\ Tag.ID t1 <> Tag.ID t2
    /\ spec.tag_rows (Tag.FileID tag) (Tag.Key tag) (Tag.Value tag) s2
       = spec.tag_rows (Tag.FileID tag) (Tag.Key tag) (Tag.Value tag) s ++ [t1; t2]
    /\ List.length (spec.tag_rows (Tag.FileID tag) (Tag.Key tag) (Tag.Value tag) s2)
       = (List.length (spec.tag_rows (Tag.FileID tag) (Tag.Key tag) (Tag.Value tag) s) + 2)%nat.
Proof.
  intros Hid Hact Hroom.
  set (m := gorm.max_id (store.tags s)) in *.
  set (t1 := gorm.with_id (m + 1)%N (Tag_on_create now1 tag)).
  set (s1 := store.MkDB (store.backends s) (store.files s)
               (store.tags s ++ [t1]) (store.filters s)).
  assert (Hm1 : gorm.max_id (store.tags s1) = (m + 1)%N).
  { simpl. rewrite max_id_app. fold m. unfold gorm.max_id. simpl. lia. }
  set (t2 := gorm.with_id (m + 1 + 1)%N (Tag_on_create now2 tag)).
  set (s2 := store.MkDB (store.backends s1) (store.files s1)
               (store.tags s1 ++ [t2]) (store.filters s1)).
  assert (E1 : store.CreateTag now1 tag s = Ok (t1, s1)).
  { apply CreateTag_auto; [exact Hid | fold m; lia]. }
  assert (E2 : store.CreateTag now2 tag s1 = Ok (t2, s2)).
  { assert (Hroom1 : (gorm.max_id (store.tags s1) < MaxInt64)%N) by (rewrite Hm1; lia).
    pose proof (CreateTag_auto now2 tag s1 Hid Hroom1) as E. cbv zeta in E.
    rewrite Hm1 in E. exact E. }
  assert (Erows : spec.tag_rows (Tag.FileID tag) (Tag.Key tag) (Tag.Value tag) s2
                  = spec.tag_rows (Tag.FileID tag) (Tag.Key tag) (Tag.Value tag) s
                    ++ [t1; t2]).
  { unfold spec.tag_rows, gorm.Find. simpl.
    rewrite <- app_assoc, filter_app. f_equal. simpl.
    unfold gorm.active. simpl. rewrite Hact.
    now rewrite N.eqb_refl, !String.eqb_refl. }
  exists t1, s1, t2, s2. repeat split; auto.
  - simpl. lia.
  - rewrite Erows, length_app. reflexivity.
Qed.

Lemma CreateTag_twice_two_rows_witness :
  exists t1 s1 t2 s2,
    store.CreateTag 3 (sample.tag 1 "colour" "red") sample.one_file = Ok (t1, s1)
    /\ store.CreateTag 4 (sample.tag 1 "colour" "red") s1 = Ok (t2, s2)
    /\ Tag.ID t1 <> Tag.ID t2
    /\ spec.tag_rows 1 "colour" "red" s2
       = spec.tag_rows 1 "colour" "red" sample.one_file ++ [t1; t2]
    /\ List.length (spec.tag_rows 1 "colour" "red" s2)
       = (List.length (spec.tag_rows 1 "colour" "red" sample.one_file) + 2)%nat.
Proof.
  apply (CreateTag_twice_two_rows sample.one_file 3 4 (sample.tag 1 "colour" "red"));
    [reflexivity | reflexivity | vm_compute; reflexivity].
Defined.

(** C1 as stated fails: adding the triple [(1, colour, red)] twice to a
    store that holds file 1 leaves two active rows for it, not one. *)
Lemma CreateTag_idempotent_counterexample :
  ~ (forall (s s1 s2 : store.DB) (now1 now2 : Time) (tag t1 t2 : Tag.t),
        store.CreateTag now1 tag s = Ok (t1, s1) ->
        store.CreateTag now2 tag s1 = Ok (t2, s2) ->
        List.length (spec.tag_rows (Tag.FileID tag) (Tag.Key tag) (Tag.Value tag) s2)
        = 1%nat).
Proof.
  intros H.
  pose (tag := sample.tag 1 "colour" "red").
  destruct (store.CreateTag 3 tag sample.one_file) as [[t1 s1]|] eqn:E1;
    [|discriminate E1].
  destruct (store.CreateTag 4 tag s1) as [[t2 s2]|] eqn:E2;
    [|injection E1 as <- <-; discriminate E2].
  specialize (H _ _ _ _ _ _ _ _ E1 E2).
  injection E1 as <- <-. injection E2 as <- <-.
  vm_compute in H. discriminate H.
Qed.

(** ** Files *)

(** C2: the code inserts a second active file under the same
    (BackendID, Path).  [idx_backend_path] is a plain index, so the second
    [CreateFile] succeeds and hands out a new id. *)
Theorem CreateFile_same_backend_path_twice :
  exists f1 s1 f2 s2,
    store.CreateFile 2 (sample.file "b" "p") sample.one_backend = Ok (f1, s1)
    /\ store.CreateFile 3 (sample.file "b" "p") s1 = Ok (f2, s2)
    /\ In f1 (store.files s2) /\ In f2 (store.files s2)
    /\ File.ID f1 <> File.ID f2
    /\ File.DeletedAt f1 = None /\ File.DeletedAt f2 = None
    /\ File.BackendID f1 = File.BackendID f2
    /\ File.Path f1 = File.Path f2.
Proof.
  do 4 eexists. split; [reflexivity|]. split; [reflexivity|].
  simpl. repeat split; auto. discriminate.
Qed.

(** ** Backends *)

Lemma Find_nil {R} `{gorm.SoftDelete R} (cond : R -> bool) (rows : list R) :
  (forall r, In r rows -> cond r = false) -> gorm.Find cond rows = [].
Proof.
  intros Hall. unfold gorm.Find. induction rows as [|r rows IH]; simpl; [reflexivity|].
  rewrite (Hall r) by now left. rewrite andb_false_r. apply IH.
  intros r' Hin. apply Hall. now right.
Qed.

Lemma Find_nil_scope {R} `{gorm.SoftDelete R} (cond : R -> bool) (rows : list R) :
  (forall r, In r rows -> gorm.active r && cond r = false) -> gorm.Find cond rows = [].
Proof.
  intros Hall. unfold gorm.Find. induction rows as [|r rows IH]; simpl; [reflexivity|].
  rewrite (Hall r) by now left. apply IH.
  intros r' Hin. apply Hall. now right.
Qed.

(** C4, as the code has it: [CreateBackend] looks at the identifier only
    to keep the primary key unique.  Whatever characters the identifier
    holds, the row is stored when no row has that identifier yet, and the
    call fails with a uniqueness error otherwise. *)
Theorem CreateBackend_any_identifier (now : Time) (b : Backend.t) (s : store.DB) :
  ((forall b', In b' (store.backends s) -> Backend.ID b' <> Backend.ID b) ->
   exists row s',
     store.CreateBackend now b s = Ok (row, s')
     /\ Backend.ID row = Backend.ID b
     /\ store.backends s' = store.backends s ++ [row]
     /\ (Backend.DeletedAt b = None -> store.GetBackend (Backend.ID b) s' = Ok row))
  /\ ((exists b', In b' (store.backends s) /\ Backend.ID b' = Backend.ID b) ->
      store.CreateBackend now b s = Err (ErrUniqueConstraint "backends.id")).
Proof.
  split.
  - intros Hfresh.
    assert (E : existsb (fun b' => String.eqb (Backend.ID b') (Backend.ID b))
                  (store.backends s) = false).
    { apply existsb_false_forall. intros b' Hin. apply String.eqb_neq. now apply Hfresh. }
    unfold store.CreateBackend. rewrite E.
    do 2 eexists. split; [reflexivity|]. simpl. repeat split.
    intros Hact. unfold store.GetBackend, gorm.First, gorm.Find. simpl.
    rewrite filter_app.
    fold (gorm.Find (fun b' => String.eqb (Backend.ID b') (Backend.ID b)) (store.backends s)).
    rewrite Find_nil by (now apply existsb_false_forall).
    simpl. unfold gorm.active. simpl. rewrite Hact, String.eqb_refl. reflexivity.
  - intros (b' & Hin & Hid). unfold store.CreateBackend.
    replace (existsb _ _) with true; [reflexivity|].
    symmetry. apply existsb_exists. exists b'. split; [exact Hin|].
    now apply String.eqb_eq.
Qed.

Lemma CreateBackend_any_identifier_witness :
  exists row s',
    store.CreateBackend 1 (sample.backend "a/b") store.empty = Ok (row, s')
    /\ Backend.ID row = "a/b"%string
    /\ store.backends s' = [row]
    /\ (Backend.DeletedAt (sample.backend "a/b") = None ->
        store.GetBackend "a/b" s' = Ok row).
Proof.
  apply (CreateBackend_any_identifier 1 (sample.backend "a/b") store.empty).
  intros b' [].
Defined.

(** C4 as stated fails: the identifier ["a/b"] holds a slash, and
    [CreateBackend] stores the backend all the same. *)
Lemma CreateBackend_rejects_counterexample :
  ~ (forall (now : Time) (b : Backend.t) (s : store.DB),
        spec.illegal_identifier (Backend.ID b) = true ->
        exists e, store.CreateBackend now b s = Err e).
Proof.
  intros H.
  destruct (H 1 (sample.backend "a/b") store.empty eq_refl) as [e He].
  discriminate He.
Qed.

(** ** Path resolution *)

Lemma cut_no_separator (B P : string) :
  spec.existsb_string (fun c => Ascii.eqb c "/") B = false ->
  registry.cut "/" (B ++ String "/" P) = (B, Some P).
Proof.
  induction B as [|c B IH]; simpl; intros Hno; [reflexivity|].
  apply orb_false_iff in Hno. destruct Hno as [Hc HB].
  rewrite Hc, (IH HB). reflexivity.
Qed.

Lemma all_runes_forall (p : ascii -> bool) (s : string) :
  backend_id.all_runes p s = true <-> spec.existsb_string (fun c => negb (p c)) s = false.
Proof.
  induction s as [|c s IH]; simpl; [tauto|].
  destruct (p c); simpl; [exact IH | split; discriminate].
Qed.

Lemma valid_rune_not_separator (c : ascii) :
  backend_id.valid_rune c = true -> Ascii.eqb c "/" = false /\ Ascii.eqb c "." = false.
Proof.
  intros Hv. split; apply Ascii.eqb_neq; intros ->; discriminate Hv.
Qed.

Lemma valid_runes_no_slash (s : string) :
  backend_id.all_runes backend_id.valid_rune s = true ->
  spec.existsb_string (fun c => Ascii.eqb c "/") s = false.
Proof.
  induction s as [|c s IH]; simpl; [reflexivity|].
  destruct (backend_id.valid_rune c) eqn:E; [|discriminate].
  intros Hs. destruct (valid_rune_not_separator c E) as [-> _]. now apply IH.
Qed.

(** An identifier that [isValidBackendID] accepts holds no slash. *)
Lemma isValidBackendID_no_slash (id : string) :
  backend_id.isValidBackendID id = true ->
  spec.existsb_string (fun c => Ascii.eqb c "/") id = false.
Proof.
  destruct id as [|c id]; [discriminate|].
  unfold backend_id.isValidBackendID.
  destruct (Ascii.eqb c "." || Ascii.eqb c "/"); [discriminate|].
  apply valid_runes_no_slash.
Qed.

(** [Register] hands a backend to the store only under an accepted
    identifier. *)
Lemma Register_checks_identifier (Encrypt : string -> result string)
  (UpsertBackend : Backend.t -> store.DB -> result store.DB)
  (b : Backend.t) (s s' : store.DB) :
  registry.Register Encrypt UpsertBackend b s = Ok s' ->
  backend_id.isValidBackendID (Backend.ID b) = true
  /\ exists b', UpsertBackend b' s = Ok s' /\ Backend.ID b' = Backend.ID b.
Proof.
  unfold registry.Register, registry.encryptCredentials.
  destruct (backend_id.isValidBackendID (Backend.ID b)); [|discriminate]. simpl.
  destruct (Encrypt (Backend.AccessKey b)); [|discriminate].
  destruct (Encrypt (Backend.SecretKey b)); [|discriminate].
  intros Hups. split; [reflexivity|]. eexists. split; [exact Hups | reflexivity].
Qed.

(** So registration keeps a store registered, whenever the upsert
    writes no backend row but the one it is handed. *)
Lemma Register_keeps_registered (Encrypt : string -> result string)
  (UpsertBackend : Backend.t -> store.DB -> result store.DB)
  (b : Backend.t) (s s' : store.DB) :
  (forall b0 s0 s1, UpsertBackend b0 s0 = Ok s1 ->
     forall x, In x (store.backends s1) ->
               In x (store.backends s0) \/ Backend.ID x = Backend.ID b0) ->
  registry.registered s = true ->
  registry.Register Encrypt UpsertBackend b s = Ok s' ->
  registry.registered s' = true.
Proof.
  intros Hups Hreg Hr. apply Register_checks_identifier in Hr.
  destruct Hr as (Hvalid & b' & Hb' & Hid).
  unfold registry.registered in *. rewrite forallb_forall in *.
  intros x Hx. destruct (Hups b' s s' Hb' x Hx) as [Hold|Hnew].
  - now apply Hreg.
  - now rewrite Hnew, Hid.
Qed.

(** C5: on a store whose backends came in through [Register], the path
    [B/P] of a registered backend [B] resolves to that backend and [P];
    and a path whose first segment names no registered backend fails as
    not found, on any store. *)
Theorem ResolveVirtualPath_backend_path (s : store.DB) :
  (registry.registered s = true ->
   forall B P b,
     store.GetBackend B s = Ok b ->
     registry.ResolveVirtualPath (B ++ String "/" P) s = Ok (b, P)
     /\ Backend.ID b = B)
  /\ (forall path,
        (forall b, In b (store.backends s) -> Backend.DeletedAt b = None ->
                   Backend.ID b <> fst (registry.cut "/" path)) ->
        registry.ResolveVirtualPath path s
        = Err (ErrBackendNotFound (fst (registry.cut "/" path)))).
Proof.
  split.
  - intros Hreg B P b Hget.
    pose proof Hget as Hok. apply First_Ok in Hok. destruct Hok as (Hin & _ & Hid).
    apply String.eqb_eq in Hid.
    unfold registry.registered in Hreg. rewrite forallb_forall in Hreg.
    pose proof (isValidBackendID_no_slash _ (Hreg b Hin)) as Hno. rewrite Hid in Hno.
    unfold registry.ResolveVirtualPath, registry.SplitN2.
    rewrite (cut_no_separator B P Hno), Hget. split; [reflexivity | exact Hid].
  - intros path Hnone. unfold registry.ResolveVirtualPath, registry.SplitN2.
    destruct (registry.cut "/" path) as [head rest] eqn:E. simpl in *.
    assert (Hget : store.GetBackend head s = Err ErrRecordNotFound).
    { destruct (store.GetBackend head s) as [b|e] eqn:G.
      - apply First_Ok in G. destruct G as (Hin & Hact & Hid).
        apply String.eqb_eq in Hid. now destruct (Hnone b Hin Hact).
      - apply First_Err in G. now destruct G as [-> _]. }
    destruct rest; rewrite Hget; reflexivity.
Qed.

Lemma ResolveVirtualPath_backend_path_witness :
  registry.ResolveVirtualPath "b/pictures/a.jpg" sample.one_file
  = Ok (sample.stored_backend, "pictures/a.jpg"%string)
  /\ registry.ResolveVirtualPath "c/pictures/a.jpg" sample.one_file
     = Err (ErrBackendNotFound "c").
Proof.
  destruct (ResolveVirtualPath_backend_path sample.one_file) as [Hok Herr]. split.
  - apply (Hok eq_refl "b"%string "pictures/a.jpg"%string sample.stored_backend).
    reflexivity.
  - apply (Herr "c/pictures/a.jpg"%string).
    intros b [<-|[]] _. discriminate.
Defined.

(** The hypothesis is needed: [CreateBackend], called past the registry,
    stores the identifier ["a/b"], and ["a/b/p"] is then split at its
    first slash and looked up as backend ["a"]. *)
Example ResolveVirtualPath_past_the_registry :
  registry.registered sample.slash_backend = false
  /\ store.GetBackend "a/b" sample.slash_backend
     = Ok (Backend_on_create 1 (sample.backend "a/b"))
  /\ registry.ResolveVirtualPath "a/b/p" sample.slash_backend
     = Err (ErrBackendNotFound "a").
Proof. repeat split; reflexivity. Qed.

(** The sample stores are what the store's own calls build. *)
Example sample_stores_created :
  store.CreateBackend 1 (sample.backend "a/b") store.empty
  = Ok (Backend_on_create 1 (sample.backend "a/b"), sample.slash_backend)
  /\ store.CreateBackend 1 (sample.backend "b") store.empty
     = Ok (sample.stored_backend, sample.one_backend)
  /\ store.CreateFile 2 (sample.file "b" "p") sample.one_backend
     = Ok (sample.stored_file, sample.one_file)
  /\ store.CreateTag 3 (sample.tag 1 "colour" "red") sample.one_file
     = Ok (sample.stored_tag 1 3, sample.tagged_once)
  /\ store.CreateTag 4 (sample.tag 1 "colour" "red") sample.tagged_once
     = Ok (sample.stored_tag 2 4, sample.tagged_twice)
  /\ (exists s1 s2,
        store.CreateFile 2 (sample.file "b" "z") sample.one_backend
        = Ok (sample.stored 1 "z", s1)
        /\ store.CreateFile 2 (sample.file "b" "a") s1 = Ok (sample.stored 2 "a", s2)
        /\ store.CreateFile 2 (sample.file "b" "m") s2
           = Ok (sample.stored 3 "m", sample.three_files)).
Proof. repeat split; try reflexivity. do 2 eexists. repeat split; reflexivity. Qed.

(** ** Filters *)

Lemma NoDup_map_inj {A B} (h : A -> B) (l : list A) (x y : A) :
  NoDup (map h l) -> In x l -> In y l -> h x = h y -> x = y.
Proof.
  induction l as [|a l IH]; simpl; intros Hnd Hx Hy Hxy; [destruct Hx|].
  inversion Hnd as [|? ? Hnotin Hnd']; subst.
  destruct Hx as [->|Hx], Hy as [->|Hy]; auto.
  - exfalso. apply Hnotin. rewrite Hxy. now apply in_map.
  - exfalso. apply Hnotin. rewrite <- Hxy. now apply in_map.
Qed.

(** C6: [GetFilter] looks the path up by equality on the whole string.
    On a table that honours the unique index of [VirtualPath], it answers
    with the active filter whose path is [V] when there is one, and with
    [ErrRecordNotFound] when there is none; a filter whose path is only a
    prefix of [V] is never the answer. *)
Theorem GetFilter_exact_match (s : store.DB) (V : string) :
  NoDup (map Filter.VirtualPath (store.filters s)) ->
  (forall f, In f (store.filters s) -> Filter.DeletedAt f = None ->
             Filter.VirtualPath f = V -> store.GetFilter V s = Ok f)
  /\ ((forall f, In f (store.filters s) -> Filter.DeletedAt f = None ->
                 Filter.VirtualPath f <> V) ->
      store.GetFilter V s = Err ErrRecordNotFound)
  /\ (forall f, store.GetFilter V s = Ok f ->
                In f (store.filters s) /\ Filter.DeletedAt f = None
                /\ Filter.VirtualPath f = V)
  /\ (forall g, String.prefix (Filter.VirtualPath g) V = true ->
                Filter.VirtualPath g <> V -> store.GetFilter V s <> Ok g).
Proof.
  intros Huniq.
  assert (Hok : forall f, store.GetFilter V s = Ok f ->
                  In f (store.filters s) /\ Filter.DeletedAt f = None
                  /\ Filter.VirtualPath f = V).
  { intros f Hget. apply First_Ok in Hget. destruct Hget as (Hin & Hact & Hv).
    apply String.eqb_eq in Hv. auto. }
  repeat split; try (now apply Hok).
  - intros f Hin Hact Hv.
    destruct (First_total store.filter_lt
                (fun f => String.eqb (Filter.VirtualPath f) V) (store.filters s) f)
      as [f' Hf']; auto; [now apply String.eqb_eq|].
    unfold store.GetFilter. rewrite Hf'. f_equal.
    destruct (Hok f' Hf') as (Hin' & _ & Hv').
    apply (NoDup_map_inj Filter.VirtualPath (store.filters s)); auto. congruence.
  - intros Hnone. destruct (store.GetFilter V s) as [f|e] eqn:G.
    + destruct (Hok f eq_refl) as (Hin & Hact & Hv). now destruct (Hnone f Hin Hact).
    + apply First_Err in G. now destruct G as [-> _].
  - intros g _ Hneq Hget. apply Hok in Hget. tauto.
Qed.

Lemma GetFilter_exact_match_witness :
  store.GetFilter "filters/pictures/red/big"
    (store.MkDB [] [] []
       [gorm.with_id 1%N (sample.view "filters/pictures/red" "tag:colour=red")])
  = Err ErrRecordNotFound.
Proof.
  apply (GetFilter_exact_match
           (store.MkDB [] [] []
              [gorm.with_id 1%N (sample.view "filters/pictures/red" "tag:colour=red")])
           "filters/pictures/red/big").
  - simpl. constructor; [intros [] | constructor].
  - intros f [<-|[]] _. discriminate.
Defined.

Lemma NoDup_snoc {A} (l : list A) (a : A) :
  NoDup l -> ~ In a l -> NoDup (l ++ [a]).
Proof.
  induction l as [|x l IH]; simpl; intros Hnd Hnotin.
  - constructor; [intros [] | constructor].
  - inversion Hnd as [|? ? Hx Hl]; subst. constructor.
    + rewrite in_app_iff. simpl. intros [Hin|[->|[]]]; [contradiction|].
      apply Hnotin. now left.
    + apply IH; auto.
Qed.

Lemma NoDup_map_insert {A B} (f : A -> B) (l1 l2 : list A) (a : A) :
  NoDup (map f (l1 ++ l2)) -> ~ In (f a) (map f (l1 ++ l2)) ->
  NoDup (map f (l1 ++ a :: l2)).
Proof.
  intros Hnd Hnotin. rewrite map_app in *. simpl.
  eapply Permutation_NoDup; [apply Permutation_middle|].
  now constructor.
Qed.

(** [CreateFilter] keeps the virtual paths of the table distinct. *)
Lemma CreateFilter_unique (now : Time) (f row : Filter.t) (s s' : store.DB) :
  NoDup (map Filter.VirtualPath (store.filters s)) ->
  store.CreateFilter now f s = Ok (row, s') ->
  NoDup (map Filter.VirtualPath (store.filters s')).
Proof.
  intros Hnd. unfold store.CreateFilter.
  destruct (gorm.Create (Filter_on_create now f) (store.filters s))
    as [[r rows]|] eqn:Ec; [|discriminate].
  destruct (existsb _ (store.filters s)) eqn:E; [discriminate|].
  intros [= <- <-]. simpl.
  destruct (@Create_shape Filter.t Filter_AutoIncrement (fun _ _ => eq_refl) _ _ _ _ Ec)
    as ((l1 & l2 & E1 & -> & _) & Hr & _).
  assert (Hpath : Filter.VirtualPath r = Filter.VirtualPath f)
    by (destruct Hr as [->| ->]; reflexivity).
  rewrite E1 in *. apply NoDup_map_insert; [exact Hnd|].
  rewrite Hpath. intros Hin. apply in_map_iff in Hin. destruct Hin as (g & Hg & Hin).
  rewrite existsb_false_forall in E. specialize (E g Hin).
  apply String.eqb_neq in E. contradiction.
Qed.

(** A soft delete rewrites [DeletedAt] only, so it keeps them distinct. *)
Lemma DeleteFilter_unique (now : Time) (id : N) (s s' : store.DB) :
  NoDup (map Filter.VirtualPath (store.filters s)) ->
  store.DeleteFilter now id s = Ok s' ->
  NoDup (map Filter.VirtualPath (store.filters s')).
Proof.
  intros Hnd [= <-]. simpl. unfold gorm.Delete. rewrite map_map.
  erewrite map_ext; [exact Hnd|].
  intros a. now destruct (gorm.active a && (Filter.ID a =? id)%N).
Qed.

(** ** Deleting a backend *)

(** [DeleteBackend] stamps the backend row and nothing else: the files,
    tags and filters are the tables they were, and so is every other
    backend row. *)
Lemma DeleteBackend_touches_backend_only (now : Time) (id : string) (s s' : store.DB) :
  store.DeleteBackend now id s = Ok s' ->
  store.GetBackend id s' = Err ErrRecordNotFound
  /\ store.files s' = store.files s
  /\ store.tags s' = store.tags s
  /\ store.filters s' = store.filters s
  /\ filter (fun b => negb (String.eqb (Backend.ID b) id)) (store.backends s')
     = filter (fun b => negb (String.eqb (Backend.ID b) id)) (store.backends s)
  /\ (forall B p, store.GetFile B p s' = store.GetFile B p s)
  /\ (forall B Q l o, store.ListFiles B Q l o s' = store.ListFiles B Q l o s).
Proof.
  intros [= <-]. simpl. repeat split.
  - unfold store.GetBackend, gorm.First. rewrite Find_nil_scope; [reflexivity|].
    intros r Hin. unfold gorm.Delete in Hin. apply in_map_iff in Hin.
    destruct Hin as (b & <- & _).
    destruct (gorm.active b && String.eqb (Backend.ID b) id) eqn:E.
    + reflexivity.
    + exact E.
  - unfold gorm.Delete. induction (store.backends s) as [|b bs IH]; [reflexivity|].
    cbn [map filter]. rewrite IH.
    destruct (String.eqb (Backend.ID b) id) eqn:E.
    + destruct (gorm.active b); simpl; rewrite E; reflexivity.
    + rewrite andb_false_r, E. reflexivity.
Qed.

(** C7: after [DeleteBackend("b")] the backend is gone from the active
    view, but its file is not: [GetFile] still finds it and [ListFiles]
    still lists it.  The cascade that the [Files] association declares
    belongs to a row delete, and the soft delete is an update. *)
Theorem DeleteBackend_leaves_files_active :
  exists s',
    store.DeleteBackend 5 "b" sample.one_file = Ok s'
    /\ store.GetBackend "b" s' = Err ErrRecordNotFound
    /\ store.GetFile "b" "p" s' = Ok sample.stored_file
    /\ store.ListFiles "b" "" 0 0 s' = Ok [sample.stored_file].
Proof. eexists. repeat split; reflexivity. Qed.

(** ** Reverse tag lookup *)

Lemma GetFilesByTag_unpaged (K V : string) (s : store.DB) :
  store.GetFilesByTag K V 0 0 s
  = Ok (flat_map (fun t => gorm.Find (fun f => (File.ID f =? Tag.FileID t)%N)
                             (store.files s))
          (store.joined_tags K V s)).
Proof. reflexivity. Qed.

Lemma joined_tags_In (K V : string) (s : store.DB) (t : Tag.t) :
  In t (store.joined_tags K V s) <->
  In t (store.tags s) /\ Tag.Key t = K /\ Tag.Value t = V.
Proof.
  unfold store.joined_tags.
  rewrite filter_In, !andb_true_iff, !String.eqb_eq. tauto.
Qed.

(** The files of an unpaged lookup: the active files that a tag row
    [K = V], soft-deleted or not, points to. *)
Lemma GetFilesByTag_In (K V : string) (s : store.DB) (f : File.t) :
  In f (flat_map (fun t => gorm.Find (fun f => (File.ID f =? Tag.FileID t)%N)
                             (store.files s))
          (store.joined_tags K V s))
  <-> In f (store.files s) /\ File.DeletedAt f = None
      /\ exists t, In t (store.tags s) /\ Tag.FileID t = File.ID f
                   /\ Tag.Key t = K /\ Tag.Value t = V.
Proof.
  rewrite in_flat_map. split.
  - intros (t & Ht & Hf). apply joined_tags_In in Ht. apply Find_In in Hf.
    destruct Hf as (Hin & Hact & Hid). apply N.eqb_eq in Hid.
    repeat split; auto. exists t. intuition congruence.
  - intros (Hin & Hact & t & Ht & Hid & HK & HV). exists t. split.
    + apply joined_tags_In. auto.
    + apply Find_In. repeat split; auto. apply N.eqb_eq. congruence.
Qed.








(** The join also pairs a file with a tag row that [DeleteTag] has
    stamped: the file is still found by a tag it no longer shows in
    [GetFileTags]. *)
Example GetFilesByTag_after_DeleteTag :
  exists s',
    store.DeleteTag 5 1 sample.tagged_once = Ok s'
    /\ store.GetFileTags 1 s' = Ok []
    /\ store.GetFilesByTag "colour" "red" 0 0 s' = Ok [sample.stored_file].
Proof. eexists. repeat split; reflexivity. Qed.

(** ** The migration ledger *)

Section Ledger.

Variable Schema : Type.

Lemma appliedVersions_In (rows : list migrations.migrationHistory) (v : Z) :
  migrations.appliedVersions rows v = true <-> In v (map migrations.Version rows).
Proof.
  unfold migrations.appliedVersions. rewrite existsb_exists, in_map_iff.
  split; intros (a & H1 & H2).
  - exists a. apply Z.eqb_eq in H2. auto.
  - exists a. split; [exact H2 | now apply Z.eqb_eq].
Qed.

(** The map that [Migrate] builds answers [false] exactly for the
    versions that no ledger row carries, so the loop runs the pending
    migrations. *)
Lemma pending_appliedVersions (ms : list (migrations.Migration Schema))
  (db : migrations.MDB Schema) :
  migrations.pending ms db
  = filter (fun m => negb (migrations.appliedVersions (migrations.history db)
                             (migrations.mVersion m))) ms.
Proof.
  unfold migrations.pending. apply filter_ext. intros m.
  destruct (in_dec Z.eq_dec (migrations.mVersion m)
              (map migrations.Version (migrations.history db))) as [Hin|Hnotin].
  - apply appliedVersions_In in Hin. now rewrite Hin.
  - destruct (migrations.appliedVersions (migrations.history db)
                (migrations.mVersion m)) eqn:E; [|reflexivity].
    apply appliedVersions_In in E. contradiction.
Qed.

Lemma pending_In (ms : list (migrations.Migration Schema))
  (db : migrations.MDB Schema) (m : migrations.Migration Schema) :
  In m (migrations.pending ms db)
  <-> In m ms /\ ~ migrations.recorded db (migrations.mVersion m).
Proof.
  unfold migrations.pending, migrations.recorded. rewrite filter_In.
  destruct (in_dec Z.eq_dec (migrations.mVersion m)
              (map migrations.Version (migrations.history db)));
    intuition congruence.
Qed.

Lemma AutoMigrate_history (db : migrations.MDB Schema) :
  migrations.history (migrations.AutoMigrate db) = migrations.history db.
Proof.
  unfold migrations.AutoMigrate, migrations.history.
  destruct (migrations.ledger db) eqn:E; simpl; [now rewrite E | reflexivity].
Qed.

Lemma AutoMigrate_ledger (db : migrations.MDB Schema) :
  migrations.ledger (migrations.AutoMigrate db) <> None.
Proof.
  unfold migrations.AutoMigrate.
  destruct (migrations.ledger db) eqn:E; simpl; [congruence | discriminate].
Qed.

Lemma AutoMigrate_again (db : migrations.MDB Schema) :
  migrations.ledger db <> None -> migrations.AutoMigrate db = db.
Proof.
  unfold migrations.AutoMigrate. now destruct (migrations.ledger db).
Qed.

(** A ledger insert appends one row, for the version asked, under the
    id after the largest one handed out so far. *)
Lemma create_history_Ok (now v : Z) (d : string)
  (rows rows' : list migrations.migrationHistory) (seq seq' : N) :
  migrations.create_history now v d rows seq = Ok (rows', seq') ->
  migrations.appliedVersions rows v = false
  /\ rows' = rows ++ [migrations.MkHistory seq' v d now]
  /\ seq' = (N.max seq (gorm.max_id rows) + 1)%N.
Proof.
  unfold migrations.create_history.
  destruct (N.max seq (gorm.max_id rows) <? MaxInt64)%N; [|discriminate].
  destruct (migrations.appliedVersions rows v); [discriminate|].
  intros [= <- <-]. auto.
Qed.

(** A step that commits has run [Up] and recorded its version. *)
Lemma runMigration_Ok (now : Z) (m : migrations.Migration Schema) (db db' : migrations.MDB Schema) :
  migrations.runMigration now m db = Ok db' ->
  migrations.Up m (migrations.schema db) = Ok (migrations.schema db')
  /\ migrations.appliedVersions (migrations.history db) (migrations.mVersion m) = false
  /\ exists row, migrations.history db' = migrations.history db ++ [row]
                 /\ migrations.Version row = migrations.mVersion m
                 /\ migrations.Description row = migrations.mDescription m.
Proof.
  unfold migrations.runMigration, migrations.history.
  destruct (migrations.Up m (migrations.schema db)) as [sch|]; [|discriminate].
  destruct (migrations.ledger db) as [rows|]; [|discriminate].
  destruct (migrations.create_history _ _ _ _ _) as [[rows' seq']|] eqn:E; [|discriminate].
  intros [= <-]. simpl. apply create_history_Ok in E.
  destruct E as (Ha & -> & _). repeat split; auto. eexists. repeat split.
Qed.

Lemma runMigration_ledger (now : Z) (m : migrations.Migration Schema) (db db' : migrations.MDB Schema) :
  migrations.runMigration now m db = Ok db' -> migrations.ledger db' <> None.
Proof.
  unfold migrations.runMigration.
  destruct (migrations.Up m (migrations.schema db)) as [sch|]; [|discriminate].
  destruct (migrations.ledger db) as [rows|]; [|discriminate].
  destruct (migrations.create_history _ _ _ _ _) as [[rows' seq']|]; [|discriminate].
  intros [= <-]. discriminate.
Qed.

(** A failing [Up] fails the step, whose transaction then commits nothing. *)
Lemma runMigration_Up_fails (now : Z) (m : migrations.Migration Schema) (db : migrations.MDB Schema) (e : error) :
  migrations.Up m (migrations.schema db) = Err e ->
  migrations.runMigration now m db = Err e.
Proof. intros H. unfold migrations.runMigration. now rewrite H. Qed.

Lemma run_pending_steps (now : Z) (applied : Z -> bool) (ms : list (migrations.Migration Schema)) :
  forall db db' err,
    migrations.run_pending now applied ms db = (db', err) ->
    exists done rest,
      filter (fun m => negb (applied (migrations.mVersion m))) ms = done ++ rest
      /\ migrations.steps now done db = Ok db'
      /\ map migrations.Version (migrations.history db')
         = map migrations.Version (migrations.history db)
           ++ map (@migrations.mVersion Schema) done
      /\ match err with
         | None => rest = []
         | Some e =>
             exists m rest' cause,
               rest = m :: rest'
               /\ migrations.runMigration now m db' = Err cause
               /\ e = ErrMigrationFailed (migrations.mVersion m)
                        (migrations.mDescription m) cause
         end.
Proof.
  induction ms as [|m ms IH]; intros db db' err Hrun; simpl in Hrun.
  - injection Hrun as <- <-. exists [], []. simpl. now rewrite app_nil_r.
  - cbn [filter]. destruct (applied (migrations.mVersion m)) eqn:Ea; simpl.
    + now apply IH.
    + destruct (migrations.runMigration now m db) as [db1|cause] eqn:Estep.
      * destruct (IH _ _ _ Hrun) as (done & rest & Hsplit & Hsteps & Hhist & Herr).
        exists (m :: done), rest. split; [now rewrite Hsplit|].
        split; [simpl; now rewrite Estep|]. split; [|exact Herr].
        apply runMigration_Ok in Estep.
        destruct Estep as (_ & _ & row & Hrow & Hv & _).
        rewrite Hhist, Hrow, map_app. simpl. rewrite Hv, <- app_assoc. reflexivity.
      * injection Hrun as <- <-.
        exists [], (m :: filter (fun m => negb (applied (migrations.mVersion m))) ms).
        split; [reflexivity|]. split; [reflexivity|].
        split; [simpl; now rewrite app_nil_r|].
        exists m, (filter (fun m => negb (applied (migrations.mVersion m))) ms), cause.
        auto.
Qed.

Lemma run_pending_ledger (now : Z) (applied : Z -> bool) (ms : list (migrations.Migration Schema)) :
  forall db, migrations.ledger db <> None ->
             migrations.ledger (fst (migrations.run_pending now applied ms db)) <> None.
Proof.
  induction ms as [|m ms IH]; intros db Hdb; simpl; [exact Hdb|].
  destruct (applied (migrations.mVersion m)); [now apply IH|].
  destruct (migrations.runMigration now m db) as [db1|cause] eqn:Estep; [|exact Hdb].
  apply IH. now apply runMigration_ledger in Estep.
Qed.

Lemma run_pending_all_applied (now : Z) (applied : Z -> bool) (ms : list (migrations.Migration Schema))
  (db : migrations.MDB Schema) :
  (forall m, In m ms -> applied (migrations.mVersion m) = true) ->
  migrations.run_pending now applied ms db = (db, None).
Proof.
  induction ms as [|m ms IH]; intros Hall; simpl; [reflexivity|].
  rewrite (Hall m) by now left. apply IH. intros m' Hin. apply Hall. now right.
Qed.

End Ledger.

(** C9: [Migrate] runs the migrations of the list whose version no
    ledger row carries, in list order, each step in one transaction with
    its ledger row: the ledger grows by the versions of the steps that
    committed, one row each, and by nothing else.  The run stops at the
    first step that fails, which leaves neither its changes nor a ledger
    row; a step whose [Up] fails is such a step.  After a run without
    error no migration of the list is pending, and a second run changes
    nothing. *)
Theorem Migrate_forward_once (Schema : Type) (now : Z)
  (ms : list (migrations.Migration Schema)) (db : migrations.MDB Schema) :
  (exists done rest,
      filter (fun m =>
                if in_dec Z.eq_dec (migrations.mVersion m)
                     (map migrations.Version (migrations.history db))
                then false else true) ms
      = done ++ rest
      /\ migrations.steps now done (migrations.AutoMigrate db)
         = Ok (fst (migrations.Migrate now ms db))
      /\ map migrations.Version (migrations.history (fst (migrations.Migrate now ms db)))
         = map migrations.Version (migrations.history db)
           ++ map (@migrations.mVersion Schema) done
      /\ match snd (migrations.Migrate now ms db) with
         | None =>
             rest = []
             /\ (forall m, In m ms ->
                   In (migrations.mVersion m)
                     (map migrations.Version
                        (migrations.history (fst (migrations.Migrate now ms db)))))
             /\ forall now',
                 migrations.Migrate now' ms (fst (migrations.Migrate now ms db))
                 = (fst (migrations.Migrate now ms db), None)
         | Some e =>
             exists m rest' cause,
               rest = m :: rest'
               /\ migrations.runMigration now m (fst (migrations.Migrate now ms db))
                  = Err cause
               /\ e = ErrMigrationFailed (migrations.mVersion m)
                        (migrations.mDescription m) cause
         end)
  /\ (forall (m : migrations.Migration Schema) (d d' : migrations.MDB Schema),
        migrations.runMigration now m d = Ok d' ->
        migrations.Up m (migrations.schema d) = Ok (migrations.schema d')
        /\ ~ In (migrations.mVersion m) (map migrations.Version (migrations.history d))
        /\ exists row,
             migrations.history d' = migrations.history d ++ [row]
             /\ migrations.Version row = migrations.mVersion m)
  /\ (forall (m : migrations.Migration Schema) (d : migrations.MDB Schema) e,
        migrations.Up m (migrations.schema d) = Err e ->
        migrations.runMigration now m d = Err e).
Proof.
  split; [|split].
  - pose proof (run_pending_ledger Schema now
                  (migrations.appliedVersions
                     (migrations.history (migrations.AutoMigrate db)))
                  ms (migrations.AutoMigrate db) (AutoMigrate_ledger Schema db))
      as Hledger.
    destruct (migrations.Migrate now ms db) as [db' err] eqn:Hrun. simpl.
    unfold migrations.Migrate in Hrun. cbv zeta in Hrun.
    rewrite Hrun in Hledger. simpl in Hledger.
    destruct (run_pending_steps Schema now _ ms _ db' err Hrun)
      as (done & rest & Hsplit & Hsteps & Hhist & Herr).
    rewrite AutoMigrate_history in Hsplit, Hhist.
    rewrite <- pending_appliedVersions in Hsplit.
    exists done, rest. split; [exact Hsplit|]. split; [exact Hsteps|].
    split; [exact Hhist|].
    destruct err as [e|]; [exact Herr|]. split; [exact Herr|].
    assert (Hall : forall m, In m ms ->
              In (migrations.mVersion m) (map migrations.Version (migrations.history db'))).
    { intros m Hin. rewrite Hhist, in_app_iff.
      destruct (in_dec Z.eq_dec (migrations.mVersion m)
                  (map migrations.Version (migrations.history db))) as [Hrec|Hnot].
      - now left.
      - right. apply in_map. subst rest. rewrite app_nil_r in Hsplit.
        rewrite <- Hsplit. apply pending_In. auto. }
    split; [exact Hall|].
    intros now'. unfold migrations.Migrate. cbv zeta.
    rewrite (AutoMigrate_again Schema db' Hledger).
    apply run_pending_all_applied.
    intros m Hin. apply appliedVersions_In. now apply Hall.
  - intros m d d' Hstep. apply runMigration_Ok in Hstep.
    destruct Hstep as (Hup & Hnew & row & Hrow & Hv & _).
    split; [exact Hup|]. split; [|eauto].
    intros Hin. apply appliedVersions_In in Hin. congruence.
  - intros m d e. apply runMigration_Up_fails.
Qed.

(** The ledger of [allMigrations]: a first run creates the ledger and
    records version 1, a second run records nothing more, and a failing
    [Up] records nothing. *)
Example Migrate_allMigrations :
  let ms := migrations.allMigrations (fun _ : bool => Ok true) (fun _ => Ok false) in
  let broken := migrations.allMigrations (fun _ : bool => Err ErrDatabaseFull)
                  (fun _ => Ok false) in
  let fresh := migrations.MkMDB false None 0 in
  let migrated :=
    migrations.MkMDB true
      (Some [migrations.MkHistory 1 1 "Initial schema creation" 7]) 1 in
  migrations.Migrate 7 ms fresh = (migrated, None)
  /\ migrations.Migrate 8 ms migrated = (migrated, None)
  /\ migrations.Migrate 7 broken fresh
     = (migrations.MkMDB false (Some []) 0,
        Some (ErrMigrationFailed 1 "Initial schema creation" ErrDatabaseFull)).
Proof. repeat split; reflexivity. Qed.

(** A ledger that holds version 1 and a list of two steps: the run
    skips the first step and records the second. *)
Lemma Migrate_forward_once_witness :
  exists done : list (migrations.Migration (list Z)),
    migrations.pending sample.two_steps sample.first_step_applied = done
    /\ map (@migrations.mVersion (list Z)) done = [2]
    /\ map migrations.Version
         (migrations.history
            (fst (migrations.Migrate 7 sample.two_steps sample.first_step_applied)))
       = [1; 2].
Proof.
  destruct (proj1 (Migrate_forward_once (list Z) 7 sample.two_steps
                     sample.first_step_applied))
    as (done & rest & Hsplit & _ & Hhist & Herr).
  simpl in Herr. destruct Herr as (-> & _). rewrite app_nil_r in Hsplit.
  exists done. split; [exact Hsplit|].
  assert (E : map (@migrations.mVersion (list Z)) done = [2])
    by (rewrite <- Hsplit; reflexivity).
  split; [exact E|]. rewrite Hhist, E. reflexivity.
Defined.

(** ** Keys stay unique along every history of calls *)

Lemma Create_keeps_ids {R} `{gorm.AutoIncrement R}
  (law : forall i (r : R), gorm.id_of (gorm.with_id i r) = i)
  (r r' : R) (rows rows' : list R) :
  gorm.Create r rows = Ok (r', rows') ->
  NoDup (map gorm.id_of rows) -> NoDup (map gorm.id_of rows').
Proof.
  intros Hc Hnd.
  destruct (Create_shape law _ _ _ _ Hc) as ((l1 & l2 & E1 & -> & _) & _ & _ & _ & Hfresh & _).
  rewrite E1 in *. apply NoDup_map_insert; [exact Hnd|].
  intros Hin. apply in_map_iff in Hin. destruct Hin as (x & Hx & Hin).
  now apply (Hfresh x Hin).
Qed.

Lemma Delete_keeps_column {R K} `{gorm.SoftDelete R} (h : R -> K)
  (keeps : forall now (r : R), h (gorm.set_deleted_at now r) = h r)
  (now : Time) (cond : R -> bool) (rows : list R) :
  map h (gorm.Delete now cond rows) = map h rows.
Proof.
  unfold gorm.Delete. rewrite map_map. apply map_ext.
  intros r. destruct (gorm.active r && cond r); [apply keeps | reflexivity].
Qed.

Lemma exec_keys_unique (s : store.DB) (c : history.call) :
  history.keys_unique s -> history.keys_unique (history.exec s c).
Proof.
  intros (Hb & Hf & Ht & Hfi & Hv). unfold history.keys_unique.
  destruct c; simpl; unfold history.keep_db; simpl;
    rewrite ?(Delete_keeps_column Backend.ID), ?(Delete_keeps_column File.ID),
            ?(Delete_keeps_column Tag.ID), ?(Delete_keeps_column Filter.ID),
            ?(Delete_keeps_column Filter.VirtualPath); auto.
  - unfold store.CreateBackend.
    destruct (existsb _ (store.backends s)) eqn:E; simpl; auto.
    repeat split; auto. rewrite map_app. simpl. apply NoDup_snoc; [exact Hb|].
    intros Hin. apply in_map_iff in Hin. destruct Hin as (x & Hx & Hin).
    rewrite existsb_false_forall in E. specialize (E x Hin).
    apply String.eqb_neq in E. contradiction.
  - unfold store.CreateFile.
    destruct (gorm.Create (File_on_create now file) (store.files s))
      as [[row rows]|] eqn:E; simpl; auto.
    repeat split; auto.
    apply (@Create_keeps_ids File.t File_AutoIncrement (fun _ _ => eq_refl) _ _ _ _ E Hf).
  - unfold store.CreateTag.
    destruct (gorm.Create (Tag_on_create now tag) (store.tags s))
      as [[row rows]|] eqn:E; simpl; auto.
    repeat split; auto.
    apply (@Create_keeps_ids Tag.t Tag_AutoIncrement (fun _ _ => eq_refl) _ _ _ _ E Ht).
  - destruct (store.CreateFilter now filter s) as [[row s']|] eqn:E; simpl; auto.
    pose proof (CreateFilter_unique now filter row s s' Hv E) as Hv'.
    unfold store.CreateFilter in E.
    destruct (gorm.Create (Filter_on_create now filter) (store.filters s))
      as [[row' rows]|] eqn:Ec; [|discriminate].
    destruct (existsb _ (store.filters s)); [discriminate|].
    injection E as <- <-. simpl in *. repeat split; auto.
    apply (@Create_keeps_ids Filter.t Filter_AutoIncrement (fun _ _ => eq_refl) _ _ _ _ Ec Hfi).
Qed.

(** Every store that a history of calls builds from the empty store has
    distinct primary keys and distinct filter paths. *)
Lemma run_keys_unique (calls : list history.call) :
  history.keys_unique (history.run calls).
Proof.
  unfold history.run.
  assert (H0 : history.keys_unique store.empty) by (repeat split; constructor).
  revert H0. generalize store.empty.
  induction calls as [|c calls IH]; intros s Hs; simpl; [exact Hs|].
  apply IH. now apply exec_keys_unique.
Qed.

(* ================================================================= *)
(** * Further properties of the store *)

(** ** Soft deletes *)

Lemma Delete_nothing {R} `{gorm.SoftDelete R} (now : Time) (cond : R -> bool)
  (rows : list R) :
  (forall r, In r rows -> gorm.deleted_at r = None -> cond r = false) ->
  gorm.Delete now cond rows = rows.
Proof.
  intros Hnone. unfold gorm.Delete. induction rows as [|r rows IH]; simpl; [reflexivity|].
  rewrite IH by (intros x Hx; apply Hnone; now right). f_equal.
  destruct (gorm.active r) eqn:Ea; [|reflexivity].
  apply active_true in Ea. now rewrite (Hnone r (or_introl eq_refl) Ea).
Qed.

Lemma Delete_In {R} `{gorm.SoftDelete R}
  (law : forall now (r : R), gorm.deleted_at (gorm.set_deleted_at now r) = Some now)
  (now : Time) (cond : R -> bool) (rows : list R) (r : R) :
  In r (gorm.Delete now cond rows) -> gorm.deleted_at r = None -> cond r = false.
Proof.
  unfold gorm.Delete. intros Hin Hact. apply in_map_iff in Hin.
  destruct Hin as (x & Hx & _).
  destruct (gorm.active x) eqn:Ea; simpl in Hx.
  - destruct (cond x) eqn:Ec; subst r; [|exact Ec].
    rewrite law in Hact. discriminate.
  - subst r. apply active_true in Hact. congruence.
Qed.

(** The rows a query still sees after a soft delete. *)
Lemma Find_Delete {R} `{gorm.SoftDelete R}
  (law : forall now (r : R), gorm.deleted_at (gorm.set_deleted_at now r) = Some now)
  (now : Time) (cond cond' : R -> bool) (rows : list R) :
  gorm.Find cond' (gorm.Delete now cond rows)
  = gorm.Find (fun r => cond' r && negb (cond r)) rows.
Proof.
  unfold gorm.Find, gorm.Delete. induction rows as [|r rows IH]; [reflexivity|].
  cbn [map filter]. rewrite IH.
  destruct (gorm.active r) eqn:Ea; simpl.
  - destruct (cond r) eqn:Ec.
    + unfold gorm.active at 1. rewrite law. simpl.
      now rewrite andb_false_r.
    + rewrite Ea, andb_true_r. reflexivity.
  - rewrite Ea. reflexivity.
Qed.

Lemma Delete_twice {R} `{gorm.SoftDelete R}
  (law : forall now (r : R), gorm.deleted_at (gorm.set_deleted_at now r) = Some now)
  (now1 now2 : Time) (cond : R -> bool) (rows : list R) :
  gorm.Delete now2 cond (gorm.Delete now1 cond rows) = gorm.Delete now1 cond rows.
Proof.
  apply Delete_nothing. intros r Hin Hact. exact (Delete_In law now1 cond rows r Hin Hact).
Qed.

Lemma File_deleted_law (now : Time) (f : File.t) :
  gorm.deleted_at (gorm.set_deleted_at now f) = Some now.
Proof. reflexivity. Qed.

Lemma Tag_deleted_law (now : Time) (t : Tag.t) :
  gorm.deleted_at (gorm.set_deleted_at now t) = Some now.
Proof. reflexivity. Qed.

Lemma Backend_deleted_law (now : Time) (b : Backend.t) :
  gorm.deleted_at (gorm.set_deleted_at now b) = Some now.
Proof. reflexivity. Qed.

Lemma Filter_deleted_law (now : Time) (f : Filter.t) :
  gorm.deleted_at (gorm.set_deleted_at now f) = Some now.
Proof. reflexivity. Qed.

(** X1: a delete by an id that no active row carries reports no error and
    leaves the store exactly as it was: removing what was never there, or
    what is already removed, is a no-op. *)
Theorem Delete_absent_is_noop (now : Time) (s : store.DB) :
  (forall id, (forall t, In t (store.tags s) -> Tag.DeletedAt t = None -> Tag.ID t <> id) ->
              store.DeleteTag now id s = Ok s)
  /\ (forall id, (forall f, In f (store.files s) -> File.DeletedAt f = None -> File.ID f <> id) ->
                 store.DeleteFile now id s = Ok s)
  /\ (forall id, (forall f, In f (store.filters s) -> Filter.DeletedAt f = None ->
                            Filter.ID f <> id) ->
                 store.DeleteFilter now id s = Ok s)
  /\ (forall id, (forall b, In b (store.backends s) -> Backend.DeletedAt b = None ->
                            Backend.ID b <> id) ->
                 store.DeleteBackend now id s = Ok s).
Proof.
  destruct s as [bs fs ts vs]. simpl.
  repeat split; intros id Hnone;
    unfold store.DeleteTag, store.DeleteFile, store.DeleteFilter, store.DeleteBackend;
    simpl; rewrite Delete_nothing; try reflexivity; intros r Hin Hact.
  - apply N.eqb_neq. now apply Hnone.
  - apply N.eqb_neq. now apply Hnone.
  - apply N.eqb_neq. now apply Hnone.
  - apply String.eqb_neq. now apply Hnone.
Qed.

Lemma Delete_absent_is_noop_witness :
  store.DeleteTag 9 7 sample.tagged_once = Ok sample.tagged_once.
Proof.
  apply (proj1 (Delete_absent_is_noop 9 sample.tagged_once) 7%N).
  intros t [<-|[]] _. discriminate.
Defined.

(** X2: a second delete of the same id changes nothing; in particular
    the row keeps the deletion time of the first delete. *)
Theorem Delete_again_is_noop (now1 now2 : Time) (s s1 : store.DB) :
  (forall id, store.DeleteFile now1 id s = Ok s1 -> store.DeleteFile now2 id s1 = Ok s1)
  /\ (forall id, store.DeleteTag now1 id s = Ok s1 -> store.DeleteTag now2 id s1 = Ok s1)
  /\ (forall id, store.DeleteFilter now1 id s = Ok s1 ->
                 store.DeleteFilter now2 id s1 = Ok s1)
  /\ (forall id, store.DeleteBackend now1 id s = Ok s1 ->
                 store.DeleteBackend now2 id s1 = Ok s1)
  /\ (forall B, store.DeleteFilesByBackend now1 B s = Ok s1 ->
                store.DeleteFilesByBackend now2 B s1 = Ok s1)
  /\ (forall F, store.DeleteFileTags now1 F s = Ok s1 ->
                store.DeleteFileTags now2 F s1 = Ok s1).
Proof.
  repeat split; intros id [= <-];
    unfold store.DeleteFile, store.DeleteTag, store.DeleteFilter, store.DeleteBackend,
      store.DeleteFilesByBackend, store.DeleteFileTags; simpl.
  - now rewrite (Delete_twice File_deleted_law).
  - now rewrite (Delete_twice Tag_deleted_law).
  - now rewrite (Delete_twice Filter_deleted_law).
  - now rewrite (Delete_twice Backend_deleted_law).
  - now rewrite (Delete_twice File_deleted_law).
  - now rewrite (Delete_twice Tag_deleted_law).
Qed.

Lemma Delete_again_is_noop_witness :
  store.DeleteTag 6 1
    (store.MkDB [sample.stored_backend] [sample.stored_file]
       [gorm.set_deleted_at 5 (sample.stored_tag 1 3)] [])
  = Ok (store.MkDB [sample.stored_backend] [sample.stored_file]
          [gorm.set_deleted_at 5 (sample.stored_tag 1 3)] []).
Proof.
  apply (proj1 (proj2 (Delete_again_is_noop 5 6 sample.tagged_once
                         (store.MkDB [sample.stored_backend] [sample.stored_file]
                            [gorm.set_deleted_at 5 (sample.stored_tag 1 3)] []))) 1%N).
  reflexivity.
Defined.

(** ** Inserts and the lookups that follow them *)

Lemma CreateFile_shape (now : Time) (f row : File.t) (s s' : store.DB) :
  store.CreateFile now f s = Ok (row, s') ->
  (exists l1 l2,
      store.files s = l1 ++ l2
      /\ s' = store.MkDB (store.backends s) (l1 ++ row :: l2) (store.tags s)
                (store.filters s)
      /\ (File.ID f = 0%N -> l2 = []))
  /\ File.BackendID row = File.BackendID f /\ File.Path row = File.Path f
  /\ File.DeletedAt row = File.DeletedAt f
  /\ File.ID row <> 0%N /\ (File.ID row <= MaxInt64)%N
  /\ (forall g, In g (store.files s) -> File.ID g <> File.ID row)
  /\ (File.ID f = 0%N -> forall g, In g (store.files s) -> (File.ID g < File.ID row)%N).
Proof.
  unfold store.CreateFile.
  destruct (gorm.Create (File_on_create now f) (store.files s)) as [[r rows]|] eqn:E;
    [|discriminate].
  intros [= <- <-].
  destruct (@Create_shape File.t File_AutoIncrement (fun _ _ => eq_refl) _ _ _ _ E)
    as ((l1 & l2 & E1 & -> & Hlast) & Hrow & Hnz & Hmax & Hfresh & Hlt).
  split; [exists l1, l2; auto|].
  repeat split; auto; destruct Hrow as [->| ->]; reflexivity.
Qed.

Lemma CreateTag_shape (now : Time) (t row : Tag.t) (s s' : store.DB) :
  store.CreateTag now t s = Ok (row, s') ->
  (exists l1 l2,
      store.tags s = l1 ++ l2
      /\ s' = store.MkDB (store.backends s) (store.files s) (l1 ++ row :: l2)
                (store.filters s)
      /\ (Tag.ID t = 0%N -> l2 = []))
  /\ Tag.FileID row = Tag.FileID t /\ Tag.Key row = Tag.Key t
  /\ Tag.Value row = Tag.Value t /\ Tag.DeletedAt row = Tag.DeletedAt t
  /\ Tag.ID row <> 0%N /\ (Tag.ID row <= MaxInt64)%N
  /\ (forall g, In g (store.tags s) -> Tag.ID g <> Tag.ID row)
  /\ (Tag.ID t = 0%N -> forall g, In g (store.tags s) -> (Tag.ID g < Tag.ID row)%N).
Proof.
  unfold store.CreateTag.
  destruct (gorm.Create (Tag_on_create now t) (store.tags s)) as [[r rows]|] eqn:E;
    [|discriminate].
  intros [= <- <-].
  destruct (@Create_shape Tag.t Tag_AutoIncrement (fun _ _ => eq_refl) _ _ _ _ E)
    as ((l1 & l2 & E1 & -> & Hlast) & Hrow & Hnz & Hmax & Hfresh & Hlt).
  split; [exists l1, l2; auto|].
  repeat split; auto; destruct Hrow as [->| ->]; reflexivity.
Qed.

Lemma Find_app {R} `{gorm.SoftDelete R} (cond : R -> bool) (l l' : list R) :
  gorm.Find cond (l ++ l') = gorm.Find cond l ++ gorm.Find cond l'.
Proof. apply filter_app. Qed.

(** A query over a table with one more row: the row is skipped when it
    does not match, and is the whole answer when nothing else matches. *)
Lemma Find_insert_skip {R} `{gorm.SoftDelete R} (cond : R -> bool)
  (l1 l2 : list R) (r : R) :
  gorm.active r && cond r = false ->
  gorm.Find cond (l1 ++ r :: l2) = gorm.Find cond (l1 ++ l2).
Proof.
  intros Hr. rewrite !Find_app. f_equal.
  unfold gorm.Find. cbn [filter]. now rewrite Hr.
Qed.

Lemma Find_insert_only {R} `{gorm.SoftDelete R} (cond : R -> bool)
  (l1 l2 : list R) (r : R) :
  gorm.active r && cond r = true ->
  (forall g, In g (l1 ++ l2) -> gorm.active g && cond g = false) ->
  gorm.Find cond (l1 ++ r :: l2) = [r].
Proof.
  intros Hr Hnone. rewrite Find_app.
  change (r :: l2) with ([r] ++ l2). rewrite Find_app.
  rewrite (Find_nil_scope cond l1), (Find_nil_scope cond l2).
  - unfold gorm.Find. cbn [filter]. now rewrite Hr.
  - intros g Hg. apply Hnone, in_or_app. now right.
  - intros g Hg. apply Hnone, in_or_app. now left.
Qed.

(** The row [First] picks has the least id among the rows it could pick. *)
Lemma least_by_id {R} (key : R -> N) (rows : list R) (m : R) :
  gorm.least (fun a b => (key a <? key b)%N) rows = Some m ->
  forall x, In x rows -> (key m <= key x)%N.
Proof.
  revert m. induction rows as [|r rows IH]; simpl; intros m Hm x Hx; [destruct Hx|].
  destruct (gorm.least _ rows) as [m'|] eqn:E.
  - specialize (IH m' eq_refl).
    destruct (key m' <? key r)%N eqn:El; injection Hm as <-.
    + apply N.ltb_lt in El. destruct Hx as [<-|Hx]; [lia | now apply IH].
    + apply N.ltb_ge in El. destruct Hx as [<-|Hx]; [lia|].
      specialize (IH x Hx). lia.
  - injection Hm as <-. apply least_None in E. subst rows.
    destruct Hx as [<-|[]]. lia.
Qed.

(** X3: insert, then look up.  When no active file holds the pair
    (BackendID, Path) yet, [GetFile] on that pair after a successful
    [CreateFile] answers with the very row [CreateFile] handed back. *)
Theorem CreateFile_then_GetFile (now : Time) (f row : File.t) (s s' : store.DB) :
  store.CreateFile now f s = Ok (row, s') ->
  File.DeletedAt f = None ->
  (forall g, In g (store.files s) -> File.DeletedAt g = None ->
             File.BackendID g = File.BackendID f -> File.Path g <> File.Path f) ->
  store.GetFile (File.BackendID f) (File.Path f) s' = Ok row.
Proof.
  intros Hc Hact Hnew.
  destruct (CreateFile_shape now f row s s' Hc)
    as ((l1 & l2 & E1 & -> & _) & HB & HP & HD & _).
  unfold store.GetFile, gorm.First. simpl. rewrite Find_insert_only.
  - reflexivity.
  - unfold gorm.active. simpl. rewrite HD, Hact, HB, HP, !String.eqb_refl.
    reflexivity.
  - rewrite <- E1. intros g Hin. destruct (gorm.active g) eqn:Ea; [|reflexivity]. simpl.
    apply active_true in Ea. apply andb_false_iff.
    destruct (String.eqb (File.BackendID g) (File.BackendID f)) eqn:Eb; [|now left].
    right. apply String.eqb_eq in Eb. apply String.eqb_neq. now apply Hnew.
Qed.

Lemma CreateFile_then_GetFile_witness :
  store.GetFile "b" "p" sample.one_file = Ok sample.stored_file.
Proof.
  apply (CreateFile_then_GetFile 2 (sample.file "b" "p") sample.stored_file
           sample.one_backend sample.one_file); [reflexivity | reflexivity |].
  intros g [].
Defined.

(** X4: among active files that share a (BackendID, Path), [GetFile]
    answers with the one of least id, so a file inserted on top of an
    existing pair is not the one a lookup finds. *)
Theorem GetFile_oldest (B p : string) (s : store.DB) (f : File.t) :
  store.GetFile B p s = Ok f ->
  In f (store.files s) /\ File.DeletedAt f = None
  /\ File.BackendID f = B /\ File.Path f = p
  /\ forall g, In g (store.files s) -> File.DeletedAt g = None ->
               File.BackendID g = B -> File.Path g = p ->
               (File.ID f <= File.ID g)%N.
Proof.
  intros Hget. pose proof Hget as Hok. apply First_Ok in Hok.
  destruct Hok as (Hin & Hact & Hc). apply andb_true_iff in Hc.
  rewrite !String.eqb_eq in Hc. destruct Hc as [HB HP].
  repeat split; auto.
  intros g Hg Hga HgB Hgp.
  unfold store.GetFile, gorm.First in Hget.
  destruct (gorm.least store.file_lt _) as [m|] eqn:E; [|discriminate].
  injection Hget as <-.
  apply (least_by_id File.ID _ m E g). apply Find_In. repeat split; auto.
  now rewrite HgB, Hgp, !String.eqb_refl.
Qed.

Lemma GetFile_oldest_witness :
  (File.ID sample.stored_file <= 1)%N.
Proof.
  destruct (GetFile_oldest "b" "p" sample.one_file sample.stored_file eq_refl)
    as (_ & _ & _ & _ & H).
  apply (H sample.stored_file); [now left | reflexivity | reflexivity | reflexivity].
Defined.

Lemma Find_ext_in {R} `{gorm.SoftDelete R} (c c' : R -> bool) (rows : list R) :
  (forall r, In r rows -> c r = c' r) -> gorm.Find c rows = gorm.Find c' rows.
Proof.
  intros Hext. unfold gorm.Find. apply filter_ext_in.
  intros r Hr. now rewrite (Hext r Hr).
Qed.

(** Deleting the row an insert just added gives back the old view of the
    table, whatever the query. *)
Lemma Find_insert_delete {R} `{gorm.SoftDelete R}
  (law : forall now (r : R), gorm.deleted_at (gorm.set_deleted_at now r) = Some now)
  (key : R -> N) (now : Time) (l1 l2 : list R) (row : R) (cond : R -> bool) :
  (forall g, In g (l1 ++ l2) -> key g <> key row) ->
  gorm.Find cond (gorm.Delete now (fun r => (key r =? key row)%N) (l1 ++ row :: l2))
  = gorm.Find cond (l1 ++ l2).
Proof.
  intros Hfresh. rewrite (Find_Delete law), Find_insert_skip.
  - apply Find_ext_in. intros g Hg.
    specialize (Hfresh g Hg). apply N.eqb_neq in Hfresh. rewrite Hfresh.
    simpl. now rewrite andb_true_r.
  - rewrite N.eqb_refl. simpl. now rewrite !andb_false_r.
Qed.

(** X5: a file that is created and then deleted by the id it was given
    leaves no trace in any read of the store: point lookups, listings and
    tag lookups answer as before the insert. *)
Theorem CreateFile_then_DeleteFile (now now' : Time) (f row : File.t)
  (s s1 s2 : store.DB) :
  store.CreateFile now f s = Ok (row, s1) ->
  store.DeleteFile now' (File.ID row) s1 = Ok s2 ->
  (forall B p, store.GetFile B p s2 = store.GetFile B p s)
  /\ (forall B Q l o, store.ListFiles B Q l o s2 = store.ListFiles B Q l o s)
  /\ (forall K V l o, store.GetFilesByTag K V l o s2 = store.GetFilesByTag K V l o s)
  /\ store.backends s2 = store.backends s /\ store.tags s2 = store.tags s
  /\ store.filters s2 = store.filters s.
Proof.
  intros Hc Hd.
  destruct (CreateFile_shape now f row s s1 Hc)
    as ((l1 & l2 & E1 & -> & _) & _ & _ & _ & _ & _ & Hfresh & _).
  injection Hd as <-. simpl.
  assert (Hfind : forall cond,
             gorm.Find cond
               (gorm.Delete now' (fun r => (File.ID r =? File.ID row)%N)
                  (l1 ++ row :: l2))
             = gorm.Find cond (store.files s)).
  { intros cond. rewrite E1 in *.
    now apply (Find_insert_delete File_deleted_law File.ID). }
  repeat split.
  - intros B p. unfold store.GetFile, gorm.First. simpl. now rewrite Hfind.
  - intros B Q l o. unfold store.ListFiles. simpl. now rewrite Hfind.
  - intros K V l o. unfold store.GetFilesByTag, store.joined_tags. simpl.
    rewrite (flat_map_ext _ _ (fun t => Hfind (fun f => (File.ID f =? Tag.FileID t)%N))).
    reflexivity.
Qed.

Lemma CreateFile_then_DeleteFile_witness :
  store.GetFile "b" "p"
    (store.MkDB [sample.stored_backend] [gorm.set_deleted_at 4 sample.stored_file] [] [])
  = store.GetFile "b" "p" sample.one_backend.
Proof.
  apply (proj1 (CreateFile_then_DeleteFile 2 4 (sample.file "b" "p") sample.stored_file
                  sample.one_backend sample.one_file
                  (store.MkDB [sample.stored_backend]
                     [gorm.set_deleted_at 4 sample.stored_file] [] [])
                  eq_refl eq_refl)).
Defined.

(** X6: an insert that leaves the id to the store is handed an id that
    is not zero, fits a row id, and lies above every id of the table, the
    soft-deleted rows included: ids are never handed out twice. *)
Theorem Create_fresh_id (now : Time) (s s' : store.DB) :
  (forall f row, File.ID f = 0%N -> store.CreateFile now f s = Ok (row, s') ->
                 (0 < File.ID row <= MaxInt64)%N
                 /\ forall g, In g (store.files s) -> (File.ID g < File.ID row)%N)
  /\ (forall t row, Tag.ID t = 0%N -> store.CreateTag now t s = Ok (row, s') ->
                    (0 < Tag.ID row <= MaxInt64)%N
                    /\ forall g, In g (store.tags s) -> (Tag.ID g < Tag.ID row)%N).
Proof.
  split.
  - intros f row Hz Hc.
    destruct (CreateFile_shape now f row s s' Hc) as (_ & _ & _ & _ & Hnz & Hmax & _ & Hlt).
    split; [lia | now apply Hlt].
  - intros t row Hz Hc.
    destruct (CreateTag_shape now t row s s' Hc) as (_ & _ & _ & _ & _ & Hnz & Hmax & _ & Hlt).
    split; [lia | now apply Hlt].
Qed.

Lemma Create_fresh_id_witness :
  (0 < Tag.ID (sample.stored_tag 2 4%Z) <= MaxInt64)%N
  /\ (Tag.ID (sample.stored_tag 1 3%Z) < Tag.ID (sample.stored_tag 2 4%Z))%N.
Proof.
  destruct (proj2 (Create_fresh_id 4 sample.tagged_once sample.tagged_twice)
              (sample.tag 1 "colour" "red") (sample.stored_tag 2 4) eq_refl eq_refl)
    as [Hrange Hfresh].
  split; [exact Hrange | apply Hfresh; now left].
Defined.

Lemma has_id_insert {R} `{gorm.AutoIncrement R} (l1 l2 : list R) (row : R) :
  gorm.has_id (gorm.id_of row) (l1 ++ row :: l2) = true.
Proof.
  unfold gorm.has_id. rewrite existsb_app. simpl.
  now rewrite N.eqb_refl, orb_true_r.
Qed.

(** X7: the struct an insert hands back carries its new id, and handing
    that struct to the insert again fails on the primary key instead of
    adding a second row. *)
Theorem Create_again_with_id (now now' : Time) (s s1 : store.DB) :
  (forall t row, store.CreateTag now t s = Ok (row, s1) ->
                 store.CreateTag now' row s1 = Err (ErrUniqueConstraint "id"))
  /\ (forall f row, store.CreateFile now f s = Ok (row, s1) ->
                    store.CreateFile now' row s1 = Err (ErrUniqueConstraint "id")).
Proof.
  split.
  - intros t row Hc.
    destruct (CreateTag_shape now t row s s1 Hc)
      as ((l1 & l2 & _ & -> & _) & _ & _ & _ & _ & Hnz & Hmax & _).
    unfold store.CreateTag, gorm.Create. simpl.
    apply N.eqb_neq in Hnz. rewrite Hnz.
    replace (MaxInt64 <? Tag.ID row)%N with false by (symmetry; apply N.ltb_ge; lia).
    change (Tag.ID row) with (gorm.id_of row) at 1.
    now rewrite (has_id_insert l1 l2 row).
  - intros f row Hc.
    destruct (CreateFile_shape now f row s s1 Hc)
      as ((l1 & l2 & _ & -> & _) & _ & _ & _ & Hnz & Hmax & _).
    unfold store.CreateFile, gorm.Create. simpl.
    apply N.eqb_neq in Hnz. rewrite Hnz.
    replace (MaxInt64 <? File.ID row)%N with false by (symmetry; apply N.ltb_ge; lia).
    change (File.ID row) with (gorm.id_of row) at 1.
    now rewrite (has_id_insert l1 l2 row).
Qed.

Lemma Create_again_with_id_witness :
  store.CreateTag 9 (sample.stored_tag 1 3) sample.tagged_once
  = Err (ErrUniqueConstraint "id").
Proof.
  apply (proj1 (Create_again_with_id 3 9 sample.one_file sample.tagged_once)
           (sample.tag 1 "colour" "red") (sample.stored_tag 1 3)).
  reflexivity.
Defined.

(** ** Bulk deletes *)

Lemma paging_nil {R} (limit offset : Z) :
  (if 0 <? limit then gorm.Limit limit
                        (if 0 <? offset then gorm.Offset offset (@nil R) else [])
   else if 0 <? offset then gorm.Offset offset (@nil R) else []) = [].
Proof.
  unfold gorm.Limit, gorm.Offset.
  destruct (0 <? limit), (0 <? offset); now rewrite ?skipn_nil, ?firstn_nil.
Qed.

(** X8: [DeleteFilesByBackend(B)] empties the active view of backend
    [B]: every listing of [B] is empty and every point lookup in [B] is
    not found, whatever the prefix and the paging.  The files of every
    other backend are listed and found as before, and the backend row
    itself stays. *)
Theorem DeleteFilesByBackend_clears (now : Time) (B : string) (s s' : store.DB) :
  store.DeleteFilesByBackend now B s = Ok s' ->
  (forall Q l o, store.ListFiles B Q l o s' = Ok [])
  /\ (forall p, store.GetFile B p s' = Err ErrRecordNotFound)
  /\ (forall B', B' <> B ->
        (forall Q l o, store.ListFiles B' Q l o s' = store.ListFiles B' Q l o s)
        /\ (forall p, store.GetFile B' p s' = store.GetFile B' p s))
  /\ store.backends s' = store.backends s
  /\ (forall id, store.GetBackend id s' = store.GetBackend id s).
Proof.
  intros [= <-]. simpl.
  assert (Hgone : forall cond : File.t -> bool,
             (forall f, cond f = true -> File.BackendID f = B) ->
             gorm.Find cond
               (gorm.Delete now (fun f => String.eqb (File.BackendID f) B) (store.files s))
             = []).
  { intros cond Hc. rewrite (Find_Delete File_deleted_law). apply Find_nil.
    intros f _. destruct (cond f) eqn:E; [|reflexivity].
    rewrite (Hc f E), String.eqb_refl. reflexivity. }
  assert (Hkept : forall cond : File.t -> bool,
             (forall f, cond f = true -> File.BackendID f <> B) ->
             gorm.Find cond
               (gorm.Delete now (fun f => String.eqb (File.BackendID f) B) (store.files s))
             = gorm.Find cond (store.files s)).
  { intros cond Hc. rewrite (Find_Delete File_deleted_law). apply Find_ext_in.
    intros f _. destruct (cond f) eqn:E; [|reflexivity].
    apply Hc, String.eqb_neq in E. now rewrite E. }
  repeat split.
  - intros Q l o. unfold store.ListFiles. simpl. rewrite Hgone.
    + rewrite idx_backend_path_nil. now rewrite paging_nil.
    + intros f Hf. unfold store.ListFiles_where in Hf.
      apply andb_true_iff in Hf. now apply String.eqb_eq.
  - intros p. unfold store.GetFile, gorm.First. simpl. rewrite Hgone; [reflexivity|].
    intros f Hf. apply andb_true_iff in Hf. now apply String.eqb_eq.
  - intros Q l o. unfold store.ListFiles. simpl. rewrite Hkept; [reflexivity|].
    intros f Hf. unfold store.ListFiles_where in Hf.
    apply andb_true_iff in Hf. destruct Hf as [Hf _]. apply String.eqb_eq in Hf. congruence.
  - intros p. unfold store.GetFile, gorm.First. simpl. rewrite Hkept; [reflexivity|].
    intros f Hf. apply andb_true_iff in Hf. destruct Hf as [Hf _].
    apply String.eqb_eq in Hf. congruence.
Qed.

Lemma DeleteFilesByBackend_clears_witness :
  store.ListFiles "b" "p" 10 0
    (store.MkDB [sample.stored_backend] [gorm.set_deleted_at 4 sample.stored_file] [] [])
  = Ok [].
Proof.
  apply (proj1 (DeleteFilesByBackend_clears 4 "b" sample.one_file
                  (store.MkDB [sample.stored_backend]
                     [gorm.set_deleted_at 4 sample.stored_file] [] [])
                  eq_refl)).
Defined.

(** ** Tags of a file *)

(** X9: a tag that is added shows up in the tag list of its file, and
    the tags listed before keep their order around it; it comes last
    when its id was left to the store.  The tag lists of the other files
    stay as they are, and deleting the tag by the id it was given
    restores the tag list of every file to what it was before. *)
Theorem CreateTag_then_DeleteTag (now : Time) (t row : Tag.t) (s s1 : store.DB) :
  store.CreateTag now t s = Ok (row, s1) ->
  Tag.DeletedAt t = None ->
  (exists before after,
      store.GetFileTags (Tag.FileID t) s = Ok (before ++ after)
      /\ store.GetFileTags (Tag.FileID t) s1 = Ok (before ++ row :: after)
      /\ (Tag.ID t = 0%N -> after = []))
  /\ (forall F, F <> Tag.FileID t -> store.GetFileTags F s1 = store.GetFileTags F s)
  /\ (forall now' s2, store.DeleteTag now' (Tag.ID row) s1 = Ok s2 ->
        forall F, store.GetFileTags F s2 = store.GetFileTags F s).
Proof.
  intros Hc Hact.
  destruct (CreateTag_shape now t row s s1 Hc)
    as ((l1 & l2 & E1 & -> & Hlast) & HF & _ & _ & HD & _ & _ & Hfresh & _).
  split; [|split].
  - exists (gorm.Find (fun x => (Tag.FileID x =? Tag.FileID t)%N) l1),
           (gorm.Find (fun x => (Tag.FileID x =? Tag.FileID t)%N) l2).
    unfold store.GetFileTags. simpl. rewrite E1, !Find_app.
    split; [reflexivity|]. split.
    + do 2 f_equal. unfold gorm.Find. cbn [filter].
      unfold gorm.active at 1. simpl. now rewrite HD, Hact, HF, N.eqb_refl.
    + intros Hz. now rewrite (Hlast Hz).
  - intros F HFne. unfold store.GetFileTags. simpl. rewrite E1. f_equal.
    apply Find_insert_skip. rewrite HF.
    replace (Tag.FileID t =? F)%N with false; [now rewrite andb_false_r|].
    symmetry. apply N.eqb_neq. congruence.
  - intros now' s2 [= <-] F. unfold store.GetFileTags. simpl. f_equal.
    rewrite E1 in *. now apply (Find_insert_delete Tag_deleted_law Tag.ID).
Qed.

Lemma CreateTag_then_DeleteTag_witness :
  exists before after,
    store.GetFileTags 1 sample.one_file = Ok (before ++ after)
    /\ store.GetFileTags 1 sample.tagged_once
       = Ok (before ++ sample.stored_tag 1 3 :: after)
    /\ after = [].
Proof.
  destruct (proj1 (CreateTag_then_DeleteTag 3 (sample.tag 1 "colour" "red")
                     (sample.stored_tag 1 3) sample.one_file sample.tagged_once
                     eq_refl eq_refl))
    as (before & after & H1 & H2 & H3).
  exists before, after. split; [exact H1|]. split; [exact H2|].
  apply H3. reflexivity.
Defined.

(** X10: [DeleteFileTags(F)] leaves file [F] without a listed tag and
    leaves the tag list of every other file alone. *)
Theorem DeleteFileTags_clears (now : Time) (F : N) (s s' : store.DB) :
  store.DeleteFileTags now F s = Ok s' ->
  store.GetFileTags F s' = Ok []
  /\ (forall F', F' <> F -> store.GetFileTags F' s' = store.GetFileTags F' s)
  /\ store.files s' = store.files s.
Proof.
  intros [= <-]. unfold store.GetFileTags. simpl. repeat split.
  - f_equal. rewrite (Find_Delete Tag_deleted_law). apply Find_nil.
    intros t _. destruct (Tag.FileID t =? F)%N; reflexivity.
  - intros F' Hne. f_equal. rewrite (Find_Delete Tag_deleted_law).
    apply Find_ext_in. intros t _.
    destruct (Tag.FileID t =? F')%N eqn:E; [|reflexivity].
    apply N.eqb_eq in E. replace (Tag.FileID t =? F)%N with false; [reflexivity|].
    symmetry. apply N.eqb_neq. congruence.
Qed.

Lemma DeleteFileTags_clears_witness :
  store.GetFileTags 1
    (store.MkDB [sample.stored_backend] [sample.stored_file]
       [gorm.set_deleted_at 5 (sample.stored_tag 1 3)] [])
  = Ok [].
Proof.
  apply (DeleteFileTags_clears 5 1 sample.tagged_once
           (store.MkDB [sample.stored_backend] [sample.stored_file]
              [gorm.set_deleted_at 5 (sample.stored_tag 1 3)] [])).
  reflexivity.
Defined.

(** ** Reverse lookup after tag writes *)

(** A soft delete rewrites [DeletedAt] only, so the tag rows of the
    join stay the ones they were and point to the files they did. *)
Lemma joined_tags_Delete {A} (now : Time) (cond : Tag.t -> bool) (K V : string)
  (g : N -> list A) (ts : list Tag.t) :
  flat_map (fun t => g (Tag.FileID t))
    (filter (fun t => String.eqb (Tag.Key t) K && String.eqb (Tag.Value t) V)
       (gorm.Delete now cond ts))
  = flat_map (fun t => g (Tag.FileID t))
      (filter (fun t => String.eqb (Tag.Key t) K && String.eqb (Tag.Value t) V) ts).
Proof.
  unfold gorm.Delete.
  induction ts as [|t ts IH]; [reflexivity|]. cbn [map filter].
  assert (E : forall x, (if gorm.active t && cond t then gorm.set_deleted_at now t else t) = x ->
             Tag.Key x = Tag.Key t /\ Tag.Value x = Tag.Value t
             /\ Tag.FileID x = Tag.FileID t)
    by (intros x <-; destruct (gorm.active t && cond t); auto).
  destruct (E _ eq_refl) as (-> & -> & HF).
  destruct (String.eqb (Tag.Key t) K && String.eqb (Tag.Value t) V);
    cbn [flat_map]; now rewrite ?HF, IH.
Qed.

(** X11: no tag delete changes a reverse lookup.  The join of
    [GetFilesByTag] reads the tag rows without the soft-delete scope, so
    after [DeleteTag] or [DeleteFileTags] every [GetFilesByTag] answers
    exactly as before, the deleted tags still counting. *)
Theorem GetFilesByTag_ignores_tag_deletes (now : Time) (s s' : store.DB) :
  (forall id, store.DeleteTag now id s = Ok s' ->
     forall K V l o, store.GetFilesByTag K V l o s' = store.GetFilesByTag K V l o s)
  /\ (forall F, store.DeleteFileTags now F s = Ok s' ->
        forall K V l o, store.GetFilesByTag K V l o s' = store.GetFilesByTag K V l o s).
Proof.
  destruct s as [bs fs ts vs].
  split; intros x [= <-] K V l o; unfold store.GetFilesByTag, store.joined_tags; simpl;
    now rewrite (joined_tags_Delete now _ K V
                   (fun i => gorm.Find (fun f => (File.ID f =? i)%N) fs) ts).
Qed.

Lemma GetFilesByTag_ignores_tag_deletes_witness :
  store.GetFilesByTag "colour" "red" 0 0
    (store.MkDB [sample.stored_backend] [sample.stored_file]
       [gorm.set_deleted_at 5 (sample.stored_tag 1 3)] [])
  = store.GetFilesByTag "colour" "red" 0 0 sample.tagged_once.
Proof.
  apply (proj1 (GetFilesByTag_ignores_tag_deletes 5 sample.tagged_once
                  (store.MkDB [sample.stored_backend] [sample.stored_file]
                     [gorm.set_deleted_at 5 (sample.stored_tag 1 3)] [])) 1%N eq_refl).
Defined.

(** X12: tagging an active file makes it come back from the reverse
    lookup of that key and value; a tag whose [FileID] names no active
    file is stored all the same and changes no reverse lookup. *)
Theorem CreateTag_then_GetFilesByTag (now : Time) (t row : Tag.t) (s s1 : store.DB) :
  store.CreateTag now t s = Ok (row, s1) ->
  (forall f, In f (store.files s) -> File.DeletedAt f = None ->
             File.ID f = Tag.FileID t ->
             exists res, store.GetFilesByTag (Tag.Key t) (Tag.Value t) 0 0 s1 = Ok res
                         /\ In f res)
  /\ ((forall f, In f (store.files s) -> File.DeletedAt f = None ->
                 File.ID f <> Tag.FileID t) ->
      forall K V l o, store.GetFilesByTag K V l o s1 = store.GetFilesByTag K V l o s).
Proof.
  intros Hc.
  destruct (CreateTag_shape now t row s s1 Hc)
    as ((l1 & l2 & E1 & -> & _) & HF & HK & HV & _).
  split.
  - intros f Hin Hact Hid. eexists. split; [apply GetFilesByTag_unpaged|].
    apply GetFilesByTag_In. simpl. repeat split; auto.
    exists row. rewrite in_app_iff. simpl. repeat split; auto. congruence.
  - intros Hnone K V l o. unfold store.GetFilesByTag, store.joined_tags. simpl.
    assert (Hrow : gorm.Find (fun f => (File.ID f =? Tag.FileID row)%N) (store.files s)
                   = []).
    { apply Find_nil_scope. intros f Hin.
      destruct (gorm.active f) eqn:Ea; [|reflexivity]. simpl.
      apply active_true in Ea. apply N.eqb_neq. rewrite HF. now apply Hnone. }
    assert (E : forall kv : Tag.t -> bool,
               flat_map (fun t => gorm.Find (fun f => (File.ID f =? Tag.FileID t)%N)
                                    (store.files s))
                 (filter kv (l1 ++ row :: l2))
               = flat_map (fun t => gorm.Find (fun f => (File.ID f =? Tag.FileID t)%N)
                                      (store.files s))
                   (filter kv (store.tags s))).
    { intros kv. rewrite E1, !filter_app, !flat_map_app. f_equal. cbn [filter].
      destruct (kv row); [|reflexivity]. cbn [flat_map]. now rewrite Hrow. }
    now rewrite E.
Qed.

Lemma CreateTag_then_GetFilesByTag_witness :
  exists res,
    store.GetFilesByTag "colour" "red" 0 0 sample.tagged_once = Ok res
    /\ In sample.stored_file res.
Proof.
  apply (proj1 (CreateTag_then_GetFilesByTag 3 (sample.tag 1 "colour" "red")
                  (sample.stored_tag 1 3) sample.one_file sample.tagged_once eq_refl)
           sample.stored_file); [now left | reflexivity | reflexivity].
Defined.

(** ** Paging and point lookups against the listing *)

(** X13: pages tile the listing.  For a positive limit [L] and an offset
    [O] that is not negative, the page [ListFiles(B, Q, L, O)] followed by
    everything from offset [O + L] on is everything from offset [O] on; a
    page holds at most [L] rows, and a page that holds fewer is the last
    one. *)
Theorem ListFiles_pages (s : store.DB) (B Q : string) (L O : Z) :
  0 < L -> 0 <= O ->
  exists page rest,
    store.ListFiles B Q L O s = Ok page
    /\ store.ListFiles B Q 0 (O + L) s = Ok rest
    /\ store.ListFiles B Q 0 O s = Ok (page ++ rest)
    /\ (List.length page <= Z.to_nat L)%nat
    /\ ((List.length page < Z.to_nat L)%nat -> rest = []).
Proof.
  intros HL HO.
  set (all := store.idx_backend_path
                (gorm.Find (store.ListFiles_where B Q) (store.files s))).
  exists (firstn (Z.to_nat L) (skipn (Z.to_nat O) all)),
         (skipn (Z.to_nat L) (skipn (Z.to_nat O) all)).
  assert (EL : (0 <? L) = true) by now apply Z.ltb_lt.
  assert (EOL : (0 <? O + L) = true) by (apply Z.ltb_lt; lia).
  unfold store.ListFiles. fold all. rewrite EL, EOL. simpl.
  unfold gorm.Limit, gorm.Offset. repeat split.
  - destruct (0 <? O) eqn:E; [reflexivity|].
    apply Z.ltb_ge in E. replace O with 0 by lia. reflexivity.
  - rewrite skipn_skipn. do 2 f_equal. lia.
  - rewrite firstn_skipn. destruct (0 <? O) eqn:E; [reflexivity|].
    apply Z.ltb_ge in E. replace O with 0 by lia. reflexivity.
  - rewrite length_firstn. lia.
  - rewrite length_firstn. intros Hshort. apply skipn_all2. lia.
Qed.

Lemma ListFiles_pages_witness :
  exists page rest,
    store.ListFiles "b" "" 1 0 sample.one_file = Ok page
    /\ store.ListFiles "b" "" 0 (0 + 1) sample.one_file = Ok rest
    /\ store.ListFiles "b" "" 0 0 sample.one_file = Ok (page ++ rest)
    /\ (List.length page <= Z.to_nat 1)%nat
    /\ ((List.length page < Z.to_nat 1)%nat -> rest = []).
Proof. apply (ListFiles_pages sample.one_file "b" "" 1 0); lia. Defined.

Lemma prefix_refl (p : string) : String.prefix p p = true.
Proof.
  induction p as [|c p IH]; [reflexivity|]. simpl.
  destruct (ascii_dec c c) as [_|Hne]; [exact IH | exfalso; now apply Hne].
Qed.

(** X14: what [GetFile] finds, the listing shows.  A file found under
    (B, p) is among the rows of the unpaged listing of backend [B], with
    no prefix and with its own path as the prefix. *)
Theorem GetFile_in_ListFiles (B p : string) (s : store.DB) (f : File.t) :
  store.GetFile B p s = Ok f ->
  exists all narrowed,
    store.ListFiles B "" 0 0 s = Ok all /\ In f all
    /\ store.ListFiles B p 0 0 s = Ok narrowed /\ In f narrowed.
Proof.
  intros Hget. apply First_Ok in Hget. destruct Hget as (Hin & Hact & Hc).
  apply andb_true_iff in Hc. rewrite !String.eqb_eq in Hc. destruct Hc as [HB HP].
  do 2 eexists. split; [reflexivity|]. split; [|split; [reflexivity|]].
  - apply idx_backend_path_In, Find_In. repeat split; auto.
    apply ListFiles_where_prefix; auto. now destruct (File.Path f).
  - apply idx_backend_path_In, Find_In. repeat split; auto.
    apply ListFiles_where_prefix; auto. rewrite HP. apply prefix_refl.
Qed.

Lemma GetFile_in_ListFiles_witness :
  exists all narrowed,
    store.ListFiles "b" "" 0 0 sample.one_file = Ok all /\ In sample.stored_file all
    /\ store.ListFiles "b" "p" 0 0 sample.one_file = Ok narrowed
    /\ In sample.stored_file narrowed.
Proof.
  apply (GetFile_in_ListFiles "b" "p" sample.one_file sample.stored_file).
  reflexivity.
Defined.

(** ** Lookups along histories of calls *)

(** On a column whose values are distinct, [First] by that column finds
    the one active row that holds the value. *)
Lemma First_by_key {R K} `{gorm.SoftDelete R} (key : R -> K)
  (lt : R -> R -> bool) (cond : R -> bool) (k : K) (rows : list R) (r : R) :
  (forall x, cond x = true <-> key x = k) ->
  NoDup (map key rows) ->
  In r rows -> gorm.deleted_at r = None -> key r = k ->
  gorm.First lt cond rows = Ok r.
Proof.
  intros Hcond Hnd Hin Hact Hk.
  destruct (First_total lt cond rows r Hin Hact (proj2 (Hcond r) Hk)) as [r' Hr'].
  rewrite Hr'. f_equal. apply First_Ok in Hr'. destruct Hr' as (Hin' & _ & Hc').
  apply (NoDup_map_inj key rows); auto. apply Hcond in Hc'. congruence.
Qed.

(** X15: in every store that a history of create and delete calls
    builds, a lookup by key is unambiguous: [GetBackend(id)] answers [b]
    exactly when [b] is the active backend row with that id, and [b] is
    in [ListBackends] exactly when [GetBackend] of its id answers [b]; the
    same holds for filters and their virtual paths. *)
Theorem history_lookups_unambiguous (calls : list history.call) :
  (forall id b,
      store.GetBackend id (history.run calls) = Ok b <->
      In b (store.backends (history.run calls))
      /\ Backend.DeletedAt b = None /\ Backend.ID b = id)
  /\ (forall b, In b (gorm.Find (fun _ => true) (store.backends (history.run calls))) <->
                store.GetBackend (Backend.ID b) (history.run calls) = Ok b)
  /\ (forall V f,
        store.GetFilter V (history.run calls) = Ok f <->
        In f (store.filters (history.run calls))
        /\ Filter.DeletedAt f = None /\ Filter.VirtualPath f = V)
  /\ (forall f, In f (gorm.Find (fun _ => true) (store.filters (history.run calls))) <->
                store.GetFilter (Filter.VirtualPath f) (history.run calls) = Ok f).
Proof.
  destruct (run_keys_unique calls) as (Hb & _ & _ & _ & Hv).
  set (s := history.run calls) in *.
  assert (HB : forall id b,
             store.GetBackend id s = Ok b <->
             In b (store.backends s) /\ Backend.DeletedAt b = None /\ Backend.ID b = id).
  { intros id b. split.
    - intros Hget. apply First_Ok in Hget. now rewrite String.eqb_eq in Hget.
    - intros (Hin & Hact & Hid).
      apply (First_by_key Backend.ID _ _ id); auto.
      intros x. apply String.eqb_eq. }
  assert (HF : forall V f,
             store.GetFilter V s = Ok f <->
             In f (store.filters s) /\ Filter.DeletedAt f = None
             /\ Filter.VirtualPath f = V).
  { intros V f. split.
    - intros Hget. apply First_Ok in Hget. now rewrite String.eqb_eq in Hget.
    - intros (Hin & Hact & Hid).
      apply (First_by_key Filter.VirtualPath _ _ V); auto.
      intros x. apply String.eqb_eq. }
  split; [exact HB|]. split; [|split; [exact HF|]].
  - intros b. rewrite HB, Find_In. simpl. tauto.
  - intros f. rewrite HF, Find_In. simpl. tauto.
Qed.

(** ** Matching the prefix without regard to case *)

Lemma code_tolower (c : ascii) :
  sqlite3.code (sqlite3.tolower c)
  = if ((65 <=? sqlite3.code c) && (sqlite3.code c <=? 90))%N
    then (sqlite3.code c + 32)%N else sqlite3.code c.
Proof.
  unfold sqlite3.tolower.
  destruct ((65 <=? sqlite3.code c) && (sqlite3.code c <=? 90))%N eqn:E; [|reflexivity].
  unfold sqlite3.code in *. apply N_ascii_embedding.
  apply andb_true_iff in E. destruct E as [_ E]. apply N.leb_le in E. lia.
Qed.

Lemma code_inj (a b : ascii) : sqlite3.code a = sqlite3.code b -> a = b.
Proof.
  unfold sqlite3.code. intros E.
  rewrite <- (ascii_N_embedding a), <- (ascii_N_embedding b). now rewrite E.
Qed.

(** Two characters with the same fold are the same character or two
    ASCII characters. *)
Lemma tolower_eq (a b : ascii) :
  sqlite3.tolower a = sqlite3.tolower b ->
  a = b \/ ((sqlite3.code a < 128)%N /\ (sqlite3.code b < 128)%N).
Proof.
  intros E. apply (f_equal sqlite3.code) in E. rewrite !code_tolower in E.
  destruct (N.leb_spec 65 (sqlite3.code a)), (N.leb_spec (sqlite3.code a) 90),
           (N.leb_spec 65 (sqlite3.code b)), (N.leb_spec (sqlite3.code b) 90);
    simpl in E;
    first [ left; apply code_inj; lia | right; lia ].
Qed.

Lemma tolower_same_nocase (a b : ascii) :
  sqlite3.tolower a = sqlite3.tolower b -> sqlite3.same_nocase a b = true.
Proof.
  intros E. unfold sqlite3.same_nocase.
  destruct (tolower_eq a b E) as [->|[Ha Hb]].
  - now rewrite Ascii.eqb_refl.
  - rewrite E, Ascii.eqb_refl. apply N.ltb_lt in Ha, Hb. rewrite Ha, Hb.
    now rewrite orb_true_r.
Qed.

Lemma tolower_wildcard (c c' : ascii) :
  (sqlite3.code c < 128)%N -> sqlite3.tolower c = sqlite3.tolower c' ->
  sqlite3.is_lead c' = false.
Proof.
  intros Hc E. unfold sqlite3.is_lead. apply N.leb_gt.
  destruct (tolower_eq c c' E) as [<-|[_ Hb]]; lia.
Qed.

(** A pattern [q%] matches every string that starts with [q] in any
    ASCII case. *)
Lemma like_prefix_any_case (q q' rest : string) :
  text.fold_case q = text.fold_case q' ->
  sqlite3.like (q' ++ rest) (q ++ "%") = true.
Proof.
  unfold sqlite3.like. revert q'.
  induction q as [|c q IH]; intros [|c' q'] Hfold; simpl in Hfold; try discriminate.
  - apply (like_prefix "" rest).
  - injection Hfold as Hc Hq. specialize (IH q' Hq).
    cbn [append sqlite3.patternCompare].
    destruct (Ascii.eqb c "%") eqn:Epct.
    + apply Ascii.eqb_eq in Epct. subst c.
      apply existsb_exists. exists (q' ++ rest)%string. split; [|exact IH].
      cbn [sqlite3.char_suffixes andb]. right.
      rewrite (tolower_wildcard "%" c') by (try exact Hc; reflexivity).
      apply char_suffixes_whole.
    + destruct (Ascii.eqb c "_") eqn:Eone.
      * apply Ascii.eqb_eq in Eone. subst c. cbn [sqlite3.utf8_next].
        rewrite (tolower_wildcard "_" c') by (try exact Hc; reflexivity).
        exact IH.
      * now rewrite (tolower_same_nocase c c' Hc), IH.
Qed.

(** X16: the prefix of [ListFiles] is matched without regard to ASCII
    case.  An active file of the backend whose path starts with the
    prefix written in another case is in the listing. *)
Theorem ListFiles_prefix_any_case (s : store.DB) (B Q q' rest : string) (f : File.t) :
  In f (store.files s) -> File.DeletedAt f = None -> File.BackendID f = B ->
  File.Path f = (q' ++ rest)%string -> text.fold_case Q = text.fold_case q' ->
  exists all, store.ListFiles B Q 0 0 s = Ok all /\ In f all.
Proof.
  intros Hin Hact HB HP Hfold. eexists. split; [reflexivity|].
  apply idx_backend_path_In, Find_In. repeat split; auto.
  unfold store.ListFiles_where. rewrite HB, String.eqb_refl. simpl.
  destruct (String.eqb Q ""); [reflexivity|].
  rewrite HP. now apply like_prefix_any_case.
Qed.

Lemma ListFiles_prefix_any_case_witness :
  exists all, store.ListFiles "b" "P" 0 0 sample.one_file = Ok all
              /\ In sample.stored_file all.
Proof.
  apply (ListFiles_prefix_any_case sample.one_file "b" "P" "p" "" sample.stored_file);
    try reflexivity. now left.
Defined.

(** ** Column defaults and keys that stay taken *)

Lemma CreateBackend_shape (now : Time) (b row : Backend.t) (s s' : store.DB) :
  store.CreateBackend now b s = Ok (row, s') ->
  row = Backend_on_create now b
  /\ s' = store.MkDB (store.backends s ++ [row]) (store.files s) (store.tags s)
            (store.filters s)
  /\ forall b', In b' (store.backends s) -> Backend.ID b' <> Backend.ID b.
Proof.
  unfold store.CreateBackend.
  destruct (existsb _ (store.backends s)) eqn:E; [discriminate|].
  intros [= <- <-]. repeat split.
  intros b' Hin. rewrite existsb_false_forall in E. apply String.eqb_neq. now apply E.
Qed.

(** X17: [CreateBackend] cannot store a backend without TLS.  [UseSSL]
    is tagged [default:true], so a [false] in the struct counts as unset:
    the row that is stored, handed back and later found by [GetBackend]
    has [UseSSL = true], whatever the caller passed. *)
Theorem CreateBackend_UseSSL (now : Time) (b row : Backend.t) (s s' : store.DB) :
  store.CreateBackend now b s = Ok (row, s') ->
  Backend.UseSSL row = true
  /\ (Backend.DeletedAt b = None ->
      store.GetBackend (Backend.ID b) s' = Ok row)
  /\ forall r, store.GetBackend (Backend.ID b) s' = Ok r -> Backend.UseSSL r = true.
Proof.
  intros Hc. destruct (CreateBackend_shape now b row s s' Hc) as (-> & -> & Hfresh).
  assert (Hfind : gorm.Find (fun x => String.eqb (Backend.ID x) (Backend.ID b))
                    (store.backends s) = []).
  { apply Find_nil. intros x Hx. apply String.eqb_neq. now apply Hfresh. }
  split; [simpl; now destruct (Backend.UseSSL b)|]. split.
  - intros Hact. unfold store.GetBackend, gorm.First. simpl.
    rewrite Find_app, Hfind. simpl. unfold gorm.Find. simpl.
    unfold gorm.active. simpl. now rewrite Hact, String.eqb_refl.
  - intros r Hget. apply First_Ok in Hget. destruct Hget as (Hin & _ & Hid).
    simpl in Hin. apply in_app_iff in Hin. destruct Hin as [Hin|[<-|[]]].
    + apply String.eqb_eq in Hid. now destruct (Hfresh r Hin).
    + simpl. now destruct (Backend.UseSSL b).
Qed.

Lemma CreateBackend_UseSSL_witness :
  Backend.UseSSL sample.stored_backend = true.
Proof.
  destruct (CreateBackend_UseSSL 1
              (Backend.Build "b" "name" "endpoint" "region" "bucket" false "ak" "sk" 0 0 None)
              sample.stored_backend store.empty sample.one_backend eq_refl) as [H _].
  exact H.
Defined.

(** X18: the identifier of a deleted backend stays taken.  After
    [DeleteBackend(id)] on a store that holds a backend row [id], the
    backend is not found any more, and no backend can be created under
    [id] again: the soft-deleted row keeps the primary key. *)
Theorem DeleteBackend_keeps_identifier (now : Time) (id : string) (s s1 : store.DB) :
  (exists b, In b (store.backends s) /\ Backend.ID b = id) ->
  store.DeleteBackend now id s = Ok s1 ->
  store.GetBackend id s1 = Err ErrRecordNotFound
  /\ forall now' b', Backend.ID b' = id ->
       store.CreateBackend now' b' s1 = Err (ErrUniqueConstraint "backends.id").
Proof.
  intros (b & Hin & Hid) Hd. split.
  - now destruct (DeleteBackend_touches_backend_only now id s s1 Hd) as (H & _).
  - injection Hd as <-. intros now' b' Hb'. unfold store.CreateBackend. simpl.
    replace (existsb _ _) with true; [reflexivity|].
    symmetry. apply existsb_exists.
    exists (if gorm.active b && String.eqb (Backend.ID b) id
            then gorm.set_deleted_at now b else b).
    split.
    + unfold gorm.Delete. apply in_map_iff. exists b. auto.
    + rewrite Hb', <- Hid. destruct (gorm.active b && _); simpl; apply String.eqb_refl.
Qed.

Lemma DeleteBackend_keeps_identifier_witness :
  store.GetBackend "b"
    (store.MkDB [gorm.set_deleted_at 5 sample.stored_backend] [sample.stored_file] [] [])
  = Err ErrRecordNotFound
  /\ store.CreateBackend 6 (sample.backend "b")
       (store.MkDB [gorm.set_deleted_at 5 sample.stored_backend]
          [sample.stored_file] [] [])
     = Err (ErrUniqueConstraint "backends.id").
Proof.
  destruct (DeleteBackend_keeps_identifier 5 "b" sample.one_file
              (store.MkDB [gorm.set_deleted_at 5 sample.stored_backend]
                 [sample.stored_file] [] [])) as [Hget Hcreate].
  - exists sample.stored_backend. split; [now left | reflexivity].
  - reflexivity.
  - split; [exact Hget | apply Hcreate; reflexivity].
Defined.

Lemma CreateFilter_shape (now : Time) (f row : Filter.t) (s s' : store.DB) :
  store.CreateFilter now f s = Ok (row, s') ->
  (exists l1 l2,
      store.filters s = l1 ++ l2
      /\ s' = store.MkDB (store.backends s) (store.files s) (store.tags s)
                (l1 ++ row :: l2))
  /\ Filter.VirtualPath row = Filter.VirtualPath f
  /\ Filter.DeletedAt row = Filter.DeletedAt f
  /\ (forall g, In g (store.filters s) -> Filter.VirtualPath g <> Filter.VirtualPath f)
  /\ (forall g, In g (store.filters s) -> Filter.ID g <> Filter.ID row).
Proof.
  unfold store.CreateFilter.
  destruct (gorm.Create (Filter_on_create now f) (store.filters s)) as [[r rows]|] eqn:E;
    [|discriminate].
  destruct (existsb _ (store.filters s)) eqn:Ex; [discriminate|].
  intros [= <- <-].
  destruct (@Create_shape Filter.t Filter_AutoIncrement (fun _ _ => eq_refl) _ _ _ _ E)
    as ((l1 & l2 & E1 & -> & _) & Hrow & _ & _ & Hfresh & _).
  split; [exists l1, l2; auto|].
  repeat split; auto; try (destruct Hrow as [->| ->]; reflexivity).
  intros g Hg. rewrite existsb_false_forall in Ex. apply String.eqb_neq. now apply Ex.
Qed.

(** X19: a filter is found under the path it was created with, and that
    path stays taken after the filter is deleted: [GetFilter] then fails
    as not found, and every [CreateFilter] with the same path fails.
    The failure is the one of the unique index, which also spans
    soft-deleted rows, whenever the id is left to the store and the
    store has one to give; a struct that brings its own id can fail on
    the id before the path is looked at. *)
Theorem CreateFilter_path_round_trip (now : Time) (f row : Filter.t)
  (s s1 : store.DB) :
  store.CreateFilter now f s = Ok (row, s1) ->
  Filter.DeletedAt f = None ->
  store.GetFilter (Filter.VirtualPath f) s1 = Ok row
  /\ forall now' s2, store.DeleteFilter now' (Filter.ID row) s1 = Ok s2 ->
       store.GetFilter (Filter.VirtualPath f) s2 = Err ErrRecordNotFound
       /\ forall now'' f', Filter.VirtualPath f' = Filter.VirtualPath f ->
            (exists e, store.CreateFilter now'' f' s2 = Err e)
            /\ (Filter.ID f' = 0%N ->
                (gorm.max_id (store.filters s2) < MaxInt64)%N ->
                store.CreateFilter now'' f' s2
                = Err (ErrUniqueConstraint "filters.virtual_path")).
Proof.
  intros Hc Hact.
  destruct (CreateFilter_shape now f row s s1 Hc)
    as ((l1 & l2 & E1 & ->) & HV & HD & Hpath & Hfresh).
  assert (Hnone : gorm.Find (fun x => String.eqb (Filter.VirtualPath x) (Filter.VirtualPath f))
                    (store.filters s) = []).
  { apply Find_nil. intros x Hx. apply String.eqb_neq. now apply Hpath. }
  split.
  - unfold store.GetFilter, gorm.First. simpl. rewrite Find_insert_only.
    + reflexivity.
    + unfold gorm.active. simpl. now rewrite HD, Hact, HV, String.eqb_refl.
    + rewrite <- E1. intros g Hg. apply andb_false_iff. right.
      apply String.eqb_neq. now apply Hpath.
  - intros now' s2 [= <-]. split.
    + unfold store.GetFilter, gorm.First. simpl. rewrite E1 in Hfresh, Hnone.
      rewrite (Find_insert_delete Filter_deleted_law Filter.ID) by exact Hfresh.
      now rewrite Hnone.
    + intros now'' f' Hf'.
      assert (Hex : existsb (fun g => String.eqb (Filter.VirtualPath g)
                                        (Filter.VirtualPath f'))
                      (gorm.Delete now' (fun r => (Filter.ID r =? Filter.ID row)%N)
                         (l1 ++ row :: l2)) = true).
      { apply existsb_exists.
        exists (if gorm.active row && (Filter.ID row =? Filter.ID row)%N
                then gorm.set_deleted_at now' row else row).
        split.
        - unfold gorm.Delete. apply in_map_iff. exists row. split; [reflexivity|].
          apply in_app_iff. right. now left.
        - rewrite Hf', <- HV. destruct (gorm.active row && _); simpl;
            apply String.eqb_refl. }
      unfold store.CreateFilter. simpl. split.
      * destruct (gorm.Create _ _) as [[r rows]|e]; [|now exists e].
        rewrite Hex. eauto.
      * intros Hz Hroom. rewrite Create_auto by assumption. now rewrite Hex.
Qed.

Lemma CreateFilter_path_round_trip_witness :
  exists row s1,
    store.CreateFilter 1 (sample.view "filters/pictures/red" "tag:colour=red") store.empty
    = Ok (row, s1)
    /\ store.GetFilter "filters/pictures/red" s1 = Ok row.
Proof.
  do 2 eexists. split; [reflexivity|].
  apply (CreateFilter_path_round_trip 1
           (sample.view "filters/pictures/red" "tag:colour=red") _ store.empty _ eq_refl).
  reflexivity.
Defined.

(** ** Sync configurations *)

Lemma SyncConfig_deleted_law (now : Time) (c : SyncConfig.t) :
  gorm.deleted_at (gorm.set_deleted_at now c) = Some now.
Proof. reflexivity. Qed.

Lemma CreateSyncConfig_shape (now : Time) (c row : SyncConfig.t)
  (rows rows' : list SyncConfig.t) :
  syncstore.CreateSyncConfig now c rows = Ok (row, rows') ->
  (exists l1 l2, rows = l1 ++ l2 /\ rows' = l1 ++ row :: l2)
  /\ (row = SyncConfig_on_create now c
      \/ row = gorm.with_id (gorm.max_id rows + 1)%N (SyncConfig_on_create now c))
  /\ (forall g, In g rows -> SyncConfig.Name g <> SyncConfig.Name c)
  /\ (forall g, In g rows -> SyncConfig.ID g <> SyncConfig.ID row).
Proof.
  unfold syncstore.CreateSyncConfig.
  destruct (gorm.Create (SyncConfig_on_create now c) rows) as [[r rows1]|] eqn:E;
    [|discriminate].
  destruct (existsb _ rows) eqn:Ex; [discriminate|]. intros [= <- <-].
  destruct (@Create_shape SyncConfig.t SyncConfig_AutoIncrement (fun _ _ => eq_refl)
              _ _ _ _ E) as ((l1 & l2 & E1 & -> & _) & Hrow & _ & _ & Hfresh & _).
  split; [exists l1, l2; auto|].
  repeat split; auto.
  intros g Hg. rewrite existsb_false_forall in Ex. apply String.eqb_neq. now apply Ex.
Qed.

(** X20: [CreateSyncConfig] fills the zero values of the fields tagged
    with a default.  The stored configuration is always enabled, and its
    worker count and chunk size are never zero: 4 workers and 5242880
    bytes stand in for a zero, and any other value is kept. *)
Theorem CreateSyncConfig_defaults (now : Time) (c row : SyncConfig.t)
  (rows rows' : list SyncConfig.t) :
  syncstore.CreateSyncConfig now c rows = Ok (row, rows') ->
  SyncConfig.Enabled row = true
  /\ SyncConfig.Workers row = (if SyncConfig.Workers c =? 0 then 4 else SyncConfig.Workers c)
  /\ SyncConfig.ChunkSize row
     = (if SyncConfig.ChunkSize c =? 0 then 5242880 else SyncConfig.ChunkSize c)
  /\ SyncConfig.Workers row <> 0 /\ SyncConfig.ChunkSize row <> 0
  /\ In row rows'.
Proof.
  intros Hc.
  destruct (CreateSyncConfig_shape now c row rows rows' Hc)
    as ((l1 & l2 & _ & ->) & Hrow & _).
  assert (HE : SyncConfig.Enabled row = true)
    by (destruct Hrow as [->| ->]; simpl; now destruct (SyncConfig.Enabled c)).
  assert (HW : SyncConfig.Workers row
               = (if SyncConfig.Workers c =? 0 then 4 else SyncConfig.Workers c))
    by (destruct Hrow as [->| ->]; reflexivity).
  assert (HC : SyncConfig.ChunkSize row
               = (if SyncConfig.ChunkSize c =? 0 then 5242880 else SyncConfig.ChunkSize c))
    by (destruct Hrow as [->| ->]; reflexivity).
  repeat split; auto.
  - rewrite HW. destruct (SyncConfig.Workers c =? 0) eqn:E; [lia | now apply Z.eqb_neq].
  - rewrite HC. destruct (SyncConfig.ChunkSize c =? 0) eqn:E; [lia | now apply Z.eqb_neq].
  - apply in_app_iff. right. now left.
Qed.

Lemma CreateSyncConfig_defaults_witness :
  exists row rows',
    syncstore.CreateSyncConfig 1
      (SyncConfig.Build 0 "photos" "b/pictures" "/home/me/pictures" "download"
         false 60 0 0 "" 0 0 None) []
    = Ok (row, rows')
    /\ SyncConfig.Enabled row = true /\ SyncConfig.Workers row = 4.
Proof.
  do 2 eexists. split; [reflexivity|].
  destruct (CreateSyncConfig_defaults 1
              (SyncConfig.Build 0 "photos" "b/pictures" "/home/me/pictures" "download"
                 false 60 0 0 "" 0 0 None) _ [] _ eq_refl) as (HE & HW & _).
  split; [exact HE | exact HW].
Defined.

(** X21: a sync configuration is found under the name it was created
    with and is listed; once deleted by its id it is neither found nor
    listed, yet its name stays taken: every creation of a configuration
    of that name fails, on the unique index whenever the id is left to
    the store and the store has one to give. *)
Theorem CreateSyncConfig_name_round_trip (now : Time) (c row : SyncConfig.t)
  (rows rows1 : list SyncConfig.t) :
  syncstore.CreateSyncConfig now c rows = Ok (row, rows1) ->
  SyncConfig.DeletedAt c = None ->
  syncstore.GetSyncConfig (SyncConfig.Name c) rows1 = Ok row
  /\ (exists listed, syncstore.ListSyncConfigs rows1 = Ok listed /\ In row listed)
  /\ forall now' rows2,
       syncstore.DeleteSyncConfig now' (SyncConfig.ID row) rows1 = Ok rows2 ->
       syncstore.GetSyncConfig (SyncConfig.Name c) rows2 = Err ErrRecordNotFound
       /\ syncstore.ListSyncConfigs rows2 = syncstore.ListSyncConfigs rows
       /\ forall now'' c', SyncConfig.Name c' = SyncConfig.Name c ->
            (exists e, syncstore.CreateSyncConfig now'' c' rows2 = Err e)
            /\ (SyncConfig.ID c' = 0%N ->
                (gorm.max_id rows2 < MaxInt64)%N ->
                syncstore.CreateSyncConfig now'' c' rows2
                = Err (ErrUniqueConstraint "sync_configs.name")).
Proof.
  intros Hc Hact.
  destruct (CreateSyncConfig_shape now c row rows rows1 Hc)
    as ((l1 & l2 & E1 & ->) & Hrow & Hname & Hfresh).
  assert (HN : SyncConfig.Name row = SyncConfig.Name c)
    by (destruct Hrow as [->| ->]; reflexivity).
  assert (HD : SyncConfig.DeletedAt row = None)
    by (destruct Hrow as [->| ->]; exact Hact).
  assert (Hnone : gorm.Find (fun x => String.eqb (SyncConfig.Name x) (SyncConfig.Name c))
                    rows = []).
  { apply Find_nil. intros x Hx. apply String.eqb_neq. now apply Hname. }
  split; [|split].
  - unfold syncstore.GetSyncConfig, gorm.First. rewrite Find_insert_only.
    + reflexivity.
    + unfold gorm.active. simpl. now rewrite HD, HN, String.eqb_refl.
    + rewrite <- E1. intros g Hg. apply andb_false_iff. right.
      apply String.eqb_neq. now apply Hname.
  - eexists. split; [reflexivity|]. apply Find_In. split; [|split; auto].
    apply in_app_iff. right. now left.
  - intros now' rows2 [= <-]. rewrite E1 in Hfresh, Hnone. split; [|split].
    + unfold syncstore.GetSyncConfig, gorm.First.
      rewrite (Find_insert_delete SyncConfig_deleted_law SyncConfig.ID) by exact Hfresh.
      now rewrite Hnone.
    + unfold syncstore.ListSyncConfigs. f_equal. rewrite E1.
      now apply (Find_insert_delete SyncConfig_deleted_law SyncConfig.ID).
    + intros now'' c' Hc'.
      assert (Hex : existsb (fun g => String.eqb (SyncConfig.Name g) (SyncConfig.Name c'))
                      (gorm.Delete now' (fun r => (SyncConfig.ID r =? SyncConfig.ID row)%N)
                         (l1 ++ row :: l2)) = true).
      { apply existsb_exists.
        exists (if gorm.active row && (SyncConfig.ID row =? SyncConfig.ID row)%N
                then gorm.set_deleted_at now' row else row).
        split.
        - unfold gorm.Delete. apply in_map_iff. exists row. split; [reflexivity|].
          apply in_app_iff. right. now left.
        - rewrite Hc', <- HN. destruct (gorm.active row && _); simpl;
            apply String.eqb_refl. }
      unfold syncstore.CreateSyncConfig, syncstore.DeleteSyncConfig. split.
      * destruct (gorm.Create _ _) as [[r rows']|e]; [|now exists e].
        rewrite Hex. eauto.
      * intros Hz Hroom. rewrite Create_auto by assumption. now rewrite Hex.
Qed.

Lemma CreateSyncConfig_name_round_trip_witness :
  exists row rows1,
    syncstore.CreateSyncConfig 1
      (SyncConfig.Build 0 "photos" "b/pictures" "/home/me/pictures" "download"
         true 60 2 1024 "" 0 0 None) []
    = Ok (row, rows1)
    /\ syncstore.GetSyncConfig "photos" rows1 = Ok row.
Proof.
  do 2 eexists. split; [reflexivity|].
  apply (CreateSyncConfig_name_round_trip 1
           (SyncConfig.Build 0 "photos" "b/pictures" "/home/me/pictures" "download"
              true 60 2 1024 "" 0 0 None) _ [] _ eq_refl eq_refl).
Defined.

(** ** Resolved paths *)

Lemma cut_recompose (sep : ascii) (s head : string) (rest : option string) :
  registry.cut sep s = (head, rest) ->
  spec.existsb_string (fun c => Ascii.eqb c sep) head = false
  /\ s = match rest with
         | Some r => (head ++ String sep r)%string
         | None => head
         end.
Proof.
  revert head rest. induction s as [|c s IH]; simpl; intros head rest Hcut.
  - injection Hcut as <- <-. split; reflexivity.
  - destruct (Ascii.eqb c sep) eqn:E.
    + injection Hcut as <- <-. apply Ascii.eqb_eq in E. subst c. split; reflexivity.
    + destruct (registry.cut sep s) as [h r] eqn:Ec. injection Hcut as <- <-.
      destruct (IH h r eq_refl) as [Hno Hs]. split.
      * simpl. now rewrite E, Hno.
      * rewrite Hs at 1. now destruct r.
Qed.

(** X22: a resolved path is its two parts put together again.  When
    [ResolveVirtualPath] answers (b, p), [b] is an active backend row
    whose identifier holds no slash, and the path is that identifier,
    a slash and [p], or the bare identifier with [p] empty.  A path
    without a slash and the same path with one trailing slash resolve
    alike. *)
Theorem ResolveVirtualPath_recompose (s : store.DB) :
  (forall path b p,
      registry.ResolveVirtualPath path s = Ok (b, p) ->
      In b (store.backends s) /\ Backend.DeletedAt b = None
      /\ spec.existsb_string (fun c => Ascii.eqb c "/") (Backend.ID b) = false
      /\ (path = (Backend.ID b ++ String "/" p)%string
          \/ (path = Backend.ID b /\ p = EmptyString)))
  /\ (forall B, spec.existsb_string (fun c => Ascii.eqb c "/") B = false ->
                registry.ResolveVirtualPath (B ++ "/") s
                = registry.ResolveVirtualPath B s).
Proof.
  split.
  - intros path b p. unfold registry.ResolveVirtualPath, registry.SplitN2.
    destruct (registry.cut "/" path) as [head rest] eqn:Ec.
    destruct (cut_recompose "/" path head rest Ec) as [Hno Hpath].
    destruct rest as [r|]; simpl;
      destruct (store.GetBackend head s) as [b'|] eqn:G; try discriminate;
      intros [= <- <-]; apply First_Ok in G; destruct G as (Hin & Hact & Hid);
      apply String.eqb_eq in Hid; rewrite Hid; repeat split; auto.
  - intros B Hno. unfold registry.ResolveVirtualPath, registry.SplitN2.
    rewrite (cut_no_separator B "" Hno).
    destruct (registry.cut "/" B) as [head rest] eqn:Ec.
    destruct (cut_recompose "/" B head rest Ec) as [_ HB].
    destruct rest as [r|].
    + subst B. exfalso. clear Ec. induction head as [|c h IH]; simpl in Hno.
      * discriminate.
      * apply orb_false_iff in Hno. now apply IH.
    + now subst head.
Qed.

Lemma ResolveVirtualPath_recompose_witness :
  registry.ResolveVirtualPath "b/" sample.one_file
  = registry.ResolveVirtualPath "b" sample.one_file.
Proof.
  apply (proj2 (ResolveVirtualPath_recompose sample.one_file) "b"%string).
  reflexivity.
Defined.

Lemma prefix_cons (a b : ascii) (s1 s2 : string) :
  String.prefix (String a s1) (String b s2)
  = if ascii_dec a b then String.prefix s1 s2 else false.
Proof. reflexivity. Qed.

(** X23: [isValidBackendID] accepts exactly the non-empty identifiers
    made of [A-Za-z0-9_-]; its test of the first character for a dot or a
    slash rejects nothing that the character loop would not reject.  An
    accepted identifier holds no slash, so for a registered backend with
    an accepted identifier [B], the path [B/P] resolves to that backend
    and [P]. *)
Theorem isValidBackendID_accepts (id : string) :
  (backend_id.isValidBackendID id = true <->
   id <> EmptyString /\ backend_id.all_runes backend_id.valid_rune id = true)
  /\ (backend_id.isValidBackendID id = true ->
      spec.illegal_identifier id = false
      /\ forall s b P, store.GetBackend id s = Ok b ->
           registry.ResolveVirtualPath (id ++ String "/" P) s = Ok (b, P)).
Proof.
  assert (Hiff : backend_id.isValidBackendID id = true <->
                 id <> EmptyString /\ backend_id.all_runes backend_id.valid_rune id = true).
  { destruct id as [|c id]; simpl.
    - split; [discriminate | intros [H _]; now destruct H].
    - destruct (backend_id.valid_rune c) eqn:Ev.
      + destruct (valid_rune_not_separator c Ev) as [-> ->]. simpl.
        split; [intros H; split; [discriminate | exact H] | tauto].
      + destruct (Ascii.eqb c "." || Ascii.eqb c "/"); split;
          try discriminate; intros [_ H]; discriminate. }
  split; [exact Hiff|]. intros Hvalid. apply Hiff in Hvalid.
  destruct Hvalid as [Hne Hall]. pose proof (valid_runes_no_slash id Hall) as Hno. split.
  - unfold spec.illegal_identifier. rewrite Hno. simpl.
    replace (String.prefix "." id) with false.
    + simpl. apply all_runes_forall in Hall.
      rewrite <- Hall. clear. induction id as [|c id IH]; simpl; [reflexivity|].
      rewrite IH. f_equal. f_equal. unfold spec.legal_char, backend_id.valid_rune.
      destruct (97 <=? N_of_ascii c)%N, (N_of_ascii c <=? 122)%N,
               (65 <=? N_of_ascii c)%N, (N_of_ascii c <=? 90)%N,
               (48 <=? N_of_ascii c)%N, (N_of_ascii c <=? 57)%N,
               (N_of_ascii c =? 45)%N, (N_of_ascii c =? 95)%N; reflexivity.
    + destruct id as [|c id]; [now destruct Hne|].
      cbn [backend_id.all_runes] in Hall.
      destruct (backend_id.valid_rune c) eqn:Ev; [|discriminate].
      destruct (valid_rune_not_separator c Ev) as [_ Hdot].
      rewrite prefix_cons.
      destruct (ascii_dec "." c) as [<-|_]; [discriminate Hdot|].
      reflexivity.
  - intros s b P Hget. unfold registry.ResolveVirtualPath, registry.SplitN2.
    now rewrite (cut_no_separator id P Hno), Hget.
Qed.

Lemma isValidBackendID_accepts_witness :
  spec.illegal_identifier "b" = false
  /\ registry.ResolveVirtualPath "b/pictures/a.jpg" sample.one_file
     = Ok (sample.stored_backend, "pictures/a.jpg"%string).
Proof.
  destruct (proj2 (isValidBackendID_accepts "b") eq_refl) as [Hlegal Hresolve].
  split; [exact Hlegal|].
  apply (Hresolve sample.one_file sample.stored_backend "pictures/a.jpg"%string).
  reflexivity.
Defined.

(* ================================================================= *)
(** * Further properties of the migrator *)

Section MigratorFacts.

Variable Schema : Type.

Lemma runMigration_ledger_ok (now : Z) (m : migrations.Migration Schema)
  (db db' : migrations.MDB Schema) :
  migrator.ledger_ok db -> migrations.runMigration now m db = Ok db' ->
  migrator.ledger_ok db'.
Proof.
  unfold migrator.ledger_ok, migrations.runMigration, migrations.history.
  intros [Hid Hver].
  destruct (migrations.Up m (migrations.schema db)) as [sch|]; [|discriminate].
  destruct (migrations.ledger db) as [rows|]; [|discriminate].
  destruct (migrations.create_history _ _ _ _ _) as [[rows' seq']|] eqn:Ec;
    [|discriminate].
  intros [= <-]. simpl. apply create_history_Ok in Ec.
  destruct Ec as (Ha & -> & Hseq). rewrite !map_app. simpl. split.
  - apply NoDup_snoc; [exact Hid|]. intros Hin. apply in_map_iff in Hin.
    destruct Hin as (x & Hx & Hin).
    pose proof (max_id_ge rows x Hin) as Hle.
    change (gorm.id_of x) with (migrations.ID x) in Hle. lia.
  - apply NoDup_snoc; [exact Hver|].
    intros Hin. apply appliedVersions_In in Hin. congruence.
Qed.

Lemma run_pending_ledger_ok (now : Z) (applied : Z -> bool)
  (ms : list (migrations.Migration Schema)) :
  forall db, migrator.ledger_ok db ->
             migrator.ledger_ok (fst (migrations.run_pending now applied ms db)).
Proof.
  induction ms as [|m ms IH]; intros db Hok; simpl; [exact Hok|].
  destruct (applied (migrations.mVersion m)); [now apply IH|].
  destruct (migrations.runMigration now m db) as [db1|] eqn:E; [|exact Hok].
  apply IH. now apply (runMigration_ledger_ok now m db).
Qed.

(** Where a failed run stopped. *)
Lemma run_pending_failure (now : Z) (applied : Z -> bool)
  (ms : list (migrations.Migration Schema)) :
  forall db db' e,
    migrations.run_pending now applied ms db = (db', Some e) ->
    exists pre m post cause,
      ms = pre ++ m :: post
      /\ applied (migrations.mVersion m) = false
      /\ migrations.runMigration now m db' = Err cause
      /\ e = ErrMigrationFailed (migrations.mVersion m) (migrations.mDescription m) cause
      /\ map migrations.Version (migrations.history db')
         = map migrations.Version (migrations.history db)
           ++ map (@migrations.mVersion Schema)
                (filter (fun x => negb (applied (migrations.mVersion x))) pre).
Proof.
  induction ms as [|m0 ms IH]; intros db db' e Hrun; simpl in Hrun; [discriminate|].
  destruct (applied (migrations.mVersion m0)) eqn:Ea.
  - destruct (IH _ _ _ Hrun) as (pre & m & post & cause & -> & Hm & Hstep & He & Hh).
    exists (m0 :: pre), m, post, cause. repeat split; auto.
    cbn [filter]. now rewrite Ea.
  - destruct (migrations.runMigration now m0 db) as [db1|cause] eqn:E.
    + destruct (IH _ _ _ Hrun) as (pre & m & post & cause & -> & Hm & Hstep & He & Hh).
      exists (m0 :: pre), m, post, cause. repeat split; auto.
      cbn [filter]. rewrite Ea. simpl. rewrite Hh.
      apply runMigration_Ok in E. destruct E as (_ & _ & row & -> & Hv & _).
      rewrite map_app. simpl. now rewrite Hv, <- app_assoc.
    + injection Hrun as <- <-. exists [], m0, ms, cause. simpl.
      now rewrite app_nil_r.
Qed.

Lemma run_pending_skip (now : Z) (applied : Z -> bool)
  (pre rest : list (migrations.Migration Schema)) (db : migrations.MDB Schema) :
  (forall x, In x pre -> applied (migrations.mVersion x) = true) ->
  migrations.run_pending now applied (pre ++ rest) db
  = migrations.run_pending now applied rest db.
Proof.
  induction pre as [|x pre IH]; intros Hall; simpl; [reflexivity|].
  rewrite (Hall x) by now left. apply IH. intros y Hy. apply Hall. now right.
Qed.

(** Whether a step fails, and how, does not depend on the clock. *)
Lemma runMigration_Err_clock (now now' : Z) (m : migrations.Migration Schema)
  (db : migrations.MDB Schema) (cause : error) :
  migrations.runMigration now m db = Err cause ->
  migrations.runMigration now' m db = Err cause.
Proof.
  unfold migrations.runMigration.
  destruct (migrations.Up m (migrations.schema db)) as [sch|]; [|auto].
  destruct (migrations.ledger db) as [rows|]; [|auto].
  unfold migrations.create_history.
  destruct (N.max _ _ <? MaxInt64)%N; [|auto].
  destruct (migrations.appliedVersions _ _); [auto | discriminate].
Qed.

End MigratorFacts.

(** X24: [Status] reads the ledger as it is: on a database without the
    ledger table it fails, and otherwise it lists every migration once,
    in list order, and marks as not applied exactly the ones whose
    version no ledger row carries, which are the ones [Migrate] would
    run.  After [Migrate] the table is there, so [Status] answers, and
    after a run without error every migration is marked applied. *)
Theorem Status_reports_pending (Schema : Type) (now : Z)
  (ms : list (migrations.Migration Schema)) (db : migrations.MDB Schema) :
  (migrations.ledger db = None ->
   migrator.Status ms db
   = Err (ErrQueryHistory (ErrNoSuchTable "migration_histories")))
  /\ (migrations.ledger db <> None ->
      exists sts,
        migrator.Status ms db = Ok sts
        /\ map migrator.Version sts = map (@migrations.mVersion Schema) ms
        /\ map migrator.Version (filter (fun st => negb (migrator.Applied st)) sts)
           = map (@migrations.mVersion Schema) (migrations.pending ms db))
  /\ exists sts,
       migrator.Status ms (fst (migrations.Migrate now ms db)) = Ok sts
       /\ map migrator.Version sts = map (@migrations.mVersion Schema) ms
       /\ (snd (migrations.Migrate now ms db) = None ->
           forallb migrator.Applied sts = true).
Proof.
  split; [|split].
  - intros E. unfold migrator.Status. now rewrite E.
  - intros Hsome. unfold migrator.Status.
    rewrite (pending_appliedVersions Schema ms db). unfold migrations.history.
    destruct (migrations.ledger db) as [rows|]; [|congruence].
    eexists. split; [reflexivity|]. split.
    + rewrite map_map. reflexivity.
    + induction ms as [|m ms IH]; [reflexivity|]. cbn [map filter]. simpl.
      destruct (migrations.appliedVersions rows (migrations.mVersion m)); simpl;
        now rewrite IH.
  - pose proof (run_pending_ledger Schema now
                  (migrations.appliedVersions
                     (migrations.history (migrations.AutoMigrate db)))
                  ms (migrations.AutoMigrate db) (AutoMigrate_ledger Schema db))
      as Hledger.
    destruct (migrations.Migrate now ms db) as [db' err] eqn:Hrun. simpl.
    unfold migrations.Migrate in Hrun. cbv zeta in Hrun.
    rewrite Hrun in Hledger. simpl in Hledger.
    unfold migrator.Status.
    destruct (migrations.ledger db') as [rows|] eqn:El; [|congruence].
    eexists. split; [reflexivity|]. split; [rewrite map_map; reflexivity|].
    intros ->.
    destruct (run_pending_steps Schema now _ ms _ db' None Hrun)
      as (done & rest & Hsplit & _ & Hhist & ->).
    rewrite app_nil_r in Hsplit. rewrite AutoMigrate_history in Hsplit, Hhist.
    unfold migrations.history at 1 in Hhist. rewrite El in Hhist.
    apply forallb_forall. intros st Hst.
    apply in_map_iff in Hst. destruct Hst as (m & <- & Hm). simpl.
    apply appliedVersions_In. rewrite Hhist, in_app_iff.
    destruct (migrations.appliedVersions (migrations.history db) (migrations.mVersion m))
      eqn:Ea.
    + left. now apply appliedVersions_In.
    + right. apply in_map. rewrite <- Hsplit. apply filter_In. now rewrite Ea.
Qed.

Lemma Status_reports_pending_witness :
  exists sts,
    migrator.Status sample.two_steps
      (fst (migrations.Migrate 7 sample.two_steps
              (migrations.MkMDB [] None 0)))
    = Ok sts
    /\ map migrator.Version sts = [1; 2]
    /\ forallb migrator.Applied sts = true.
Proof.
  destruct (proj2 (proj2 (Status_reports_pending (list Z) 7 sample.two_steps
                            (migrations.MkMDB [] None 0))))
    as (sts & H1 & H2 & H3).
  exists sts. split; [exact H1|]. split; [exact H2|]. apply H3. reflexivity.
Defined.

(** X25: the ledger never holds a version twice.  Whatever the list of
    migrations, also one that repeats a version, and whether or not the
    run fails, [Migrate] turns a ledger with distinct ids and distinct
    versions into one with distinct ids and distinct versions. *)
Theorem Migrate_keeps_ledger (Schema : Type) (now : Z)
  (ms : list (migrations.Migration Schema)) (db : migrations.MDB Schema) :
  migrator.ledger_ok db ->
  migrator.ledger_ok (fst (migrations.Migrate now ms db)).
Proof.
  intros Hok. unfold migrations.Migrate. apply run_pending_ledger_ok.
  unfold migrator.ledger_ok. now rewrite AutoMigrate_history.
Qed.

Lemma Migrate_keeps_ledger_witness :
  migrator.ledger_ok
    (fst (migrations.Migrate 7
            [migrations.MkMigration 1 "first" (fun _ : bool => Ok true) (fun _ => Ok false);
             migrations.MkMigration 1 "again" (fun _ : bool => Ok true) (fun _ => Ok false)]
            (migrations.MkMDB false None 0))).
Proof.
  apply (Migrate_keeps_ledger bool 7).
  split; constructor.
Defined.

(** X26: a failed run can be repeated.  When the versions of the list
    are distinct and [Migrate] stops with an error, running [Migrate]
    again on the database it left skips what was committed, tries the
    failed migration first, and ends in the same database with the same
    error. *)
Theorem Migrate_failure_repeats (Schema : Type) (now : Z)
  (ms : list (migrations.Migration Schema)) (db db' : migrations.MDB Schema)
  (e : error) :
  NoDup (map (@migrations.mVersion Schema) ms) ->
  migrations.Migrate now ms db = (db', Some e) ->
  forall now', migrations.Migrate now' ms db' = (db', Some e).
Proof.
  intros Hnd Hrun now'.
  pose proof (run_pending_ledger Schema now
                (migrations.appliedVersions
                   (migrations.history (migrations.AutoMigrate db)))
                ms (migrations.AutoMigrate db) (AutoMigrate_ledger Schema db))
    as Hledger.
  unfold migrations.Migrate in *. cbv zeta in *.
  rewrite Hrun in Hledger. simpl in Hledger.
  rewrite (AutoMigrate_again Schema db' Hledger).
  destruct (run_pending_failure Schema now _ ms _ db' e Hrun)
    as (pre & m & post & cause & -> & Hm & Hstep & -> & Hhist).
  rewrite AutoMigrate_history in Hm, Hhist.
  apply (runMigration_Err_clock Schema now now') in Hstep.
  rewrite run_pending_skip.
  - simpl.
    replace (migrations.appliedVersions (migrations.history db') (migrations.mVersion m))
      with false; [now rewrite Hstep|].
    symmetry. apply not_true_is_false. intros Ha.
    apply appliedVersions_In in Ha. rewrite Hhist, in_app_iff in Ha.
    destruct Ha as [Ha|Ha].
    + apply appliedVersions_In in Ha. congruence.
    + rewrite map_app in Hnd. apply NoDup_remove_2 in Hnd. apply Hnd.
      apply in_app_iff. left. apply in_map_iff in Ha.
      destruct Ha as (x & Hx & Hin). apply filter_In in Hin.
      rewrite <- Hx. apply in_map. tauto.
  - intros x Hx. apply appliedVersions_In. rewrite Hhist, in_app_iff.
    destruct (migrations.appliedVersions (migrations.history db) (migrations.mVersion x))
      eqn:Ea.
    + left. now apply appliedVersions_In.
    + right. apply in_map. apply filter_In. now rewrite Ea.
Qed.

Lemma Migrate_failure_repeats_witness :
  migrations.Migrate 8
    (migrations.allMigrations (fun _ : bool => Err ErrDatabaseFull) (fun _ => Ok false))
    (migrations.MkMDB false (Some []) 0)
  = (migrations.MkMDB false (Some []) 0,
     Some (ErrMigrationFailed 1 "Initial schema creation" ErrDatabaseFull)).
Proof.
  apply (Migrate_failure_repeats bool 7 _ (migrations.MkMDB false None 0)).
  - simpl. constructor; [intros [] | constructor].
  - reflexivity.
Defined.

Section RollbackFacts.

Variable Schema : Type.

Lemma least_later_max (rows : list migrations.migrationHistory)
  (m : migrations.migrationHistory) :
  gorm.least migrator.later rows = Some m ->
  forall x, In x rows -> migrations.Version x <= migrations.Version m.
Proof.
  revert m. induction rows as [|r rows IH]; simpl; intros m Hm x Hx; [destruct Hx|].
  destruct (gorm.least migrator.later rows) as [m'|] eqn:E.
  - specialize (IH m' eq_refl).
    destruct (migrator.later m' r) eqn:El; injection Hm as <-.
    + unfold migrator.later in El. destruct Hx as [<-|Hx]; [|now apply IH].
      apply orb_true_iff in El. destruct El as [El|El].
      * apply Z.ltb_lt in El. lia.
      * apply andb_true_iff in El. destruct El as [El _]. apply Z.eqb_eq in El. lia.
    + unfold migrator.later in El. apply orb_false_iff in El. destruct El as [El _].
      apply Z.ltb_ge in El. destruct Hx as [<-|Hx]; [lia|].
      specialize (IH x Hx). lia.
  - injection Hm as <-. apply least_None in E. subst rows.
    destruct Hx as [<-|[]]. lia.
Qed.

Lemma find_migration_Some (v : Z) (ms : list (migrations.Migration Schema))
  (m : migrations.Migration Schema) :
  migrator.find_migration v ms = Some m -> In m ms /\ migrations.mVersion m = v.
Proof.
  induction ms as [|x ms IH]; simpl; [discriminate|].
  destruct (migrations.mVersion x =? v) eqn:E.
  - intros [= <-]. apply Z.eqb_eq in E. auto.
  - intros H. destruct (IH H). auto.
Qed.

(** Dropping the row of one id from a ledger with distinct ids and
    versions drops its version and no other. *)
Lemma appliedVersions_drop (rows : list migrations.migrationHistory)
  (last : migrations.migrationHistory) (v : Z) :
  NoDup (map migrations.ID rows) -> NoDup (map migrations.Version rows) ->
  In last rows ->
  migrations.appliedVersions
    (filter (fun h => negb (migrations.ID h =? migrations.ID last)%N) rows) v
  = migrations.appliedVersions rows v && negb (v =? migrations.Version last).
Proof.
  intros Hid Hver Hlast.
  destruct (migrations.appliedVersions (filter _ rows) v) eqn:E.
  - apply appliedVersions_In in E. apply in_map_iff in E.
    destruct E as (h & Hv & Hh). apply filter_In in Hh. destruct Hh as [Hh Hne].
    symmetry. apply andb_true_iff. split.
    + apply appliedVersions_In. rewrite <- Hv. now apply in_map.
    + apply negb_true_iff, Z.eqb_neq. intros Heq. apply negb_true_iff, N.eqb_neq in Hne.
      apply Hne. f_equal.
      apply (NoDup_map_inj migrations.Version rows); auto. congruence.
  - symmetry. apply andb_false_iff.
    destruct (v =? migrations.Version last) eqn:Ev; [now right|]. left.
    apply not_true_is_false. intros Ha. apply appliedVersions_In in Ha.
    apply in_map_iff in Ha. destruct Ha as (h & Hv & Hh).
    assert (Hin : In v (map migrations.Version
                          (filter (fun h => negb (migrations.ID h =? migrations.ID last)%N)
                             rows))).
    { rewrite <- Hv. apply in_map. apply filter_In. split; [exact Hh|].
      apply negb_true_iff, N.eqb_neq. intros Heq. apply Z.eqb_neq in Ev. apply Ev.
      rewrite <- Hv. f_equal. apply (NoDup_map_inj migrations.ID rows); auto. }
    apply appliedVersions_In in Hin. congruence.
Qed.

Lemma NoDup_map_filter {A B} (h : A -> B) (p : A -> bool) (l : list A) :
  NoDup (map h l) -> NoDup (map h (filter p l)).
Proof.
  induction l as [|a l IH]; simpl; intros Hnd; [constructor|].
  inversion Hnd as [|? ? Hnotin Hnd']; subst.
  destruct (p a); simpl; [|now apply IH].
  constructor; [|now apply IH].
  intros Hin. apply Hnotin. apply in_map_iff in Hin. destruct Hin as (x & Hx & Hin).
  apply filter_In in Hin. rewrite <- Hx. apply in_map. tauto.
Qed.

End RollbackFacts.

(** X27: [Rollback] undoes the migration of the largest recorded
    version.  It reports that there is nothing to roll back exactly on an
    empty ledger.  When it succeeds on a ledger with distinct ids and
    versions, it has run the [Down] of the first migration of the list
    that carries the largest recorded version, and it has taken that
    version, and no other, out of the ledger: [Status] then shows the
    migration as not applied, so the next [Migrate] runs it again. *)
Theorem Rollback_latest (Schema : Type)
  (ms : list (migrations.Migration Schema)) (db : migrations.MDB Schema) :
  (migrator.Rollback ms db = migrator.NoMigrations <-> migrations.history db = [])
  /\ (forall db',
        migrator.ledger_ok db ->
        migrator.Rollback ms db = migrator.RolledBack db' ->
        exists last m,
          In last (migrations.history db)
          /\ (forall h, In h (migrations.history db) ->
                        migrations.Version h <= migrations.Version last)
          /\ migrator.find_migration (migrations.Version last) ms = Some m
          /\ In m ms /\ migrations.mVersion m = migrations.Version last
          /\ migrations.Down m (migrations.schema db) = Ok (migrations.schema db')
          /\ (forall v, migrations.appliedVersions (migrations.history db') v
                        = migrations.appliedVersions (migrations.history db) v
                          && negb (v =? migrations.Version last))
          /\ In m (migrations.pending ms db')
          /\ migrator.ledger_ok db').
Proof.
  unfold migrator.Rollback. split.
  - destruct (gorm.least migrator.later (migrations.history db)) as [last|] eqn:El.
    + split.
      * destruct (migrator.find_migration _ ms); [|discriminate].
        destruct (migrations.Down _ _); [|discriminate].
        destruct (migrations.ID last =? 0)%N; discriminate.
      * intros Hnil. rewrite Hnil in El. discriminate.
    + apply least_None in El. tauto.
  - intros db' [Hid Hver].
    destruct (gorm.least migrator.later (migrations.history db)) as [last|] eqn:El;
      [|discriminate].
    destruct (migrator.find_migration (migrations.Version last) ms) as [m|] eqn:Ef;
      [|discriminate].
    destruct (migrations.Down m (migrations.schema db)) as [sch|] eqn:Ed; [|discriminate].
    destruct (migrations.ID last =? 0)%N; [discriminate|].
    intros [= <-]. simpl.
    pose proof (least_In _ _ _ El) as Hlast.
    destruct (find_migration_Some Schema _ ms m Ef) as [Hm Hv].
    assert (Hdrop := fun v => appliedVersions_drop (migrations.history db) last v
                                Hid Hver Hlast).
    exists last, m. repeat split; auto.
    + now apply least_later_max.
    + apply pending_In. split; [exact Hm|]. unfold migrations.recorded.
      intros Hin. apply appliedVersions_In in Hin. simpl in Hin.
      rewrite Hdrop, Hv, Z.eqb_refl, andb_false_r in Hin. discriminate.
    + now apply NoDup_map_filter.
    + now apply NoDup_map_filter.
Qed.

Lemma Rollback_latest_witness :
  exists last m,
    In last [migrations.MkHistory 1 1 "Initial schema creation" 7]
    /\ (forall h, In h [migrations.MkHistory 1 1 "Initial schema creation" 7] ->
                  migrations.Version h <= migrations.Version last)
    /\ migrator.find_migration (migrations.Version last)
         (migrations.allMigrations (fun _ : bool => Ok true) (fun _ => Ok false))
       = Some m.
Proof.
  destruct (proj2 (Rollback_latest bool
                     (migrations.allMigrations (fun _ : bool => Ok true) (fun _ => Ok false))
                     (migrations.MkMDB true
                        (Some [migrations.MkHistory 1 1 "Initial schema creation" 7]) 1))
              (migrations.MkMDB false (Some []) 1))
    as (last & m & H1 & H2 & H3 & _).
  - split; simpl; (constructor; [intros [] | constructor]).
  - reflexivity.
  - exists last, m. auto.
Defined.
